(** * go-dkci: naming, filtering, selection and configuration rules

    A shallow embedding of the decision logic of the [docker], [cloud] and
    [config] packages of go-dkci.  Go strings are byte sequences and are
    modelled as [list ascii]; the functions of Go's [strings] and
    [path/filepath] packages that the program calls are written out first,
    then the program's own code, function by function. *)

From Stdlib Require Import String Ascii Bool Arith Lia ZArith List.
Import ListNotations.

Set Implicit Arguments.

(** ** Go strings *)

Definition gostring := list ascii.

(** A literal of the source text, as its bytes. *)
Definition str (s : string) : gostring := list_ascii_of_string s.

Module GoStrings.

Definition byte_eqb (a b : ascii) : bool := Ascii.eqb a b.

(** [a == b] on strings. *)
Fixpoint eqb (a b : gostring) : bool :=
  match a, b with
  | [], [] => true
  | x :: a', y :: b' => byte_eqb x y && eqb a' b'
  | _, _ => false
  end.

(** [s == ""] *)
Definition is_empty (s : gostring) : bool :=
  match s with [] => true | _ => false end.

(** strings.HasPrefix *)
Fixpoint HasPrefix (s prefix : gostring) : bool :=
  match prefix, s with
  | [], _ => true
  | p :: prefix', c :: s' => byte_eqb c p && HasPrefix s' prefix'
  | _ :: _, [] => false
  end.

(** strings.HasSuffix: [len(s) >= len(suffix) && s[len(s)-len(suffix):] == suffix] *)
Definition HasSuffix (s suffix : gostring) : bool :=
  (length suffix <=? length s) &&
  eqb (skipn (length s - length suffix) s) suffix.

(** strings.TrimSuffix *)
Definition TrimSuffix (s suffix : gostring) : gostring :=
  if HasSuffix s suffix then firstn (length s - length suffix) s else s.

(** strings.Contains: [substr] occurs at some offset of [s]. *)
Fixpoint Contains (s substr : gostring) : bool :=
  HasPrefix s substr ||
  match s with
  | [] => false
  | _ :: s' => Contains s' substr
  end.

(** strings.ToLower on the bytes 'A'..'Z'; every other byte is kept.  This
    is Go's result for every ASCII string (its byte-wise fast path). *)
Definition lower_byte (c : ascii) : ascii :=
  let n := nat_of_ascii c in
  if (65 <=? n) && (n <=? 90) then ascii_of_nat (n + 32) else c.

Definition ToLower (s : gostring) : gostring := map lower_byte s.

(** strings.Split for a non-empty separator: cut at every non-overlapping
    occurrence, left to right.  [skip] counts the bytes of a separator
    occurrence that are still to be passed over. *)
Fixpoint split_from (sep : gostring) (skip : nat) (s : gostring)
  : list gostring :=
  match s with
  | [] => [[]]
  | c :: s' =>
      match skip with
      | S k => split_from sep k s'
      | O =>
          if HasPrefix s sep
          then [] :: split_from sep (length sep - 1) s'
          else match split_from sep 0 s' with
               | part :: parts => (c :: part) :: parts
               | [] => [[c]]
               end
      end
  end.

Definition Split (s sep : gostring) : list gostring := split_from sep 0 s.

(** strings.ReplaceAll for a non-empty [old]. *)
Fixpoint replace_from (old new : gostring) (skip : nat) (s : gostring)
  : gostring :=
  match s with
  | [] => []
  | c :: s' =>
      match skip with
      | S k => replace_from old new k s'
      | O =>
          if HasPrefix s old
          then new ++ replace_from old new (length old - 1) s'
          else c :: replace_from old new 0 s'
      end
  end.

Definition ReplaceAll (s old new : gostring) : gostring :=
  replace_from old new 0 s.

(** strings.Join *)
Fixpoint Join (elems : list gostring) (sep : gostring) : gostring :=
  match elems with
  | [] => []
  | [e] => e
  | e :: rest => e ++ sep ++ Join rest sep
  end.

End GoStrings.

(** ** path/filepath (Unix separator) *)

Module GoFilepath.
Import GoStrings.

Definition slash : ascii := "/"%char.
Definition dot : ascii := "."%char.

Definition IsPathSeparator (c : ascii) : bool := byte_eqb c slash.

Fixpoint drop_separators (r : list ascii) : list ascii :=
  match r with
  | c :: r' => if IsPathSeparator c then drop_separators r' else r
  | [] => []
  end.

Fixpoint take_element (r : list ascii) : list ascii :=
  match r with
  | c :: r' => if IsPathSeparator c then [] else c :: take_element r'
  | [] => []
  end.

(** filepath.Base: the last element of the path, after the trailing
    separators are stripped; "." for the empty path, "/" for a path made
    of separators only.  The scans run from the end of the path, so they
    are written on the reversed byte list. *)
Definition Base (path : gostring) : gostring :=
  match path with
  | [] => [dot]
  | _ =>
      match rev (take_element (drop_separators (rev path))) with
      | [] => [slash]
      | elem => elem
      end
  end.

(** filepath.Ext: the suffix that starts at the last dot of the last
    element, the empty string when that element has no dot. *)
Fixpoint ext_scan (r : list ascii) (seen : list ascii) : gostring :=
  match r with
  | [] => []
  | c :: r' =>
      if IsPathSeparator c then []
      else if byte_eqb c dot then c :: seen
      else ext_scan r' (c :: seen)
  end.

Definition Ext (path : gostring) : gostring := ext_scan (rev path) [].

(** The elements of a path: the texts between its separators. *)
Fixpoint path_elements (cur path : gostring) : list gostring :=
  match path with
  | [] => [cur]
  | c :: rest =>
      if IsPathSeparator c then cur :: path_elements [] rest
      else path_elements (cur ++ [c]) rest
  end.

(** The elements filepath.Clean keeps, last one first: an empty element
    and "." are dropped; ".." removes the element before it when that is
    not ".." itself, is dropped at the root, and is kept otherwise. *)
Fixpoint clean_elements (rooted : bool) (kept elems : list gostring)
  : list gostring :=
  match elems with
  | [] => kept
  | e :: rest =>
      if is_empty e || eqb e [dot] then clean_elements rooted kept rest
      else if eqb e [dot; dot] then
        match kept with
        | top :: below =>
            if eqb top [dot; dot]
            then clean_elements rooted (e :: kept) rest
            else clean_elements rooted below rest
        | [] =>
            if rooted then clean_elements rooted [] rest
            else clean_elements rooted [e] rest
        end
      else clean_elements rooted (e :: kept) rest
  end.

(** filepath.Clean *)
Definition Clean (path : gostring) : gostring :=
  let rooted := HasPrefix path [slash] in
  let out :=
    (if rooted then [slash] else [])
    ++ Join (rev (clean_elements rooted [] (path_elements [] path))) [slash] in
  if is_empty out then [dot] else out.

(** filepath.Join: from the first non-empty element on, the elements are
    joined with the separator and the result is cleaned; the empty string
    when every element is empty. *)
Fixpoint from_first_non_empty (elem : list gostring) : list gostring :=
  match elem with
  | [] => []
  | e :: rest => if is_empty e then from_first_non_empty rest else elem
  end.

Definition JoinPath (elem : list gostring) : gostring :=
  match from_first_non_empty elem with
  | [] => []
  | rest => Clean (Join rest [slash])
  end.

End GoFilepath.

(** ** Export file names (docker.ExportImage, cloud.ExportImageToCloud) *)

Module Naming.
Import GoStrings.

(** The middle dot U+00B7, in UTF-8. *)
Definition middle_dot : gostring :=
  [ascii_of_nat 194; ascii_of_nat 183].

(** The tail of ExportImage's name computation, from the name portion and
    the tag on: sanitise the name portion, default the three suffix parts,
    join them and append the extension. *)
Definition tarFileName (imageNameOnly tag osInfo archInfo : gostring)
  : gostring :=
  let sanitizedImageName := ReplaceAll imageNameOnly (str "/") middle_dot in
  let suffixParts : list gostring := [] in
  let suffixParts :=
    if negb (is_empty tag) then suffixParts ++ [tag]
    else suffixParts ++ [str "latest"] in
  let suffixParts :=
    if negb (is_empty osInfo) then suffixParts ++ [osInfo]
    else suffixParts ++ [str "unknown"] in
  let suffixParts :=
    if negb (is_empty archInfo) then suffixParts ++ [archInfo]
    else suffixParts ++ [str "unknown"] in
  sanitizedImageName ++ str "_" ++ Join suffixParts (str "_") ++ str ".tar".

(** [nameParts[0]] and the tag of ExportImage: the reference is split on
    every ":", the first part is the name and the second, when there is
    one, the tag. *)
Definition nameParts (imageName : gostring) : list gostring :=
  Split imageName (str ":").

Definition imageNameOnly (imageName : gostring) : gostring :=
  nth 0 (nameParts imageName) [].

Definition tagOf (imageName : gostring) : gostring :=
  if 1 <? length (nameParts imageName)
  then nth 1 (nameParts imageName) []
  else [].

(** docker.ExportImage, the file name it exports [imageName] to;
    [osInfo] and [archInfo] are what the inspection returned, both empty
    when it failed. *)
Definition ExportImage_tarFileName (imageName osInfo archInfo : gostring)
  : gostring :=
  tarFileName (imageNameOnly imageName) (tagOf imageName) osInfo archInfo.

(** cloud.ExportImageToCloud computes the name by the same statements. *)
Definition ExportImageToCloud_tarFileName
  (imageName osInfo archInfo : gostring) : gostring :=
  let nameParts := Split imageName (str ":") in
  let imageNameOnly := nth 0 nameParts [] in
  let tag := if 1 <? length nameParts then nth 1 nameParts [] else [] in
  tarFileName imageNameOnly tag osInfo archInfo.

End Naming.

(** ** Candidate lists and the "All" entry of the menus *)

Module Selection.
Import GoStrings GoFilepath.

(** What the program reads of an image summary of the daemon listing. *)
Record ImageSummary := { RepoTags : list gostring }.

(** The process environment, as os.Getenv sees it: an unset variable
    reads as the empty string. *)
Definition Env := gostring -> gostring.

Definition none_tag : gostring := str "<none>:<none>".
Definition All : gostring := str "All".

(** docker.ExportImages, the loops that build [imageNames]; the pattern
    is read from the environment. *)
Definition ExportImages_imageNames (getenv : Env)
  (images : list ImageSummary) : list gostring :=
  fold_left (fun imageNames img =>
    fold_left (fun imageNames tag =>
      if negb (eqb tag none_tag) then
        if negb (is_empty (getenv (str "DKCI_GREP_PATTERN"))) then
          if Contains tag (getenv (str "DKCI_GREP_PATTERN"))
          then imageNames ++ [tag]
          else imageNames
        else imageNames ++ [tag]
      else imageNames)
      (RepoTags img) imageNames)
    images [].

(** docker.DeleteImages, the same loops with the pattern as a parameter. *)
Definition DeleteImages_imageNames (grepPattern : gostring)
  (images : list ImageSummary) : list gostring :=
  fold_left (fun imageNames img =>
    fold_left (fun imageNames tag =>
      if negb (eqb tag none_tag) then
        if negb (is_empty grepPattern) then
          if Contains tag grepPattern
          then imageNames ++ [tag]
          else imageNames
        else imageNames ++ [tag]
      else imageNames)
      (RepoTags img) imageNames)
    images [].

(** cloud.ExportImagesToCloud, as docker.ExportImages. *)
Definition ExportImagesToCloud_imageNames (getenv : Env)
  (images : list ImageSummary) : list gostring :=
  fold_left (fun imageNames img =>
    fold_left (fun imageNames tag =>
      if negb (eqb tag none_tag) then
        if negb (is_empty (getenv (str "DKCI_GREP_PATTERN"))) then
          if Contains tag (getenv (str "DKCI_GREP_PATTERN"))
          then imageNames ++ [tag]
          else imageNames
        else imageNames ++ [tag]
      else imageNames)
      (RepoTags img) imageNames)
    images [].

(** The options of the image menus: "All" first when there are several
    images (ExportImages, DeleteImages, ExportImagesToCloud). *)
Definition image_selections (imageNames : list gostring) : list gostring :=
  if 1 <? length imageNames then [All] ++ imageNames else imageNames.

(** [len(selected) == 1 && selected[0] == "All"] *)
Definition is_All (selected : list gostring) : bool :=
  (length selected =? 1) && eqb (nth 0 selected []) All.

(** "Handle the All selection" of ExportImages, DeleteImages and
    ExportImagesToCloud: [selectedImages = imageNames]. *)
Definition ExportImages_handleAll (imageNames selectedImages : list gostring)
  : list gostring :=
  if is_All selectedImages then imageNames else selectedImages.

Definition DeleteImages_handleAll (imageNames selectedImages : list gostring)
  : list gostring :=
  if is_All selectedImages then imageNames else selectedImages.

Definition ExportImagesToCloud_handleAll
  (imageNames selectedImages : list gostring) : list gostring :=
  if is_All selectedImages then imageNames else selectedImages.

(** The options of the file menus (importFromDirectory,
    ImportImagesFromCloud): the base names, "All" first when there are
    several files. *)
Definition file_selectionOptions (tarFiles : list gostring) : list gostring :=
  let selectionOptions := map Base tarFiles in
  if 1 <? length tarFiles then [All] ++ selectionOptions
  else selectionOptions.

(** A Go slice expression [s[1:]]; it panics on the empty slice. *)
Definition slice_from_1 (s : list gostring) : option (list gostring) :=
  match s with
  | [] => None
  | _ :: rest => Some rest
  end.

(** docker.importFromDirectory, "Handle All selection":
    [[
    for _, file := range tarFiles {
        selectedFiles = append(selectedFiles[1:], filepath.Base(file))
    }
    ]]
    [None] stands for the run-time panic of the slice expression. *)
Definition importFromDirectory_handleAll
  (tarFiles selectedFiles : list gostring) : option (list gostring) :=
  if is_All selectedFiles then
    fold_left (fun selectedFiles file =>
      match selectedFiles with
      | None => None
      | Some selectedFiles =>
          match slice_from_1 selectedFiles with
          | None => None
          | Some rest => Some (rest ++ [Base file])
          end
      end) tarFiles (Some selectedFiles)
  else Some selectedFiles.

(** cloud.ImportImagesFromCloud, "Handle All selection": the selection is
    emptied and the base name of every tar file appended. *)
Definition ImportImagesFromCloud_handleAll
  (tarFiles selectedFiles : list gostring) : list gostring :=
  if is_All selectedFiles then
    fold_left (fun selectedFiles file => selectedFiles ++ [Base file])
      tarFiles []
  else selectedFiles.

(** "Map selected filenames back to full paths": for each selected name
    the first tar file with that base name, none when there is no such
    file (both import functions). *)
Fixpoint first_with_base (tarFiles : list gostring) (selectedFile : gostring)
  : list gostring :=
  match tarFiles with
  | [] => []
  | tarFile :: rest =>
      if eqb (Base tarFile) selectedFile then [tarFile]
      else first_with_base rest selectedFile
  end.

Definition selectedFilePaths (tarFiles selectedFiles : list gostring)
  : list gostring :=
  fold_left (fun paths selectedFile =>
    paths ++ first_with_base tarFiles selectedFile) selectedFiles [].

End Selection.

(** ** Discovery of tar files, and the pattern filter *)

Module Discovery.
Import GoStrings GoFilepath.

(** The three suffix tests, on an already lowered name. *)
Definition has_tar_suffix (lowerName : gostring) : bool :=
  HasSuffix lowerName (str ".tar") ||
  HasSuffix lowerName (str ".tar.gz") ||
  HasSuffix lowerName (str ".tgz").

(** [strings.TrimSuffix(filepath.Base(path), filepath.Ext(path))] *)
Definition baseName (path : gostring) : gostring :=
  TrimSuffix (Base path) (Ext path).

(** os.FileInfo, as far as the walk function reads it. *)
Record FileInfo := { Name : gostring; IsDir : bool }.

(** One call of the function given to filepath.Walk. *)
Record WalkCall :=
  { walk_path : gostring; walk_info : FileInfo; walk_err : option gostring }.

(** The function literal of findTarFilesInDirectory: the new value of
    [tarFiles], or the error it returns (which ends the walk). *)
Definition walkFn (grepPattern : gostring) (tarFiles : list gostring)
  (c : WalkCall) : list gostring + gostring :=
  match walk_err c with
  | Some err => inr err
  | None =>
      if negb (IsDir (walk_info c)) then
        let lowerName := ToLower (Name (walk_info c)) in
        if has_tar_suffix lowerName then
          if negb (is_empty grepPattern) then
            let baseName := baseName (walk_path c) in
            if Contains baseName grepPattern
            then inl (tarFiles ++ [walk_path c])
            else inl tarFiles
          else inl (tarFiles ++ [walk_path c])
        else inl tarFiles
      else inl tarFiles
  end.

(** docker.findTarFilesInDirectory over the calls filepath.Walk makes for
    [dirPath], in order. *)
Fixpoint walk_from (grepPattern : gostring) (tarFiles : list gostring)
  (calls : list WalkCall) : list gostring + gostring :=
  match calls with
  | [] => inl tarFiles
  | c :: rest =>
      match walkFn grepPattern tarFiles c with
      | inl tarFiles' => walk_from grepPattern tarFiles' rest
      | inr err => inr err
      end
  end.

Definition findTarFilesInDirectory (calls : list WalkCall)
  (grepPattern : gostring) : list gostring + gostring :=
  walk_from grepPattern [] calls.

(** pan.FileInfo, as far as the program reads it. *)
Record PanFileInfo := { Path : gostring }.

(** cloud.ImportImagesFromCloud, the loop that fills [tarFiles] from the
    listing of the cloud directory. *)
Definition ImportImagesFromCloud_tarFiles (files : list PanFileInfo)
  (grepPattern : gostring) : list PanFileInfo :=
  fold_left (fun tarFiles file =>
    if HasSuffix (ToLower (Path file)) (str ".tar") ||
       HasSuffix (ToLower (Path file)) (str ".tar.gz") ||
       HasSuffix (ToLower (Path file)) (str ".tgz")
    then
      if negb (is_empty grepPattern) then
        let baseName := TrimSuffix (Base (Path file)) (Ext (Path file)) in
        if Contains baseName grepPattern
        then tarFiles ++ [file]
        else tarFiles
      else tarFiles ++ [file]
    else tarFiles) files [].

(** The acceptance decision of each source for one candidate that passed
    the other tests: the branch on the pattern, as written in the three
    kinds of loop. *)
Definition image_accepts (grepPattern tag : gostring) : bool :=
  if negb (is_empty grepPattern) then Contains tag grepPattern else true.

Definition local_accepts (grepPattern path : gostring) : bool :=
  if negb (is_empty grepPattern)
  then Contains (TrimSuffix (Base path) (Ext path)) grepPattern
  else true.

Definition cloud_accepts (grepPattern path : gostring) : bool :=
  if negb (is_empty grepPattern)
  then Contains (TrimSuffix (Base path) (Ext path)) grepPattern
  else true.

(** Contract B in the specification's words: the empty pattern matches
    everything, otherwise the pattern has to be a substring. *)
Definition matches_spec (candidateBaseName pattern : gostring) : bool :=
  match pattern with
  | [] => true
  | _ => Contains candidateBaseName pattern
  end.

End Discovery.

Import GoStrings GoFilepath Naming Selection Discovery.

(** ** The collaborators: daemon, file system, menu, cloud drive *)

(** A formatted argument and a Go error value.  An error of a collaborator
    is opaque text; an error the program builds is a call of fmt.Errorf. *)
Inductive value :=
| VString (s : gostring)
| VInt (n : nat)
| VStrings (l : list gostring)
| VError (e : error)
with error :=
| Foreign (msg : gostring)
| Errorf (format : gostring) (args : list value).

Inductive result (A : Type) :=
| Ok (a : A)
| Fail (err : error).

Arguments Ok {A} a.
Arguments Fail {A} err.

(** config.BDFSConfig *)
Record BDFSConfig := {
  ClientID : gostring;
  ClientSecret : gostring;
  TokenPath : gostring;
  DefaultCloudDir : gostring
}.

(** What ExportImage reads of the inspection of an image. *)
Record ImageInspect := { Os : gostring; Architecture : gostring }.

(** The calls the program makes to the outside, each with the type of its
    answer.  Handles (readers, files, the clients) are named by the path or
    the image they were opened for; the deferred Close calls have no
    answer the program reads and are left out. *)
Inductive Req : Type -> Type :=
(* github.com/docker/docker/client *)
| NewClientWithOpts : Req (result unit)
| ImageList : Req (result (list ImageSummary))
| ImageInspectWithRaw (imageName : gostring) : Req (result ImageInspect)
| ImageSave (imageName : gostring) : Req (result unit)
| ImageRemove (imageName : gostring) (force pruneChildren : bool)
  : Req (result unit)
| ImageLoad (source : gostring) (gunzip quiet : bool) : Req (result unit)
(* os, io, compress/gzip, archive/tar, path/filepath *)
| MkdirAll (path : gostring) : Req (result unit)
| Create (path : gostring) : Req (result unit)
| Copy (dst src : gostring) : Req (result unit)
| Stat (path : gostring) : Req (result FileInfo)
| Open (path : gostring) : Req (result unit)
| FileStat (path : gostring) : Req (result unit)
| GzipNewReader (path : gostring) : Req (result unit)
| ReadAll (source : gostring) : Req (result unit)
| TarFindManifest (path : gostring) : Req (result unit)
| Remove (path : gostring) : Req (result unit)
| Walk (dirPath : gostring) : Req (list WalkCall)
| UserHomeDir : Req (result gostring)
| ReadFile (path : gostring) : Req (result gostring)
(* github.com/pelletier/go-toml/v2, into the zero-valued record *)
| Unmarshal (data : gostring) : Req (result BDFSConfig)
(* github.com/AlecAivazis/survey/v2 *)
| AskOne (message : gostring) (options : list gostring)
  : Req (result (list gostring))
(* github.com/baowuhe/go-bdfs/pan *)
| Authorize (clientID clientSecret tokenPath : gostring) : Req (result unit)
| ListFiles (path : gostring) : Req (result (list PanFileInfo))
| GetFileInfoByPath (path : gostring) : Req (result PanFileInfo)
| UploadFile (localPath remotePath : gostring) : Req (result unit)
| DownloadFile (remotePath : gostring) : Req (result unit).

(** The outside world of one invocation: its state [W], how it answers a
    call, the environment variables it holds, and filepath.Join (a pure
    function of the path library, not interpreted here). *)
Record Collaborators (W : Type) := {
  answer : forall T, Req T -> W -> W * T;
  environ : W -> Env;
  Join : list gostring -> gostring
}.

(** ** Processes: output, calls and os.Exit *)

Inductive Event :=
| Printf (format : gostring) (args : list value)
| Called (T : Type) (req : Req T).

Arguments Called {T} req.

Inductive Outcome (A : Type) :=
| Returned (a : A)
| Exited (code : Z)
| Panicked.

Arguments Returned {A} a.
Arguments Exited {A} code.
Arguments Panicked {A}.

Record Run (W A : Type) := mkRun {
  trace : list Event;
  final : W;
  outcome : Outcome A
}.

Definition Proc (W A : Type) := W -> Run W A.

Module ProcMonad.

Definition ret {W A} (a : A) : Proc W A :=
  fun w => mkRun [] w (Returned a).

Definition bind {W A B} (m : Proc W A) (k : A -> Proc W B) : Proc W B :=
  fun w =>
    match m w with
    | mkRun t w' (Returned a) =>
        match k a w' with
        | mkRun t' w'' o => mkRun (t ++ t') w'' o
        end
    | mkRun t w' (Exited code) => mkRun t w' (Exited code)
    | mkRun t w' Panicked => mkRun t w' Panicked
    end.

(** os.Exit *)
Definition exit {W A} (code : Z) : Proc W A :=
  fun w => mkRun [] w (Exited code).

Definition panic {W A} : Proc W A :=
  fun w => mkRun [] w Panicked.

(** fmt.Printf; fmt.Println and fmt.Print are the case without arguments. *)
Definition printf {W} (format : string) (args : list value) : Proc W unit :=
  fun w => mkRun [Printf (str format) args] w (Returned tt).

Definition println {W} (text : string) : Proc W unit := printf text [].

Definition call {W T} (C : Collaborators W) (req : Req T) : Proc W T :=
  fun w =>
    let '(w', a) := answer C req w in
    mkRun [Called req] w' (Returned a).

Definition getenv {W} (C : Collaborators W) : Proc W Env :=
  fun w => mkRun [] w (Returned (environ C w)).

(** [for _, x := range l { body(x) }] *)
Fixpoint forEach {W A} (l : list A) (body : A -> Proc W unit)
  : Proc W unit :=
  match l with
  | [] => ret tt
  | x :: rest => bind (body x) (fun _ => forEach rest body)
  end.

End ProcMonad.

Import ProcMonad.

Declare Scope proc_scope.
Delimit Scope proc_scope with proc.
Notation "x <- m ;; k" := (bind m (fun x => k))
  (at level 61, m at next level, right associativity) : proc_scope.
Notation "m ;; k" := (bind m (fun _ => k))
  (at level 61, right associativity) : proc_scope.
Open Scope proc_scope.

(** ** config.GetBDFSConfig *)

Section Config.
Variable W : Type.
Variable C : Collaborators W.

Definition missing_fields_format : gostring :=
  str "config file missing required fields (client_id, client_secret, token_path)".

(** The path of the settings file: BDFS_CONFIG_FILE, or the fixed path
    under the home directory. *)
Definition configFilePath (env : Env) : Proc W (result gostring) :=
  let configFilePath := env (str "BDFS_CONFIG_FILE") in
  if is_empty configFilePath then
    r <- call C UserHomeDir ;;
    match r with
    | Fail err =>
        ret (Fail (Errorf (str "failed to get home directory: %v")
                     [VError err]))
    | Ok homeDir =>
        ret (Ok (Join C [homeDir; str ".local"; str "app"; str "dkci";
                         str "config.toml"]))
    end
  else ret (Ok configFilePath).

Definition GetBDFSConfig : Proc W (result BDFSConfig) :=
  env <- getenv C ;;
  let clientID := env (str "BDFS_CLIENT_ID") in
  let clientSecret := env (str "BDFS_CLIENT_SECRET") in
  let tokenPath := env (str "BDFS_TOKEN_PATH") in
  let defaultCloudDir := env (str "BDFS_DEFAULT_CLOUD_DIR") in
  if negb (is_empty clientID) && negb (is_empty clientSecret)
     && negb (is_empty tokenPath)
  then
    ret (Ok {| ClientID := clientID;
               ClientSecret := clientSecret;
               TokenPath := tokenPath;
               DefaultCloudDir :=
                 if is_empty defaultCloudDir then str "/"
                 else defaultCloudDir |})
  else
    p <- configFilePath env ;;
    match p with
    | Fail err => ret (Fail err)
    | Ok configFilePath =>
        r <- call C (ReadFile configFilePath) ;;
        match r with
        | Fail err =>
            ret (Fail (Errorf (str "failed to read config file %s: %v")
                         [VString configFilePath; VError err]))
        | Ok data =>
            r <- call C (Unmarshal data) ;;
            match r with
            | Fail err =>
                ret (Fail (Errorf (str "failed to parse config file: %v")
                             [VError err]))
            | Ok config =>
                if is_empty (ClientID config)
                   || is_empty (ClientSecret config)
                   || is_empty (TokenPath config)
                then ret (Fail (Errorf missing_fields_format []))
                else
                  ret (Ok {| ClientID := ClientID config;
                             ClientSecret := ClientSecret config;
                             TokenPath := TokenPath config;
                             DefaultCloudDir :=
                               if is_empty (DefaultCloudDir config)
                               then str "/"
                               else DefaultCloudDir config |})
            end
        end
    end.

End Config.

(** ** Package docker *)

Section Docker.
Variable W : Type.
Variable C : Collaborators W.

(** docker.ExportImage *)
Definition ExportImage (imageName destination : gostring) : Proc W unit :=
  r <- call C (ImageInspectWithRaw imageName) ;;
  info <- match r with
          | Fail err =>
              printf "Warning: Could not inspect image %s: %v\n"
                [VString imageName; VError err] ;;
              ret ([], [])
          | Ok imageInspect =>
              ret (Os imageInspect, Architecture imageInspect)
          end ;;
  let '(osInfo, archInfo) := info in
  let tarFileName := ExportImage_tarFileName imageName osInfo archInfo in
  let tarFilePath := Join C [destination; tarFileName] in
  printf "Exporting image %s to %s...\n"
    [VString imageName; VString tarFilePath] ;;
  r <- call C (ImageSave imageName) ;;
  match r with
  | Fail err =>
      printf "[x] Failed to export image %s: %v\n"
        [VString imageName; VError err]
  | Ok _ =>
      r <- call C (Create tarFilePath) ;;
      match r with
      | Fail err =>
          printf "[x] Failed to create output file %s: %v\n"
            [VString tarFilePath; VError err]
      | Ok _ =>
          r <- call C (Copy tarFilePath imageName) ;;
          match r with
          | Fail err =>
              printf "[x] Failed to write image %s to file %s: %v\n"
                [VString imageName; VString tarFilePath; VError err]
          | Ok _ =>
              printf "[√] Successfully exported image %s to %s\n"
                [VString imageName; VString tarFilePath]
          end
      end
  end.

(** docker.ExportImages *)
Definition ExportImages (destination : gostring) : Proc W unit :=
  r <- call C NewClientWithOpts ;;
  match r with
  | Fail err =>
      printf "[x] Failed to create Docker client: %v\n" [VError err] ;;
      exit 1
  | Ok _ =>
  r <- call C ImageList ;;
  match r with
  | Fail err =>
      printf "[x] Failed to list Docker images: %v\n" [VError err] ;;
      exit 1
  | Ok images =>
  if length images =? 0 then
    println "[x] No Docker images found" ;; exit 1
  else
  env <- getenv C ;;
  let imageNames := ExportImages_imageNames env images in
  if length imageNames =? 0 then
    println "[x] No tagged Docker images found" ;; exit 1
  else
  printf "Found %d tagged Docker image(s)\n" [VInt (length imageNames)] ;;
  let selections := image_selections imageNames in
  r <- call C (AskOne (str "Select Docker images to export:") selections) ;;
  match r with
  | Fail err =>
      printf "[x] Failed to get user selection: %v\n" [VError err] ;;
      exit 1
  | Ok selectedImages =>
  let selectedImages := ExportImages_handleAll imageNames selectedImages in
  if length selectedImages =? 0 then
    println "[x] No images selected" ;; exit 1
  else
  printf "Selected images: %v\n" [VStrings selectedImages] ;;
  r <- call C (MkdirAll destination) ;;
  match r with
  | Fail err =>
      printf "[x] Failed to create destination directory %s: %v\n"
        [VString destination; VError err] ;;
      exit 1
  | Ok _ =>
  forEach selectedImages (fun imageName => ExportImage imageName destination)
  end end end end.

(** docker.DeleteImage *)
Definition DeleteImage (imageName : gostring) : Proc W unit :=
  printf "Deleting image %s...\n" [VString imageName] ;;
  r <- call C (ImageRemove imageName false true) ;;
  match r with
  | Fail err =>
      printf "[x] Failed to delete image %s: %v\n"
        [VString imageName; VError err]
  | Ok _ =>
      printf "[√] Successfully deleted image %s\n" [VString imageName]
  end.

(** docker.DeleteImages *)
Definition DeleteImages (grepPattern : gostring) : Proc W unit :=
  r <- call C NewClientWithOpts ;;
  match r with
  | Fail err =>
      printf "[x] Failed to create Docker client: %v\n" [VError err] ;;
      exit 1
  | Ok _ =>
  r <- call C ImageList ;;
  match r with
  | Fail err =>
      printf "[x] Failed to list Docker images: %v\n" [VError err] ;;
      exit 1
  | Ok images =>
  if length images =? 0 then
    println "[x] No Docker images found" ;; exit 1
  else
  let imageNames := DeleteImages_imageNames grepPattern images in
  if length imageNames =? 0 then
    println "[x] No tagged Docker images found" ;; exit 1
  else
  printf "Found %d tagged Docker image(s)\n" [VInt (length imageNames)] ;;
  let selections := image_selections imageNames in
  r <- call C (AskOne (str "Select Docker images to delete:") selections) ;;
  match r with
  | Fail err =>
      printf "[x] Failed to get user selection: %v\n" [VError err] ;;
      exit 1
  | Ok selectedImages =>
  let selectedImages := DeleteImages_handleAll imageNames selectedImages in
  if length selectedImages =? 0 then
    println "[x] No images selected" ;; exit 1
  else
  printf "Selected images: %v\n" [VStrings selectedImages] ;;
  forEach selectedImages DeleteImage
  end end end.

(** [strings.HasSuffix(strings.ToLower(p), ".tar.gz") ||
     strings.HasSuffix(strings.ToLower(p), ".tgz")] *)
Definition is_gzip_name (p : gostring) : bool :=
  HasSuffix (ToLower p) (str ".tar.gz") || HasSuffix (ToLower p) (str ".tgz").

(** docker.getImageInfoFromTar: the archive is opened again, unzipped when
    its name says so, and its headers are read up to "manifest.json" or
    the end ([TarFindManifest] is that loop); any error is returned,
    otherwise the base name of the path. *)
Definition getImageInfoFromTar (tarPath : gostring)
  : Proc W (result gostring) :=
  r <- call C (Open tarPath) ;;
  match r with
  | Fail err => ret (Fail err)
  | Ok _ =>
      z <- (if is_gzip_name tarPath
            then call C (GzipNewReader tarPath)
            else ret (Ok tt)) ;;
      match z with
      | Fail err => ret (Fail err)
      | Ok _ =>
          r <- call C (TarFindManifest tarPath) ;;
          match r with
          | Fail err => ret (Fail err)
          | Ok _ => ret (Ok (Base tarPath))
          end
      end
  end.

(** docker.importFromFile *)
Definition importFromFile (filePath : gostring) : Proc W unit :=
  printf "Importing image from file: %s\n" [VString filePath] ;;
  r <- call C NewClientWithOpts ;;
  match r with
  | Fail err =>
      printf "[x] Failed to create Docker client: %v\n" [VError err] ;;
      exit 1
  | Ok _ =>
  r <- call C (Open filePath) ;;
  match r with
  | Fail err =>
      printf "[x] Failed to open file %s: %v\n"
        [VString filePath; VError err] ;;
      exit 1
  | Ok _ =>
  r <- call C (FileStat filePath) ;;
  match r with
  | Fail err =>
      printf "[x] Failed to get file info: %v\n" [VError err] ;;
      exit 1
  | Ok _ =>
  z <- (if is_gzip_name filePath
        then call C (GzipNewReader filePath)
        else ret (Ok tt)) ;;
  match z with
  | Fail err =>
      printf "[x] Failed to create gzip reader: %v\n" [VError err] ;;
      exit 1
  | Ok _ =>
  r <- call C (ImageLoad filePath (is_gzip_name filePath) true) ;;
  match r with
  | Fail err =>
      printf "[x] Failed to load image from %s: %v\n"
        [VString filePath; VError err] ;;
      exit 1
  | Ok _ =>
  r <- call C (ReadAll filePath) ;;
  match r with
  | Fail err =>
      printf "[x] Failed to read import response: %v\n" [VError err] ;;
      exit 1
  | Ok _ =>
  r <- getImageInfoFromTar filePath ;;
  match r with
  | Fail _ =>
      printf "[√] Successfully imported image from %s\n" [VString filePath]
  | Ok imageInfo =>
      printf "[√] Successfully imported image from %s: %s\n"
        [VString filePath; VString imageInfo]
  end end end end end end end.

(** docker.importFromDirectory *)
Definition importFromDirectory (dirPath grepPattern : gostring)
  : Proc W unit :=
  calls <- call C (Walk dirPath) ;;
  match findTarFilesInDirectory calls grepPattern with
  | inr err =>
      printf "[x] Error finding .tar files: %v\n" [VError (Foreign err)] ;;
      exit 1
  | inl tarFiles =>
  if length tarFiles =? 0 then
    println "[x] No .tar files found in the specified directory" ;; exit 1
  else
  let selectionOptions := file_selectionOptions tarFiles in
  r <- call C (AskOne (str "Select .tar files to import as Docker images:")
                 selectionOptions) ;;
  match r with
  | Fail err =>
      printf "[x] Failed to get user selection: %v\n" [VError err] ;;
      exit 1
  | Ok selectedFiles =>
  match importFromDirectory_handleAll tarFiles selectedFiles with
  | None => panic
  | Some selectedFiles =>
  if length selectedFiles =? 0 then
    println "[x] No files selected for import" ;; exit 1
  else
  let selectedFilePaths := selectedFilePaths tarFiles selectedFiles in
  forEach selectedFilePaths importFromFile
  end end end.

(** docker.ImportImagesFromSource *)
Definition ImportImagesFromSource (source grepPattern : gostring)
  : Proc W unit :=
  r <- call C (Stat source) ;;
  match r with
  | Fail err =>
      printf "[x] Error accessing source: %v\n" [VError err] ;;
      exit 1
  | Ok fileInfo =>
      if IsDir fileInfo
      then importFromDirectory source grepPattern
      else importFromFile source
  end.

End Docker.

(** ** Package cloud *)

Section Cloud.
Variable W : Type.
Variable C : Collaborators W.

Definition tempDir : gostring := str "/tmp/go-dkci".

(** cloud.ExportImageToCloud *)
Definition ExportImageToCloud (imageName cloudPath : gostring)
  : Proc W unit :=
  r <- call C (ImageInspectWithRaw imageName) ;;
  info <- match r with
          | Fail err =>
              printf "Warning: Could not inspect image %s: %v\n"
                [VString imageName; VError err] ;;
              ret ([], [])
          | Ok imageInspect =>
              ret (Os imageInspect, Architecture imageInspect)
          end ;;
  let '(osInfo, archInfo) := info in
  let tarFileName :=
    ExportImageToCloud_tarFileName imageName osInfo archInfo in
  r <- call C (MkdirAll tempDir) ;;
  match r with
  | Fail err =>
      printf "[x] Failed to create temp directory %s: %v\n"
        [VString tempDir; VError err]
  | Ok _ =>
  let tempFilePath := Join C [tempDir; tarFileName] in
  printf "Exporting image %s to temporary file %s...\n"
    [VString imageName; VString tempFilePath] ;;
  r <- call C (ImageSave imageName) ;;
  match r with
  | Fail err =>
      printf "[x] Failed to export image %s: %v\n"
        [VString imageName; VError err]
  | Ok _ =>
  r <- call C (Create tempFilePath) ;;
  match r with
  | Fail err =>
      printf "[x] Failed to create temporary file %s: %v\n"
        [VString tempFilePath; VError err]
  | Ok _ =>
  r <- call C (Copy tempFilePath imageName) ;;
  match r with
  | Fail err =>
      printf "[x] Failed to write image %s to temporary file %s: %v\n"
        [VString imageName; VString tempFilePath; VError err]
  | Ok _ =>
  let remoteFilePath := Join C [cloudPath; tarFileName] in
  printf "Uploading %s to Baidu cloud path %s...\n"
    [VString tempFilePath; VString remoteFilePath] ;;
  r <- call C (UploadFile tempFilePath remoteFilePath) ;;
  match r with
  | Fail err =>
      printf "[x] Failed to upload %s to Baidu cloud: %v\n"
        [VString tempFilePath; VError err] ;;
      call C (Remove tempFilePath) ;;
      ret tt
  | Ok _ =>
  r <- call C (Remove tempFilePath) ;;
  match r with
  | Fail err =>
      printf "Warning: Failed to remove temporary file %s: %v\n"
        [VString tempFilePath; VError err]
  | Ok _ => ret tt
  end ;;
  printf "[√] Successfully exported and uploaded image %s to %s\n"
    [VString imageName; VString remoteFilePath]
  end end end end end.

(** The head of both cloud commands: configuration, then login. *)
Definition login : Proc W unit :=
  r <- GetBDFSConfig C ;;
  match r with
  | Fail err =>
      printf "[x] Error getting BDFS configuration: %v\n" [VError err] ;;
      exit 1
  | Ok configData =>
  r <- call C (Authorize (ClientID configData) (ClientSecret configData)
                 (TokenPath configData)) ;;
  match r with
  | Fail err =>
      printf "[x] Failed to login to Baidu cloud: %v\n" [VError err] ;;
      exit 1
  | Ok _ => println "[√] Successfully logged in to Baidu cloud"
  end end.

(** cloud.ExportImagesToCloud *)
Definition ExportImagesToCloud (cloudPath : gostring) : Proc W unit :=
  login ;;
  r <- call C NewClientWithOpts ;;
  match r with
  | Fail err =>
      printf "[x] Failed to create Docker client: %v\n" [VError err] ;;
      exit 1
  | Ok _ =>
  r <- call C ImageList ;;
  match r with
  | Fail err =>
      printf "[x] Failed to list Docker images: %v\n" [VError err] ;;
      exit 1
  | Ok images =>
  if length images =? 0 then
    println "[x] No Docker images found" ;; exit 1
  else
  env <- getenv C ;;
  let imageNames := ExportImagesToCloud_imageNames env images in
  if length imageNames =? 0 then
    println "[x] No tagged Docker images found" ;; exit 1
  else
  printf "Found %d tagged Docker image(s)\n" [VInt (length imageNames)] ;;
  let selections := image_selections imageNames in
  r <- call C (AskOne (str "Select Docker images to export to cloud:")
                 selections) ;;
  match r with
  | Fail err =>
      printf "[x] Failed to get user selection: %v\n" [VError err] ;;
      exit 1
  | Ok selectedImages =>
  let selectedImages :=
    ExportImagesToCloud_handleAll imageNames selectedImages in
  if length selectedImages =? 0 then
    println "[x] No images selected" ;; exit 1
  else
  printf "Selected images: %v\n" [VStrings selectedImages] ;;
  forEach selectedImages
    (fun imageName => ExportImageToCloud imageName cloudPath)
  end end end.

(** cloud.downloadAndImportFromCloud *)
Definition downloadAndImportFromCloud (cloudFilePath : gostring)
  : Proc W unit :=
  r <- call C (MkdirAll tempDir) ;;
  match r with
  | Fail err =>
      printf "[x] Failed to create temp directory %s: %v\n"
        [VString tempDir; VError err] ;;
      exit 1
  | Ok _ =>
  let localFilePath := Join C [tempDir; Base cloudFilePath] in
  printf "Downloading %s from Baidu cloud to temporary file %s...\n"
    [VString cloudFilePath; VString localFilePath] ;;
  r <- call C (DownloadFile cloudFilePath) ;;
  match r with
  | Fail err =>
      printf "[x] Failed to download %s from Baidu cloud: %v\n"
        [VString cloudFilePath; VError err] ;;
      exit 1
  | Ok _ =>
  r <- call C (Create localFilePath) ;;
  match r with
  | Fail err =>
      printf "[x] Failed to create local file %s: %v\n"
        [VString localFilePath; VError err] ;;
      exit 1
  | Ok _ =>
  r <- call C (Copy localFilePath cloudFilePath) ;;
  match r with
  | Fail err =>
      printf "[x] Failed to write downloaded content to %s: %v\n"
        [VString localFilePath; VError err] ;;
      exit 1
  | Ok _ =>
  ImportImagesFromSource C localFilePath [] ;;
  r <- call C (Remove localFilePath) ;;
  match r with
  | Fail err =>
      printf "Warning: Failed to remove temporary file %s: %v\n"
        [VString localFilePath; VError err]
  | Ok _ => ret tt
  end end end end end.

(** cloud.ImportImagesFromCloud *)
Definition ImportImagesFromCloud (cloudPath grepPattern : gostring)
  : Proc W unit :=
  login ;;
  r <- call C (ListFiles cloudPath) ;;
  match r with
  | Fail _ =>
      r <- call C (GetFileInfoByPath cloudPath) ;;
      match r with
      | Fail err =>
          printf "[x] Error accessing cloud file %s: %v\n"
            [VString cloudPath; VError err] ;;
          exit 1
      | Ok fileInfo =>
          if HasSuffix (ToLower (Path fileInfo)) (str ".tar") ||
             HasSuffix (ToLower (Path fileInfo)) (str ".tar.gz") ||
             HasSuffix (ToLower (Path fileInfo)) (str ".tgz")
          then downloadAndImportFromCloud (Path fileInfo)
          else
            printf "[x] The specified file %s is not a .tar file\n"
              [VString cloudPath] ;;
            exit 1
      end
  | Ok files =>
  let tarFiles := ImportImagesFromCloud_tarFiles files grepPattern in
  if length tarFiles =? 0 then
    println "[x] No .tar files found in the specified cloud directory" ;;
    exit 1
  else
  let selectionOptions := file_selectionOptions (map Path tarFiles) in
  r <- call C (AskOne
                 (str "Select .tar files to download and import as Docker images:")
                 selectionOptions) ;;
  match r with
  | Fail err =>
      printf "[x] Failed to get user selection: %v\n" [VError err] ;;
      exit 1
  | Ok selectedFiles =>
  let selectedFiles :=
    ImportImagesFromCloud_handleAll (map Path tarFiles) selectedFiles in
  if length selectedFiles =? 0 then
    println "[x] No files selected for import" ;; exit 1
  else
  let selectedFilePaths :=
    selectedFilePaths (map Path tarFiles) selectedFiles in
  forEach selectedFilePaths downloadAndImportFromCloud
  end end.

End Cloud.

(** ** Observations on a run *)

Module Observe.

(** A line that reports a failure, and one that reports a success. *)
Definition is_failure (ev : Event) : bool :=
  match ev with
  | Printf format _ => HasPrefix format (str "[x] ")
  | Called _ => false
  end.

Definition is_success (ev : Event) : bool :=
  match ev with
  | Printf format _ => HasPrefix format (str "[√] ")
  | Called _ => false
  end.

Definition reports (t : list Event) : list Event :=
  filter (fun ev => is_failure ev || is_success ev) t.

(** The images the daemon was asked to save, to remove; the files that
    were read for the configuration; the menus that were shown. *)
Definition saves (t : list Event) : list gostring :=
  flat_map (fun ev =>
    match ev with
    | Called (ImageSave imageName) => [imageName]
    | _ => []
    end) t.

Definition removals (t : list Event) : list gostring :=
  flat_map (fun ev =>
    match ev with
    | Called (ImageRemove imageName _ _) => [imageName]
    | _ => []
    end) t.

Definition file_reads (t : list Event) : list gostring :=
  flat_map (fun ev =>
    match ev with
    | Called (ReadFile path) => [path]
    | _ => []
    end) t.

Definition menus (t : list Event) : list (list gostring) :=
  flat_map (fun ev =>
    match ev with
    | Called (AskOne _ options) => [options]
    | _ => []
    end) t.

(** The files whose import was started (the first line of importFromFile). *)
Definition imports_started (t : list Event) : list gostring :=
  flat_map (fun ev =>
    match ev with
    | Printf format [VString filePath] =>
        if eqb format (str "Importing image from file: %s\n")
        then [filePath] else []
    | _ => []
    end) t.

End Observe.

Import Observe.

(** ** A small concrete world

    A stateless outside world described by a few lists, for running the
    program on examples. *)

Module Scenario.

Record scenario := {
  sc_env : list (gostring * gostring);
  sc_images : list ImageSummary;
  sc_picks : list gostring;
  sc_broken : list gostring;
  sc_walk : list WalkCall;
  sc_config_file : result gostring;
  sc_config : result BDFSConfig
}.

Fixpoint lookup (k : gostring) (l : list (gostring * gostring)) : gostring :=
  match l with
  | [] => []
  | (k', v) :: rest => if eqb k k' then v else lookup k rest
  end.

Definition broken (s : scenario) (name : gostring) : result unit :=
  if existsb (eqb name) (sc_broken s)
  then Fail (Foreign (str "broken"))
  else Ok tt.

(** Every call succeeds, except those on a name listed in [sc_broken]. *)
Definition sc_answer (s : scenario) (T : Type) (req : Req T) (w : unit)
  : unit * T :=
  match req in Req T return unit * T with
  | NewClientWithOpts => (w, Ok tt)
  | ImageList => (w, Ok (sc_images s))
  | ImageInspectWithRaw _ =>
      (w, Ok {| Os := str "linux"; Architecture := str "amd64" |})
  | ImageSave imageName => (w, broken s imageName)
  | ImageRemove imageName _ _ => (w, broken s imageName)
  | ImageLoad source _ _ => (w, broken s source)
  | MkdirAll _ => (w, Ok tt)
  | Create _ => (w, Ok tt)
  | Copy _ _ => (w, Ok tt)
  | Stat path => (w, Ok {| Name := Base path; IsDir := false |})
  | Open path => (w, broken s path)
  | FileStat _ => (w, Ok tt)
  | GzipNewReader path => (w, broken s path)
  | ReadAll _ => (w, Ok tt)
  | TarFindManifest _ => (w, Ok tt)
  | Remove _ => (w, Ok tt)
  | Walk _ => (w, sc_walk s)
  | UserHomeDir => (w, Ok (str "/root"))
  | ReadFile _ => (w, sc_config_file s)
  | Unmarshal _ => (w, sc_config s)
  | AskOne _ _ => (w, Ok (sc_picks s))
  | Authorize _ _ _ => (w, Ok tt)
  | ListFiles _ => (w, Ok [])
  | GetFileInfoByPath path => (w, Ok {| Path := path |})
  | UploadFile _ _ => (w, Ok tt)
  | DownloadFile remotePath => (w, broken s remotePath)
  end.

(** filepath.Join *)
Definition sc_join (elems : list gostring) : gostring := JoinPath elems.

Definition world (s : scenario) : Collaborators unit :=
  {| answer := sc_answer s;
     environ := fun _ name => lookup name (sc_env s);
     Join := sc_join |}.

Definition file (path : string) : WalkCall :=
  {| walk_path := str path;
     walk_info := {| Name := Base (str path); IsDir := false |};
     walk_err := None |}.

Definition directory (path : string) : WalkCall :=
  {| walk_path := str path;
     walk_info := {| Name := Base (str path); IsDir := true |};
     walk_err := None |}.

Definition quiet : scenario :=
  {| sc_env := [];
     sc_images := [];
     sc_picks := [];
     sc_broken := [];
     sc_walk := [];
     sc_config_file := Fail (Foreign (str "no such file"));
     sc_config := Fail (Foreign (str "no data")) |}.

End Scenario.

(** ** Vocabulary of the statements *)

Module Vocabulary.

(** The name portion with every '/' replaced by the middle dot. *)
Definition sanitized (name : gostring) : gostring :=
  flat_map (fun c => if byte_eqb c slash then middle_dot else [c]) name.

(** An empty part replaced by its default. *)
Definition or_default (part default : gostring) : gostring :=
  match part with
  | [] => default
  | _ => part
  end.

(** [name] ends, letter case apart, in [ext]: it is some text followed by
    an ending that lowers to [ext]. *)
Definition ends_in_fold (name ext : gostring) : Prop :=
  exists front ending, name = front ++ ending /\ ToLower ending = ext.

Definition tar_name (name : gostring) : Prop :=
  ends_in_fold name (str ".tar") \/
  ends_in_fold name (str ".tar.gz") \/
  ends_in_fold name (str ".tgz").

(** What the export keeps of the inspection of an image: the OS and the
    architecture, both empty when the inspection failed. *)
Definition inspected_platform (r : result ImageInspect)
  : gostring * gostring :=
  match r with
  | Ok imageInspect => (Os imageInspect, Architecture imageInspect)
  | Fail _ => ([], [])
  end.

(** The image references of a daemon listing, in listing order. *)
Definition listed_tags (images : list ImageSummary) : list gostring :=
  flat_map RepoTags images.

(** The test an image reference has to pass to become a candidate. *)
Definition image_candidate (grepPattern tag : gostring) : bool :=
  negb (eqb tag none_tag) && matches_spec tag grepPattern.

(** The test a visited entry of a directory walk has to pass. *)
Definition local_candidate (grepPattern : gostring) (c : WalkCall) : bool :=
  negb (IsDir (walk_info c))
  && has_tar_suffix (ToLower (Name (walk_info c)))
  && matches_spec (baseName (walk_path c)) grepPattern.

(** The error a walk ends with: that of the first call that reports
    one. *)
Fixpoint walk_error (calls : list WalkCall) : option gostring :=
  match calls with
  | [] => None
  | c :: rest =>
      match walk_err c with
      | Some err => Some err
      | None => walk_error rest
      end
  end.

(** The test an entry of a cloud listing has to pass. *)
Definition cloud_candidate (grepPattern : gostring) (f : PanFileInfo)
  : bool :=
  has_tar_suffix (ToLower (Path f))
  && matches_spec (baseName (Path f)) grepPattern.

Section Failures.
Variable W : Type.
Variable C : Collaborators W.

(** In world [w] the import of [filePath] meets a failure to open the
    file, to unzip it, or to load it into the daemon: the calls before
    the failing one are answered with success, in the order
    importFromFile makes them. *)
Inductive import_failure (filePath : gostring) (w : W) : Prop :=
| open_fails (w1 w2 : W) (err : error) :
    answer C NewClientWithOpts w = (w1, Ok tt) ->
    answer C (Open filePath) w1 = (w2, Fail err) ->
    import_failure filePath w
| gunzip_fails (w1 w2 w3 w4 : W) (err : error) :
    answer C NewClientWithOpts w = (w1, Ok tt) ->
    answer C (Open filePath) w1 = (w2, Ok tt) ->
    answer C (FileStat filePath) w2 = (w3, Ok tt) ->
    is_gzip_name filePath = true ->
    answer C (GzipNewReader filePath) w3 = (w4, Fail err) ->
    import_failure filePath w
| load_fails (w1 w2 w3 w4 w5 : W) (err : error) :
    answer C NewClientWithOpts w = (w1, Ok tt) ->
    answer C (Open filePath) w1 = (w2, Ok tt) ->
    answer C (FileStat filePath) w2 = (w3, Ok tt) ->
    (if is_gzip_name filePath
     then answer C (GzipNewReader filePath) w3 = (w4, Ok tt)
     else w4 = w3) ->
    answer C (ImageLoad filePath (is_gzip_name filePath) true) w4
    = (w5, Fail err) ->
    import_failure filePath w.

(** In world [w] the cloud file is downloaded to the temporary
    directory, and the import of the downloaded file meets such a
    failure. *)
Inductive cloud_import_failure (cloudFilePath : gostring) (w : W)
  : Prop :=
| downloaded_import_fails (w1 w2 w3 w4 w5 : W) (info : FileInfo) :
    answer C (MkdirAll tempDir) w = (w1, Ok tt) ->
    answer C (DownloadFile cloudFilePath) w1 = (w2, Ok tt) ->
    answer C (Create (Join C [tempDir; Base cloudFilePath])) w2
    = (w3, Ok tt) ->
    answer C (Copy (Join C [tempDir; Base cloudFilePath]) cloudFilePath)
      w3
    = (w4, Ok tt) ->
    answer C (Stat (Join C [tempDir; Base cloudFilePath])) w4
    = (w5, Ok info) ->
    IsDir info = false ->
    import_failure (Join C [tempDir; Base cloudFilePath]) w5 ->
    cloud_import_failure cloudFilePath w.

End Failures.

End Vocabulary.

Import Vocabulary.

(** ** Further observations on a run *)

Module Observe2.

(** The temporary or cloud files the program asked to remove, to upload,
    to download, to create; the archives it asked the daemon to load; the
    logins; the removals it forced. *)
Definition removes (t : list Event) : list gostring :=
  flat_map (fun ev =>
    match ev with
    | Called (Remove path) => [path]
    | _ => []
    end) t.

Definition uploads (t : list Event) : list gostring :=
  flat_map (fun ev =>
    match ev with
    | Called (UploadFile localPath _) => [localPath]
    | _ => []
    end) t.

Definition downloads (t : list Event) : list gostring :=
  flat_map (fun ev =>
    match ev with
    | Called (DownloadFile remotePath) => [remotePath]
    | _ => []
    end) t.

Definition creates (t : list Event) : list gostring :=
  flat_map (fun ev =>
    match ev with
    | Called (Create path) => [path]
    | _ => []
    end) t.

Definition loads (t : list Event) : list gostring :=
  flat_map (fun ev =>
    match ev with
    | Called (ImageLoad source _ _) => [source]
    | _ => []
    end) t.

Definition logins (t : list Event) : list gostring :=
  flat_map (fun ev =>
    match ev with
    | Called (Authorize clientID _ _) => [clientID]
    | _ => []
    end) t.

Definition listings (t : list Event) : nat :=
  length (filter (fun ev =>
    match ev with
    | Called ImageList => true
    | _ => false
    end) t).

Definition forced_removals (t : list Event) : list gostring :=
  flat_map (fun ev =>
    match ev with
    | Called (ImageRemove imageName force pruneChildren) =>
        if force || negb pruneChildren then [imageName] else []
    | _ => []
    end) t.

Definition home_lookups (t : list Event) : nat :=
  length (filter (fun ev =>
    match ev with
    | Called UserHomeDir => true
    | _ => false
    end) t).

Definition parses (t : list Event) : list gostring :=
  flat_map (fun ev =>
    match ev with
    | Called (Unmarshal data) => [data]
    | _ => []
    end) t.

Definition inspections (t : list Event) : list gostring :=
  flat_map (fun ev =>
    match ev with
    | Called (ImageInspectWithRaw imageName) => [imageName]
    | _ => []
    end) t.

Definition failures (t : list Event) : list Event := filter is_failure t.
Definition successes (t : list Event) : list Event := filter is_success t.

(** [l] without its elements from position [n] on is what a loop that
    stopped at turn [n] has gone through. *)
Definition is_prefix (A : Type) (p l : list A) : Prop :=
  exists rest, l = p ++ rest.

End Observe2.

Import Observe2.

(** A text without colon. *)
Definition colon_free (s : gostring) : Prop := ~ In ":"%char s.

(** The file name of an export: a stem without '/' when the tag and the
    platform hold none, followed by ".tar". *)
Definition stem (name tag osInfo archInfo : gostring) : gostring :=
  sanitized name ++ str "_"
  ++ or_default tag (str "latest") ++ str "_"
  ++ or_default osInfo (str "unknown") ++ str "_"
  ++ or_default archInfo (str "unknown").


(** ** docker.CleanCache

    The cache directory as CleanCache sees it: whether os.Stat reports it
    missing, the names os.ReadDir lists, the word fmt.Scanln stores in
    [response], and os.RemoveAll, which changes the state. *)

Record CacheFS (F : Type) := {
  stat_not_exist : F -> gostring -> bool;
  ReadDir : F -> gostring -> result (list gostring);
  Scanln : F -> gostring;
  RemoveAll : gostring -> F -> F * result unit;
  cache_Join : list gostring -> gostring
}.

Section CleanCacheModel.
Variable F : Type.
Variable D : CacheFS F.

Definition cacheDir : gostring := str "/tmp/go-dkci".

(** "List and count files to be deleted" *)
Fixpoint list_files (files filesToDelete : list gostring)
  : Proc F (list gostring) :=
  match files with
  | [] => ret filesToDelete
  | file :: rest =>
      let filePath := cache_Join D [cacheDir; file] in
      printf "- %s\n" [VString filePath] ;;
      list_files rest (filesToDelete ++ [filePath])
  end.

(** "Delete all files" *)
Fixpoint delete_files (filesToDelete : list gostring) (deletedCount : nat)
  : Proc F nat :=
  match filesToDelete with
  | [] => ret deletedCount
  | filePath :: rest =>
      r <- (fun f => let '(f', r) := RemoveAll D filePath f in
                     mkRun [] f' (Returned r)) ;;
      match r with
      | Fail err =>
          printf "[x] Failed to delete %s: %v\n"
            [VString filePath; VError err] ;;
          delete_files rest deletedCount
      | Ok _ => delete_files rest (deletedCount + 1)
      end
  end.

Definition CleanCache : Proc F unit :=
  fun f =>
    (if stat_not_exist D f cacheDir then
       printf "[x] Cache directory does not exist: %s\n" [VString cacheDir] ;;
       exit 1
     else
       match ReadDir D f cacheDir with
       | Fail err =>
           printf "[x] Failed to read cache directory %s: %v\n"
             [VString cacheDir; VError err] ;;
           exit 1
       | Ok files =>
           if length files =? 0 then
             printf "No files found in cache directory: %s\n"
               [VString cacheDir]
           else
             filesToDelete <- list_files files [] ;;
             printf "\nFound %d file(s) in cache directory. Are you sure you want to delete all?\n"
               [VInt (length filesToDelete)] ;;
             printf "Type 'yes' to confirm deletion: " [] ;;
             let response := Scanln D f in
             let confirmed := eqb response (str "yes") in
             if negb confirmed then
               println "[x] Cache cleanup cancelled by user"
             else
               deletedCount <- delete_files filesToDelete 0 ;;
               printf "[√] Successfully cleaned cache directory. Deleted %d file(s)\n"
                 [VInt deletedCount]
       end) f.

(** What the removals leave: the state after os.RemoveAll was called on
    every path in turn, and how many of the calls succeeded. *)
Fixpoint remove_each (paths : list gostring) (f : F) : F * nat :=
  match paths with
  | [] => (f, 0)
  | filePath :: rest =>
      let '(f', r) := RemoveAll D filePath f in
      let '(f'', n) := remove_each rest f' in
      (f'', match r with Ok _ => 1 + n | Fail _ => n end)
  end.

(** The paths CleanCache lists for the names of a directory. *)
Definition cache_paths (files : list gostring) : list gostring :=
  map (fun file => cache_Join D [cacheDir; file]) files.

End CleanCacheModel.

(** ** The dispatcher (main), commands export and import

    What main does for "export" and for "import"; [args] is os.Args[2:].
    The arguments are parsed by pflag, which is not part of the program:
    [Parse] stands for FlagSet.Parse of the command's flag set under
    ExitOnError.  Either it returns, and the three flag variables of the
    command hold the values it gives, or it ends the process; what it
    prints goes to standard error and is no event of the run. *)

Section Dispatch.
Variable W : Type.
Variable C : Collaborators W.

(** os.Setenv, as the calls that follow see it. *)
Definition Setenv (name value : gostring) : Collaborators W :=
  {| answer := answer C;
     environ := fun w key =>
       if eqb key name then value else environ C w key;
     Join := Join C |}.

(** [for _, arg := range args { if arg == "-h" || arg == "--help" {
    showHelp = true; break } }] *)
Fixpoint showHelp (args : list gostring) : bool :=
  match args with
  | [] => false
  | arg :: rest =>
      if eqb arg (str "-h") || eqb arg (str "--help") then true
      else showHelp rest
  end.

(** [for _, arg := range args { if HasPrefix(arg, short) ||
    HasPrefix(arg, long) { has = true } }] *)
Definition has_flag (short long : string) (args : list gostring) : bool :=
  fold_left (fun has arg =>
    if HasPrefix arg (str short) || HasPrefix arg (str long)
    then true else has) args false.

End Dispatch.

Section DispatchCommands.
Variable W : Type.
Variable C : Collaborators W.
Variable Parse : list gostring -> Outcome (gostring * gostring * gostring).

(** exportCmd.Parse(os.Args[2:]), importCmd.Parse(os.Args[2:]) *)
Definition parse (args : list gostring)
  : Proc W (gostring * gostring * gostring) :=
  fun w => mkRun [] w (Parse args).

Definition store_pattern (grepPattern : gostring) : Collaborators W :=
  if negb (is_empty grepPattern)
  then Setenv C (str "DKCI_GREP_PATTERN") grepPattern
  else C.

(** case "export" *)
Definition main_export (args : list gostring) : Proc W unit :=
  if showHelp args then
    parse args ;; ret tt
  else
  let hasDFlag := has_flag "-d" "--destination" args in
  let hasCFlag := has_flag "-c" "--cloud" args in
  flags <- parse args ;;
  let '(destination, cloudPath, grepPattern) := flags in
  let C := store_pattern grepPattern in
  if hasDFlag && negb (is_empty cloudPath) then
    println "[x] Error: -d and -c flags are mutually exclusive" ;; exit 1
  else
  env <- getenv C ;;
  let bdfsConfigAvailable :=
    negb (is_empty (env (str "BDFS_CONFIG_FILE")))
    || (negb (is_empty (env (str "BDFS_CLIENT_ID")))
        && negb (is_empty (env (str "BDFS_CLIENT_SECRET")))
        && negb (is_empty (env (str "BDFS_TOKEN_PATH")))) in
  if negb (is_empty cloudPath) then ExportImagesToCloud C cloudPath
  else if is_empty cloudPath && hasCFlag then
    r <- GetBDFSConfig C ;;
    match r with
    | Fail err =>
        printf "[x] Error getting BDFS configuration: %v\n" [VError err] ;;
        exit 1
    | Ok configData =>
        let defaultPath := DefaultCloudDir configData in
        let defaultPath :=
          if is_empty defaultPath then str "/" else defaultPath in
        ExportImagesToCloud C defaultPath
    end
  else if is_empty cloudPath && bdfsConfigAvailable then
    r <- GetBDFSConfig C ;;
    match r with
    | Fail err =>
        printf "[x] Error getting BDFS configuration: %v\n" [VError err] ;;
        exit 1
    | Ok configData => ExportImagesToCloud C (DefaultCloudDir configData)
    end
  else ExportImages C destination.

(** case "import" *)
Definition main_import (args : list gostring) : Proc W unit :=
  if showHelp args then
    parse args ;; ret tt
  else
  let hasSFlag := has_flag "-s" "--source" args in
  let hasCFlag := has_flag "-c" "--cloud" args in
  flags <- parse args ;;
  let '(source, cloudImportPath, grepPattern) := flags in
  let C := store_pattern grepPattern in
  if hasSFlag && negb (is_empty cloudImportPath) then
    println "[x] Error: -s and -c flags are mutually exclusive" ;; exit 1
  else
  if negb (is_empty source) then ImportImagesFromSource C source grepPattern
  else if negb (is_empty cloudImportPath) then
    ImportImagesFromCloud C cloudImportPath grepPattern
  else if is_empty cloudImportPath && hasCFlag then
    r <- GetBDFSConfig C ;;
    match r with
    | Fail err =>
        printf "[x] Error getting BDFS configuration: %v\n" [VError err] ;;
        exit 1
    | Ok configData =>
        let defaultPath := DefaultCloudDir configData in
        let defaultPath :=
          if is_empty defaultPath then str "/" else defaultPath in
        ImportImagesFromCloud C defaultPath grepPattern
    end
  else
    println "[x] Error: either -s/--source or -c/--cloud flag is required for import command" ;;
    exit 1.

End DispatchCommands.

(** ** More concrete worlds *)

Module Cases.
Import Scenario.

(** The quiet world with some environment variables. *)
Definition with_env (env : list (gostring * gostring)) : scenario :=
  {| sc_env := env;
     sc_images := [];
     sc_picks := [];
     sc_broken := [];
     sc_walk := [];
     sc_config_file := Fail (Foreign (str "no such file"));
     sc_config := Fail (Foreign (str "no data")) |}.

(** A world with a settings file and what it parses to. *)
Definition with_config (env : list (gostring * gostring))
  (file : result gostring) (parsed : result BDFSConfig) : scenario :=
  {| sc_env := env;
     sc_images := [];
     sc_picks := [];
     sc_broken := [];
     sc_walk := [];
     sc_config_file := file;
     sc_config := parsed |}.

(** A world with a directory to walk and an answer to the menu. *)
Definition with_walk (walk : list WalkCall) (picks broken : list gostring)
  : scenario :=
  {| sc_env := [];
     sc_images := [];
     sc_picks := picks;
     sc_broken := broken;
     sc_walk := walk;
     sc_config_file := Fail (Foreign (str "no such file"));
     sc_config := Fail (Foreign (str "no data")) |}.

(** A world with images in the daemon. *)
Definition with_images (images : list ImageSummary)
  (picks broken : list gostring) : scenario :=
  {| sc_env := [];
     sc_images := images;
     sc_picks := picks;
     sc_broken := broken;
     sc_walk := [];
     sc_config_file := Fail (Foreign (str "no such file"));
     sc_config := Fail (Foreign (str "no data")) |}.

(** A world whose cloud paths cannot be listed: they are single files. *)
Definition single_files (s : scenario) : Collaborators unit :=
  {| answer := fun T (req : Req T) (w : unit) =>
       match req in Req T return unit * T with
       | ListFiles _ => (w, Fail (Foreign (str "not a directory")))
       | other => sc_answer s other w
       end;
     environ := fun _ name => lookup name (sc_env s);
     Join := sc_join |}.

(** A world in which no file can be created. *)
Definition read_only (s : scenario) : Collaborators unit :=
  {| answer := fun T (req : Req T) (w : unit) =>
       match req in Req T return unit * T with
       | Create _ => (w, Fail (Foreign (str "read-only file system")))
       | other => sc_answer s other w
       end;
     environ := fun _ name => lookup name (sc_env s);
     Join := sc_join |}.

(** A pflag that returns with these values of the flag variables. *)
Definition parsed (local cloud pattern : gostring) (args : list gostring)
  : Outcome (gostring * gostring * gostring) :=
  Returned (local, cloud, pattern).

(** A world whose archives cannot be read again after the load. *)
Definition unreadable_archive (s : scenario) : Collaborators unit :=
  {| answer := fun T (req : Req T) (w : unit) =>
       match req in Req T return unit * T with
       | TarFindManifest _ => (w, Fail (Foreign (str "unexpected EOF")))
       | other => sc_answer s other w
       end;
     environ := fun _ name => lookup name (sc_env s);
     Join := sc_join |}.

(** A cache directory: its state is the list of the names in it; the
    removal of a path listed in [locked] fails. *)
Definition cache (response : gostring) (locked : list gostring)
  : CacheFS (list gostring) :=
  {| stat_not_exist := fun _ _ => false;
     ReadDir := fun names _ => Ok names;
     Scanln := fun _ => response;
     RemoveAll := fun path names =>
       if existsb (eqb path) locked
       then (names, Fail (Foreign (str "permission denied")))
       else (filter (fun name =>
                       negb (eqb (sc_join [cacheDir; name]) path)) names,
             Ok tt);
     cache_Join := sc_join |}.

(** A world whose cloud directory lists [files]. *)
Definition listing (files : list PanFileInfo) (s : scenario)
  : Collaborators unit :=
  {| answer := fun T (req : Req T) (w : unit) =>
       match req in Req T return unit * T with
       | ListFiles _ => (w, Ok files)
       | other => sc_answer s other w
       end;
     environ := fun _ name => lookup name (sc_env s);
     Join := sc_join |}.

(** A machine without cache directory. *)
Definition no_cache : CacheFS unit :=
  {| stat_not_exist := fun _ _ => true;
     ReadDir := fun _ _ => Fail (Foreign (str "no such directory"));
     Scanln := fun _ => [];
     RemoveAll := fun _ f => (f, Ok tt);
     cache_Join := sc_join |}.

(** The three BDFS variables, set. *)
Definition bdfs_env : list (gostring * gostring) :=
  [(str "BDFS_CLIENT_ID", str "env-id");
   (str "BDFS_CLIENT_SECRET", str "env-secret");
   (str "BDFS_TOKEN_PATH", str "/env/token.json")].

End Cases.

(** ** Tactics for runs

    [run_unfold] exposes the next call of a process, [run_call] splits on
    its answer, [run_if] on a test. *)

Ltac run_unfold :=
  cbv beta iota zeta
    delta [bind call printf println ret exit panic getenv
           trace final outcome app].

Ltac run_call :=
  match goal with
  | |- context [answer ?C ?req ?w] =>
      let w' := fresh "w" in
      let r := fresh "r" in
      let E := fresh "E" in
      destruct (answer C req w) as [w' r] eqn:E;
      try (destruct r as [?|?]); run_unfold
  end.

Ltac run_calls := run_unfold; repeat run_call.

(** [run_unfold] without unfolding the concatenation of traces. *)
Ltac run_step :=
  cbv beta iota zeta
    delta [bind call printf println ret exit panic getenv
           trace final outcome].

Ltac run_if :=
  match goal with
  | |- context [if ?b then _ else _] => destruct b eqn:?
  end; run_unfold.

Ltac in_trace := simpl; repeat (try (left; reflexivity); right).

(** * Properties *)

(** ** Strings *)

Section StringFacts.

Lemma byte_eqb_eq (a b : ascii) : byte_eqb a b = true <-> a = b.
Proof. unfold byte_eqb. apply Ascii.eqb_eq. Qed.

Lemma eqb_eq (a b : gostring) : eqb a b = true <-> a = b.
Proof.
  revert b. induction a as [|x a IH]; intros [|y b]; simpl;
    try (split; [discriminate | congruence]); try tauto.
  rewrite andb_true_iff, byte_eqb_eq, IH.
  split; [intros [-> ->]; reflexivity | intros H; inversion H; auto].
Qed.

Lemma eqb_refl (a : gostring) : eqb a a = true.
Proof. apply eqb_eq. reflexivity. Qed.

Lemma eqb_neq (a b : gostring) : eqb a b = false <-> a <> b.
Proof.
  rewrite <- eqb_eq. destruct (eqb a b); split; congruence.
Qed.

Lemma is_empty_nil (s : gostring) : is_empty s = true <-> s = [].
Proof. destruct s; simpl; split; congruence. Qed.

Lemma HasPrefix_nil (s : gostring) : HasPrefix s [] = true.
Proof. destruct s; reflexivity. Qed.

Lemma Contains_nil (s : gostring) : Contains s [] = true.
Proof. destruct s; reflexivity. Qed.

(** The branch on the pattern, as the loops write it, is Contract B, and
    Contract B is plain containment. *)
Lemma matches_spec_Contains (s pat : gostring) :
  matches_spec s pat = Contains s pat.
Proof. destruct pat; simpl; [symmetry; apply Contains_nil | reflexivity]. Qed.

Lemma pattern_branch (s pat : gostring) :
  (if negb (is_empty pat) then Contains s pat else true) = matches_spec s pat.
Proof. destruct pat; reflexivity. Qed.

Lemma HasPrefix_app (s p : gostring) :
  HasPrefix s p = true <-> exists rest, s = p ++ rest.
Proof.
  revert s. induction p as [|c p IH]; intros s.
  - rewrite HasPrefix_nil. split; [intros _; exists s; reflexivity | reflexivity].
  - destruct s as [|d s]; simpl.
    + split; [discriminate | intros [r H]; discriminate].
    + rewrite andb_true_iff, byte_eqb_eq, IH. split.
      * intros [-> [r ->]]. eauto.
      * intros [r H]. inversion H; subst. eauto.
Qed.

Lemma HasSuffix_app (s suffix : gostring) :
  HasSuffix s suffix = true <-> exists front, s = front ++ suffix.
Proof.
  unfold HasSuffix. rewrite andb_true_iff, Nat.leb_le, eqb_eq. split.
  - intros [Hlen Heq].
    exists (firstn (length s - length suffix) s).
    pose proof (firstn_skipn (length s - length suffix) s) as H.
    rewrite Heq in H. symmetry. exact H.
  - intros [front ->]. rewrite length_app. split; [lia|].
    replace (length front + length suffix - length suffix)
      with (length front + 0) by lia.
    rewrite skipn_app, Nat.add_0_r, skipn_all.
    replace (length front - length front) with 0 by lia. reflexivity.
Qed.

Lemma replace_single (c : ascii) (new s : gostring) :
  ReplaceAll s [c] new =
  flat_map (fun x => if byte_eqb x c then new else [x]) s.
Proof.
  unfold ReplaceAll. induction s as [|x s IH]; simpl; [reflexivity|].
  rewrite HasPrefix_nil, andb_true_r.
  destruct (byte_eqb x c); simpl; rewrite IH; reflexivity.
Qed.

(** A loop that appends the elements passing a test is a filter. *)
Lemma fold_left_filter (A : Type) (keep : A -> bool)
  (body : list A -> A -> list A) :
  (forall acc x, body acc x = if keep x then acc ++ [x] else acc) ->
  forall l acc, fold_left body l acc = acc ++ filter keep l.
Proof.
  intros Hbody. induction l as [|x l IH]; intros acc; simpl.
  - rewrite app_nil_r. reflexivity.
  - rewrite IH, Hbody. destruct (keep x); simpl;
      [rewrite <- app_assoc|]; reflexivity.
Qed.

Lemma Join3 (a b c sep : gostring) :
  GoStrings.Join [a; b; c] sep = a ++ sep ++ b ++ sep ++ c.
Proof. reflexivity. Qed.

End StringFacts.

(** ** File names *)

Section NamingFacts.

Lemma sanitize_is_sanitized (name : gostring) :
  ReplaceAll name (str "/") middle_dot = sanitized name.
Proof. apply replace_single. Qed.

Lemma sanitized_no_slash (name : gostring) : ~ In slash (sanitized name).
Proof.
  unfold sanitized. rewrite in_flat_map. intros [c [_ Hc]].
  destruct (byte_eqb c slash) eqn:E.
  - simpl in Hc. destruct Hc as [H|[H|[]]]; discriminate H.
  - destruct Hc as [H|[]]. subst c.
    rewrite (proj2 (byte_eqb_eq slash slash) eq_refl) in E. discriminate.
Qed.

Lemma default_branch (part default : gostring) :
  (if negb (is_empty part) then [part] else [default])
  = [or_default part default].
Proof. destruct part; reflexivity. Qed.

Lemma tarFileName_eq (name tag osInfo archInfo : gostring) :
  tarFileName name tag osInfo archInfo =
    sanitized name ++ str "_"
    ++ or_default tag (str "latest") ++ str "_"
    ++ or_default osInfo (str "unknown") ++ str "_"
    ++ or_default archInfo (str "unknown") ++ str ".tar".
Proof.
  unfold tarFileName. rewrite sanitize_is_sanitized.
  destruct tag, osInfo, archInfo; cbv [is_empty negb or_default];
    cbn [app]; rewrite Join3; repeat rewrite <- app_assoc; reflexivity.
Qed.

Lemma or_default_no_slash (part default : gostring) :
  ~ In slash part -> ~ In slash default ->
  ~ In slash (or_default part default).
Proof. destruct part; simpl; tauto. Qed.

(** When the tag and the platform fields hold no '/', neither does the
    file name. *)
Lemma tarFileName_no_slash (name tag osInfo archInfo : gostring) :
  ~ In slash tag -> ~ In slash osInfo -> ~ In slash archInfo ->
  ~ In slash (tarFileName name tag osInfo archInfo).
Proof.
  intros Ht Ho Ha. rewrite tarFileName_eq.
  assert (Hl : ~ In slash (str "latest"))
    by (vm_compute; intuition discriminate).
  assert (Hk : ~ In slash (str "unknown"))
    by (vm_compute; intuition discriminate).
  assert (Hu : ~ In slash (str "_"))
    by (vm_compute; intuition discriminate).
  assert (Hx : ~ In slash (str ".tar"))
    by (vm_compute; intuition discriminate).
  pose proof (sanitized_no_slash name) as Hn.
  pose proof (or_default_no_slash _ _ Ht Hl).
  pose proof (or_default_no_slash _ _ Ho Hk).
  pose proof (or_default_no_slash _ _ Ha Hk).
  repeat rewrite in_app_iff. tauto.
Qed.

(** C7.  The export file name is the sanitised name portion, the tag, the
    operating system and the architecture, joined by "_" and followed by
    ".tar": every '/' of the name portion becomes the middle dot U+00B7
    and no '/' of it is left, an empty tag becomes "latest", an empty
    operating system or architecture becomes "unknown"; the local and the
    cloud export compute the same name; and the name of "my/app" without
    tag and platform is "my·app_latest_unknown_unknown.tar". *)
Theorem tarFileName_format :
  (forall name tag osInfo archInfo,
      tarFileName name tag osInfo archInfo =
        sanitized name ++ str "_"
        ++ or_default tag (str "latest") ++ str "_"
        ++ or_default osInfo (str "unknown") ++ str "_"
        ++ or_default archInfo (str "unknown") ++ str ".tar")
  /\ (forall name, ReplaceAll name (str "/") middle_dot = sanitized name
                   /\ ~ In slash (sanitized name))
  /\ middle_dot = str "·"
  /\ (forall imageName osInfo archInfo,
         ExportImageToCloud_tarFileName imageName osInfo archInfo
         = ExportImage_tarFileName imageName osInfo archInfo)
  /\ tarFileName (str "my/app") [] [] []
     = str "my·app_latest_unknown_unknown.tar"
  /\ ExportImage_tarFileName (str "my/app") [] []
     = str "my·app_latest_unknown_unknown.tar"
  /\ ExportImage_tarFileName (str "nginx:latest") (str "linux") (str "amd64")
     = str "nginx_latest_linux_amd64.tar".
Proof.
  split; [exact tarFileName_eq|].
  split; [intros name; split;
          [apply sanitize_is_sanitized | apply sanitized_no_slash]|].
  repeat split; reflexivity.
Qed.

(** C2.  The reference "localhost:5000/app:v1" contains '/', and so does
    the file name both exports compute for it: the split on ":" takes
    "localhost" for the name and "5000/app" for the tag, and only the name
    is sanitised. *)
Theorem tarFileName_registry_port_keeps_slash :
  In slash (str "localhost:5000/app:v1")
  /\ ExportImage_tarFileName (str "localhost:5000/app:v1")
       (str "linux") (str "amd64")
     = str "localhost_5000/app_linux_amd64.tar"
  /\ ExportImageToCloud_tarFileName (str "localhost:5000/app:v1")
       (str "linux") (str "amd64")
     = str "localhost_5000/app_linux_amd64.tar"
  /\ In slash (ExportImage_tarFileName (str "localhost:5000/app:v1")
                 (str "linux") (str "amd64")).
Proof.
  repeat split; try reflexivity; vm_compute; tauto.
Qed.

End NamingFacts.

(** ** Candidate lists *)

Section CandidateFacts.

(** The two nested loops over the listing keep, in order, the references
    that pass the test of the loop body. *)
Lemma collect_filter (keep : gostring -> bool)
  (body : list gostring -> gostring -> list gostring) :
  (forall acc tag, body acc tag = if keep tag then acc ++ [tag] else acc) ->
  forall images acc,
    fold_left (fun acc img => fold_left body (RepoTags img) acc) images acc
    = acc ++ filter keep (listed_tags images).
Proof.
  intros Hbody.
  pose proof (fold_left_filter keep body Hbody) as Hinner.
  induction images as [|img images IH]; intros acc; simpl.
  - rewrite app_nil_r. reflexivity.
  - rewrite IH, Hinner. unfold listed_tags. simpl.
    rewrite filter_app, app_assoc. reflexivity.
Qed.

Lemma image_body (pat : gostring) (acc : list gostring) (tag : gostring) :
  (if negb (eqb tag none_tag) then
     if negb (is_empty pat) then
       if Contains tag pat then acc ++ [tag] else acc
     else acc ++ [tag]
   else acc)
  = if image_candidate pat tag then acc ++ [tag] else acc.
Proof.
  unfold image_candidate. rewrite <- pattern_branch.
  destruct (eqb tag none_tag), (is_empty pat), (Contains tag pat);
    reflexivity.
Qed.

Lemma ExportImages_imageNames_filter (env : Env) images :
  ExportImages_imageNames env images
  = filter (image_candidate (env (str "DKCI_GREP_PATTERN")))
      (listed_tags images).
Proof.
  unfold ExportImages_imageNames.
  rewrite (collect_filter (image_candidate (env (str "DKCI_GREP_PATTERN")))).
  - reflexivity.
  - intros. apply image_body.
Qed.

Lemma DeleteImages_imageNames_filter (pat : gostring) images :
  DeleteImages_imageNames pat images
  = filter (image_candidate pat) (listed_tags images).
Proof.
  unfold DeleteImages_imageNames.
  rewrite (collect_filter (image_candidate pat)).
  - reflexivity.
  - intros. apply image_body.
Qed.

Lemma ExportImagesToCloud_imageNames_filter (env : Env) images :
  ExportImagesToCloud_imageNames env images
  = filter (image_candidate (env (str "DKCI_GREP_PATTERN")))
      (listed_tags images).
Proof.
  unfold ExportImagesToCloud_imageNames.
  rewrite (collect_filter (image_candidate (env (str "DKCI_GREP_PATTERN")))).
  - reflexivity.
  - intros. apply image_body.
Qed.

Lemma candidates_exclude_none (pat : gostring) (tags : list gostring) :
  ~ In none_tag (filter (image_candidate pat) tags).
Proof.
  rewrite filter_In. intros [_ H]. unfold image_candidate in H.
  rewrite eqb_refl in H. discriminate.
Qed.

Lemma selections_exclude_none (names : list gostring) :
  ~ In none_tag names -> ~ In none_tag (image_selections names).
Proof.
  intros H. unfold image_selections.
  destruct (1 <? length names); [|exact H].
  simpl. intros [E|E]; [discriminate E | tauto].
Qed.

End CandidateFacts.

(** ** The "All" entry *)

Section AllFacts.

Lemma is_All_All : is_All [All] = true.
Proof. reflexivity. Qed.

Lemma ExportImages_handleAll_All (imageNames : list gostring) :
  ExportImages_handleAll imageNames [All] = imageNames.
Proof. reflexivity. Qed.

Lemma DeleteImages_handleAll_All (imageNames : list gostring) :
  DeleteImages_handleAll imageNames [All] = imageNames.
Proof. reflexivity. Qed.

Lemma ExportImagesToCloud_handleAll_All (imageNames : list gostring) :
  ExportImagesToCloud_handleAll imageNames [All] = imageNames.
Proof. reflexivity. Qed.

Lemma append_bases (tarFiles : list gostring) (acc : list gostring) :
  fold_left (fun selectedFiles file => selectedFiles ++ [Base file])
    tarFiles acc
  = acc ++ map Base tarFiles.
Proof.
  revert acc. induction tarFiles as [|f l IH]; intros acc; simpl.
  - rewrite app_nil_r. reflexivity.
  - rewrite IH, <- app_assoc. reflexivity.
Qed.

(** The cloud import replaces "All" by the base names of all tar files. *)
Lemma ImportImagesFromCloud_handleAll_All (tarFiles : list gostring) :
  ImportImagesFromCloud_handleAll tarFiles [All] = map Base tarFiles.
Proof.
  unfold ImportImagesFromCloud_handleAll. rewrite is_All_All.
  apply append_bases.
Qed.

Lemma last_cons_default (A : Type) (a : A) (l : list A) (d d' : A) :
  last (a :: l) d = last (a :: l) d'.
Proof.
  revert a. induction l as [|b l IH]; intros a; [reflexivity|].
  change (last (b :: l) d = last (b :: l) d'). apply IH.
Qed.

Lemma replace_first_loop (tarFiles : list gostring) (x : gostring) :
  fold_left (fun selectedFiles file =>
    match selectedFiles with
    | None => None
    | Some selectedFiles =>
        match slice_from_1 selectedFiles with
        | None => None
        | Some rest => Some (rest ++ [Base file])
        end
    end) tarFiles (Some [x])
  = Some [last (map Base tarFiles) x].
Proof.
  revert x. induction tarFiles as [|f l IH]; intros x; [reflexivity|].
  cbn [fold_left slice_from_1 app]. rewrite IH. simpl.
  destruct (map Base l); [reflexivity|].
  rewrite (last_cons_default _ _ (Base f) x). reflexivity.
Qed.

(** The directory import leaves one name in the selection, the base name
    of the last tar file: each turn of its loop drops the element the
    turn before had put in. *)
Lemma importFromDirectory_handleAll_All (tarFiles : list gostring) :
  importFromDirectory_handleAll tarFiles [All]
  = Some [last (map Base tarFiles) All].
Proof.
  unfold importFromDirectory_handleAll. rewrite is_All_All.
  apply replace_first_loop.
Qed.

(** It never panics: the selection holds one element at every turn. *)
Lemma importFromDirectory_handleAll_total (tarFiles selected : list gostring) :
  importFromDirectory_handleAll tarFiles selected <> None.
Proof.
  unfold importFromDirectory_handleAll.
  destruct (is_All selected) eqn:E; [|discriminate].
  unfold is_All in E. apply andb_true_iff in E. destruct E as [E _].
  destruct selected as [|x [|y r]]; try discriminate.
  rewrite replace_first_loop. discriminate.
Qed.

(** C1.  With the tar files /images/a.tar and /images/b.tar the menu of
    the directory import offers "All", "a.tar" and "b.tar"; for the
    selection "All" the directory import goes on with "b.tar" alone, and
    imports /images/b.tar only, where the cloud import, on the same files,
    goes on with both. *)
Theorem importFromDirectory_All_keeps_last_file :
  let tarFiles := [str "/images/a.tar"; str "/images/b.tar"] in
  file_selectionOptions tarFiles = [All; str "a.tar"; str "b.tar"]
  /\ importFromDirectory_handleAll tarFiles [All] = Some [str "b.tar"]
  /\ selectedFilePaths tarFiles [str "b.tar"] = [str "/images/b.tar"]
  /\ ImportImagesFromCloud_handleAll tarFiles [All]
     = [str "a.tar"; str "b.tar"]
  /\ imports_started
       (trace (importFromDirectory
                 (Scenario.world
                    {| Scenario.sc_env := [];
                       Scenario.sc_images := [];
                       Scenario.sc_picks := [All];
                       Scenario.sc_broken := [];
                       Scenario.sc_walk :=
                         [Scenario.directory "/images";
                          Scenario.file "/images/a.tar";
                          Scenario.file "/images/b.tar"];
                       Scenario.sc_config_file := Fail (Foreign []);
                       Scenario.sc_config := Fail (Foreign []) |})
                 (str "/images") [] tt))
     = [str "/images/b.tar"].
Proof.
  repeat split; vm_compute; reflexivity.
Qed.

End AllFacts.

(** ** Strings and paths *)

Section StringExtras.

Lemma Contains_unfold (s p : gostring) :
  Contains s p
  = HasPrefix s p || match s with [] => false | _ :: s' => Contains s' p end.
Proof. destruct s; reflexivity. Qed.

Lemma Contains_intro (a p b : gostring) : Contains (a ++ p ++ b) p = true.
Proof.
  induction a as [|x a IH]; simpl.
  - rewrite Contains_unfold.
    rewrite (proj2 (HasPrefix_app (p ++ b) p)) by (exists b; reflexivity).
    reflexivity.
  - rewrite IH. apply orb_true_r.
Qed.

Lemma Contains_elim (s p : gostring) :
  Contains s p = true -> exists a b, s = a ++ p ++ b.
Proof.
  induction s as [|x s IH]; rewrite Contains_unfold; intros H;
    apply orb_true_iff in H; destruct H as [H|H]; try discriminate H.
  - apply HasPrefix_app in H. destruct H as [b H]. exists [], b. exact H.
  - apply HasPrefix_app in H. destruct H as [b H]. exists [], b. exact H.
  - destruct (IH H) as (a & b & ->). exists (x :: a), b. reflexivity.
Qed.

Lemma Contains_In (s p : gostring) (c : ascii) :
  Contains s p = true -> In c p -> In c s.
Proof.
  intros H Hc. destruct (Contains_elim _ _ H) as (a & b & ->).
  rewrite !in_app_iff. tauto.
Qed.

Lemma sanitized_app (a b : gostring) :
  sanitized (a ++ b) = sanitized a ++ sanitized b.
Proof. apply flat_map_app. Qed.

Lemma sanitized_id (s : gostring) : ~ In slash s -> sanitized s = s.
Proof.
  induction s as [|x s IH]; simpl; [reflexivity|]. intros H.
  destruct (byte_eqb x slash) eqn:E.
  - apply byte_eqb_eq in E. subst x. exfalso. apply H. left. reflexivity.
  - simpl. rewrite IH; [reflexivity|]. tauto.
Qed.

Lemma separator_slash (c : ascii) : IsPathSeparator c = true <-> c = slash.
Proof. apply byte_eqb_eq. Qed.

Lemma take_element_no_slash (r : list ascii) : ~ In slash (take_element r).
Proof.
  induction r as [|c r IH]; simpl; [tauto|].
  destruct (IsPathSeparator c) eqn:E; simpl; [tauto|].
  intros [H|H]; [|tauto]. subst c.
  rewrite (proj2 (separator_slash slash) eq_refl) in E. discriminate.
Qed.

Lemma take_element_all (r rest : list ascii) :
  ~ In slash r -> take_element (r ++ slash :: rest) = r.
Proof.
  induction r as [|c r IH]; simpl; intros H.
  - reflexivity.
  - destruct (IsPathSeparator c) eqn:E.
    + apply separator_slash in E. tauto.
    + rewrite IH; [reflexivity | tauto].
Qed.

Lemma take_element_id (r : list ascii) : ~ In slash r -> take_element r = r.
Proof.
  induction r as [|c r IH]; simpl; intros H; [reflexivity|].
  destruct (IsPathSeparator c) eqn:E.
  - apply separator_slash in E. tauto.
  - rewrite IH; [reflexivity | tauto].
Qed.

Lemma drop_separators_id (c : ascii) (r : list ascii) :
  c <> slash -> drop_separators (c :: r) = c :: r.
Proof.
  intros H. simpl. destruct (IsPathSeparator c) eqn:E; [|reflexivity].
  apply separator_slash in E. tauto.
Qed.

(** The base name of a path is "/" or holds no separator. *)
Lemma Base_no_slash (path : gostring) :
  Base path = [slash] \/ ~ In slash (Base path).
Proof.
  unfold Base. destruct path as [|c path].
  - right. simpl. intros [H|[]]. discriminate H.
  - destruct (rev (take_element (drop_separators (rev (c :: path)))))
      as [|x elem] eqn:E; [left; reflexivity|].
    right. rewrite <- E. rewrite <- in_rev. apply take_element_no_slash.
Qed.

(** The base name of a file in a directory is the file's name. *)
Lemma Base_in_directory (dir file : gostring) :
  file <> [] -> ~ In slash file -> Base (dir ++ slash :: file) = file.
Proof.
  intros Hne Hns. unfold Base.
  destruct (dir ++ slash :: file) as [|c p] eqn:E;
    [destruct dir; discriminate E|].
  rewrite <- E. rewrite rev_app_distr. simpl rev at 1.
  rewrite <- app_assoc. simpl app.
  destruct (rev file) as [|x r] eqn:Er.
  - apply (f_equal (@rev ascii)) in Er. rewrite rev_involutive in Er.
    simpl in Er. tauto.
  - assert (Hx : x <> slash).
    { intros ->. apply Hns. apply in_rev. rewrite Er. left. reflexivity. }
    change ((x :: r) ++ slash :: rev dir) with (x :: (r ++ slash :: rev dir)).
    rewrite (drop_separators_id _ Hx).
    change (x :: r ++ slash :: rev dir) with ((x :: r) ++ slash :: rev dir).
    rewrite take_element_all.
    + rewrite <- Er, rev_involutive. destruct file; [tauto | reflexivity].
    + rewrite <- Er. rewrite <- in_rev. exact Hns.
Qed.

Lemma ext_scan_in_directory (r rest seen : list ascii) :
  ~ In slash r ->
  ext_scan (r ++ slash :: rest) seen = ext_scan r seen.
Proof.
  revert seen. induction r as [|c r IH]; intros seen H; simpl.
  - reflexivity.
  - destruct (IsPathSeparator c) eqn:E; [reflexivity|].
    destruct (byte_eqb c dot); [reflexivity|].
    apply IH. simpl in H. tauto.
Qed.

Lemma Ext_in_directory (dir file : gostring) :
  ~ In slash file -> Ext (dir ++ slash :: file) = Ext file.
Proof.
  intros H. unfold Ext. rewrite rev_app_distr. simpl rev at 1.
  rewrite <- app_assoc. simpl app. apply ext_scan_in_directory.
  rewrite <- in_rev. exact H.
Qed.

Lemma Ext_tar (stem : gostring) : Ext (stem ++ str ".tar") = str ".tar".
Proof. unfold Ext. rewrite rev_app_distr. reflexivity. Qed.

Lemma TrimSuffix_app (stem suffix : gostring) :
  TrimSuffix (stem ++ suffix) suffix = stem.
Proof.
  unfold TrimSuffix.
  rewrite (proj2 (HasSuffix_app (stem ++ suffix) suffix))
    by (exists stem; reflexivity).
  rewrite length_app.
  replace (length stem + length suffix - length suffix)
    with (length stem + 0) by lia.
  rewrite firstn_app_2. simpl. apply app_nil_r.
Qed.

(** What the pattern of an import is matched against, for an exported
    file in a directory: the file name without ".tar". *)
Lemma baseName_in_directory (dir stem : gostring) :
  ~ In slash stem ->
  baseName (dir ++ slash :: stem ++ str ".tar") = stem.
Proof.
  intros H.
  assert (Hf : ~ In slash (stem ++ str ".tar")).
  { rewrite in_app_iff. intros [H1|H1]; [tauto|].
    vm_compute in H1. intuition discriminate. }
  unfold baseName. rewrite Base_in_directory, Ext_in_directory; try exact Hf.
  - rewrite Ext_tar. apply TrimSuffix_app.
  - destruct stem; discriminate.
Qed.

End StringExtras.

(** ** Discovery of tar files *)

Section DiscoveryFacts.

Lemma ToLower_app (a b : gostring) : ToLower (a ++ b) = ToLower a ++ ToLower b.
Proof. apply map_app. Qed.

(** The suffix test on the lowered name is the test "ends in the
    extension, letter case apart". *)
Lemma HasSuffix_ToLower (name ext : gostring) :
  HasSuffix (ToLower name) ext = true <-> ends_in_fold name ext.
Proof.
  rewrite HasSuffix_app. unfold ends_in_fold. split.
  - intros [front H].
    exists (firstn (length front) name), (skipn (length front) name).
    split; [symmetry; apply firstn_skipn|].
    unfold ToLower in *. rewrite <- skipn_map, H, skipn_app.
    rewrite skipn_all, Nat.sub_diag. reflexivity.
  - intros [front [ending [-> <-]]].
    exists (ToLower front). apply ToLower_app.
Qed.

Lemma has_tar_suffix_tar_name (name : gostring) :
  has_tar_suffix (ToLower name) = true <-> tar_name name.
Proof.
  unfold has_tar_suffix, tar_name.
  rewrite !orb_true_iff, !HasSuffix_ToLower. tauto.
Qed.

Lemma walkFn_candidate (pat : gostring) (acc : list gostring) (c : WalkCall) :
  walk_err c = None ->
  walkFn pat acc c
  = inl (if local_candidate pat c then acc ++ [walk_path c] else acc).
Proof.
  intros E. unfold walkFn, local_candidate. rewrite E.
  rewrite <- pattern_branch.
  destruct (IsDir (walk_info c)),
    (has_tar_suffix (ToLower (Name (walk_info c)))),
    (is_empty pat), (Contains (baseName (walk_path c)) pat); reflexivity.
Qed.

Lemma walk_from_filter (pat : gostring) (calls : list WalkCall) :
  Forall (fun c => walk_err c = None) calls ->
  forall acc,
    walk_from pat acc calls
    = inl (acc ++ map walk_path (filter (local_candidate pat) calls)).
Proof.
  induction 1 as [|c calls Hc _ IH]; intros acc; simpl.
  - rewrite app_nil_r. reflexivity.
  - rewrite (walkFn_candidate pat acc c Hc), IH.
    destruct (local_candidate pat c); simpl;
      [rewrite <- app_assoc|]; reflexivity.
Qed.

(** A call that reports an error ends the walk with that error. *)
Lemma walk_from_error (pat : gostring) (before after : list WalkCall)
  (c : WalkCall) (err : gostring) :
  Forall (fun c => walk_err c = None) before ->
  walk_err c = Some err ->
  findTarFilesInDirectory (before ++ c :: after) pat = inr err.
Proof.
  intros Hbefore Herr. unfold findTarFilesInDirectory.
  generalize (@nil gostring) as acc.
  induction Hbefore as [|b before Hb _ IH]; intros acc; simpl.
  - unfold walkFn. rewrite Herr. reflexivity.
  - rewrite (walkFn_candidate pat acc b Hb). apply IH.
Qed.

Lemma findTarFilesInDirectory_filter (pat : gostring)
  (calls : list WalkCall) :
  Forall (fun c => walk_err c = None) calls ->
  findTarFilesInDirectory calls pat
  = inl (map walk_path (filter (local_candidate pat) calls)).
Proof.
  intros H. unfold findTarFilesInDirectory.
  rewrite (walk_from_filter pat H). reflexivity.
Qed.

Lemma ImportImagesFromCloud_tarFiles_filter (files : list PanFileInfo)
  (pat : gostring) :
  ImportImagesFromCloud_tarFiles files pat
  = filter (cloud_candidate pat) files.
Proof.
  unfold ImportImagesFromCloud_tarFiles.
  rewrite (fold_left_filter (cloud_candidate pat)); [reflexivity|].
  intros acc f. unfold cloud_candidate, has_tar_suffix, baseName.
  rewrite <- pattern_branch.
  destruct (HasSuffix (ToLower (Path f)) (str ".tar")
            || HasSuffix (ToLower (Path f)) (str ".tar.gz")
            || HasSuffix (ToLower (Path f)) (str ".tgz")),
    (is_empty pat),
    (Contains (TrimSuffix (Base (Path f)) (Ext (Path f))) pat);
    reflexivity.
Qed.

Lemma local_candidate_iff (pat : gostring) (c : WalkCall) :
  local_candidate pat c = true <->
  IsDir (walk_info c) = false
  /\ tar_name (Name (walk_info c))
  /\ matches_spec (baseName (walk_path c)) pat = true.
Proof.
  unfold local_candidate.
  rewrite !andb_true_iff, negb_true_iff, has_tar_suffix_tar_name. tauto.
Qed.

Lemma cloud_candidate_iff (pat : gostring) (f : PanFileInfo) :
  cloud_candidate pat f = true <->
  tar_name (Path f) /\ matches_spec (baseName (Path f)) pat = true.
Proof.
  unfold cloud_candidate.
  rewrite andb_true_iff, has_tar_suffix_tar_name. tauto.
Qed.

(** The walk stops at the first call that reports an error, and returns
    that error; a walk without error returns the candidates. *)
Lemma walk_from_result (pat : gostring) (calls : list WalkCall) :
  forall acc,
    walk_from pat acc calls
    = match walk_error calls with
      | Some err => inr err
      | None => inl (acc ++ map walk_path (filter (local_candidate pat) calls))
      end.
Proof.
  induction calls as [|c calls IH]; intros acc; simpl.
  - rewrite app_nil_r. reflexivity.
  - destruct (walk_err c) as [err|] eqn:Herr.
    + unfold walkFn. rewrite Herr. reflexivity.
    + rewrite (walkFn_candidate pat acc c Herr), IH.
      destruct (walk_error calls); [reflexivity|].
      destruct (local_candidate pat c); simpl;
        [rewrite <- app_assoc|]; reflexivity.
Qed.

(** The extension is the text from the last dot of the name on. *)
Lemma ext_scan_last_dot (r rest seen : list ascii) :
  ~ In slash r -> ~ In dot r ->
  ext_scan (r ++ dot :: rest) seen = dot :: rev r ++ seen.
Proof.
  revert seen. induction r as [|c r IH]; intros seen Hs Hd; simpl.
  - reflexivity.
  - destruct (IsPathSeparator c) eqn:E.
    { apply separator_slash in E. simpl in Hs. tauto. }
    destruct (byte_eqb c dot) eqn:E'.
    { apply byte_eqb_eq in E'. simpl in Hd. tauto. }
    rewrite IH by (simpl in Hs, Hd; tauto).
    rewrite <- app_assoc. reflexivity.
Qed.

Lemma Ext_last_dot (stem ext : gostring) :
  ~ In slash ext -> ~ In dot ext -> Ext (stem ++ dot :: ext) = dot :: ext.
Proof.
  intros Hs Hd. unfold Ext. rewrite rev_app_distr. simpl rev at 1.
  rewrite <- app_assoc. simpl app.
  rewrite ext_scan_last_dot by (rewrite <- in_rev; assumption).
  rewrite rev_involutive, app_nil_r. reflexivity.
Qed.

Lemma baseName_last_extension (dir stem ext : gostring) :
  ~ In slash stem -> ~ In slash ext -> ~ In dot ext ->
  baseName (dir ++ slash :: stem ++ dot :: ext) = stem.
Proof.
  intros Hstem Hs Hd.
  assert (Hf : ~ In slash (stem ++ dot :: ext)).
  { rewrite in_app_iff. simpl. intros [H|[H|H]]; try tauto. discriminate H. }
  unfold baseName. rewrite Base_in_directory, Ext_in_directory; try exact Hf.
  - rewrite (@Ext_last_dot stem ext Hs Hd). apply TrimSuffix_app.
  - destruct stem; discriminate.
Qed.

(** C3.  A walk of a local directory returns the error of the first
    visited entry that reports one, and then retains nothing; a walk
    without error yields, in order, the paths of the visited entries that
    are not directories, whose name ends, letter case apart, in ".tar",
    ".tar.gz" or ".tgz", and whose base name without its extension contains
    the pattern (every such name when the pattern is empty).  A cloud
    listing yields the entries whose path ends so and whose base name
    without its extension contains the pattern.  The extension that is
    taken off is the text from the last dot of the name on: for a file
    "stem.ext" in a directory, where "ext" holds no dot, the pattern is
    looked for in "stem".  "IMAGE.TAR" ends in ".tar" in the sense
    above. *)
Theorem tar_discovery_retains :
  forall (calls : list WalkCall) (files : list PanFileInfo)
         (grepPattern : gostring),
    findTarFilesInDirectory calls grepPattern
      = match walk_error calls with
        | Some err => inr err
        | None =>
            inl (map walk_path (filter (local_candidate grepPattern) calls))
        end
    /\ (Forall (fun c => walk_err c = None) calls ->
        findTarFilesInDirectory calls grepPattern
        = inl (map walk_path (filter (local_candidate grepPattern) calls)))
    /\ ImportImagesFromCloud_tarFiles files grepPattern
      = filter (cloud_candidate grepPattern) files
    /\ (forall c, local_candidate grepPattern c = true <->
                  IsDir (walk_info c) = false
                  /\ tar_name (Name (walk_info c))
                  /\ matches_spec (baseName (walk_path c)) grepPattern
                     = true)
    /\ (forall f, cloud_candidate grepPattern f = true <->
                  tar_name (Path f)
                  /\ matches_spec (baseName (Path f)) grepPattern = true)
    /\ (forall dir stem ext,
           ~ In slash stem -> ~ In slash ext -> ~ In dot ext ->
           baseName (dir ++ slash :: stem ++ dot :: ext) = stem)
    /\ tar_name (str "IMAGE.TAR").
Proof.
  intros calls files pat.
  split; [apply (walk_from_result pat calls [])|].
  split; [apply findTarFilesInDirectory_filter|].
  split; [apply ImportImagesFromCloud_tarFiles_filter|].
  split; [intros c; apply local_candidate_iff|].
  split; [intros f; apply cloud_candidate_iff|].
  split; [apply baseName_last_extension|].
  apply has_tar_suffix_tar_name. reflexivity.
Qed.

Lemma tar_discovery_retains_witness :
  Forall (fun c => walk_err c = None)
    [Scenario.directory "/images"; Scenario.file "/images/IMAGE.TAR";
     Scenario.file "/images/notes.txt"; Scenario.file "/images/web.tgz"]
  /\ findTarFilesInDirectory
       [Scenario.directory "/images"; Scenario.file "/images/IMAGE.TAR";
        Scenario.file "/images/notes.txt"; Scenario.file "/images/web.tgz"]
       (str "IMAGE")
     = inl [str "/images/IMAGE.TAR"]
  /\ ~ In slash (str "backup.tar") /\ ~ In slash (str "gz")
  /\ ~ In dot (str "gz")
  /\ baseName (str "/images" ++ slash :: str "backup.tar" ++ dot :: str "gz")
     = str "backup.tar".
Proof.
  assert (H : Forall (fun c => walk_err c = None)
                [Scenario.directory "/images";
                 Scenario.file "/images/IMAGE.TAR";
                 Scenario.file "/images/notes.txt";
                 Scenario.file "/images/web.tgz"])
    by (repeat constructor).
  assert (H1 : ~ In slash (str "backup.tar"))
    by (vm_compute; intuition discriminate).
  assert (H2 : ~ In slash (str "gz")) by (vm_compute; intuition discriminate).
  assert (H3 : ~ In dot (str "gz")) by (vm_compute; intuition discriminate).
  destruct (tar_discovery_retains
              [Scenario.directory "/images";
               Scenario.file "/images/IMAGE.TAR";
               Scenario.file "/images/notes.txt";
               Scenario.file "/images/web.tgz"] [] (str "IMAGE"))
    as (_ & Hwalk & _ & _ & _ & Hbase & _).
  split; [exact H|].
  split; [rewrite (Hwalk H); reflexivity|].
  split; [exact H1|]. split; [exact H2|]. split; [exact H3|].
  exact (Hbase (str "/images") (str "backup.tar") (str "gz") H1 H2 H3).
Defined.

(** Three entries that the suffix rule alone would treat otherwise.  A
    directory whose name ends in ".tar" is an entry of the walk with such
    a name, and the walk does not retain it.  The file "backup.tar.gz" is
    retained for the pattern "tar", which its name without ".tar.gz" does
    not contain, while "web.tar" beside it is not: the pattern is looked
    for in "backup.tar".  And a walk that meets an entry it cannot read
    retains nothing, not even the tar file it visited before. *)
Lemma discovery_skips_directories_and_stops_at_errors :
  (tar_name (Name (walk_info (Scenario.directory "/images/old.tar")))
   /\ matches_spec (baseName (str "/images/old.tar")) [] = true
   /\ findTarFilesInDirectory [Scenario.directory "/images/old.tar"] []
      = inl [])
  /\ (str "backup.tar.gz" = str "backup" ++ str ".tar.gz"
      /\ matches_spec (str "backup") (str "tar") = false
      /\ findTarFilesInDirectory
           [Scenario.file "/images/backup.tar.gz";
            Scenario.file "/images/web.tar"] (str "tar")
         = inl [str "/images/backup.tar.gz"]
      /\ ImportImagesFromCloud_tarFiles
           [{| Path := str "/images/backup.tar.gz" |};
            {| Path := str "/images/web.tar" |}] (str "tar")
         = [{| Path := str "/images/backup.tar.gz" |}])
  /\ (tar_name (Name (walk_info (Scenario.file "/images/web.tar")))
      /\ findTarFilesInDirectory
           [Scenario.file "/images/web.tar";
            {| walk_path := str "/images/locked";
               walk_info := {| Name := str "locked"; IsDir := true |};
               walk_err := Some (str "permission denied") |}] []
         = inr (str "permission denied")).
Proof.
  split; [|split].
  - split; [apply has_tar_suffix_tar_name; reflexivity|].
    split; reflexivity.
  - repeat split; reflexivity.
  - split; [apply has_tar_suffix_tar_name; reflexivity|]. reflexivity.
Qed.

Lemma image_candidate_accepts (pat tag : gostring) :
  image_candidate pat tag = negb (eqb tag none_tag) && image_accepts pat tag.
Proof.
  unfold image_candidate, image_accepts. rewrite pattern_branch.
  reflexivity.
Qed.

(** C4.  In every source the decision on the pattern is Contract B, the
    plain containment test with the empty pattern accepting everything;
    what differs is the string it is applied to: the whole reference for
    an image of the daemon listing, the base name without its last
    extension for a path of a directory walk or of a cloud listing.  On
    one path, the walk and the cloud listing decide alike. *)
Theorem pattern_filter_per_source :
  forall (grepPattern candidate : gostring),
    image_accepts grepPattern candidate = matches_spec candidate grepPattern
    /\ local_accepts grepPattern candidate
       = matches_spec (baseName candidate) grepPattern
    /\ cloud_accepts grepPattern candidate
       = matches_spec (baseName candidate) grepPattern
    /\ local_accepts grepPattern candidate
       = cloud_accepts grepPattern candidate
    /\ (forall images,
           DeleteImages_imageNames grepPattern images
           = filter (fun tag => negb (eqb tag none_tag)
                                && image_accepts grepPattern tag)
               (listed_tags images))
    /\ (forall (env : Env) images,
           env (str "DKCI_GREP_PATTERN") = grepPattern ->
           ExportImages_imageNames env images
           = filter (fun tag => negb (eqb tag none_tag)
                                && image_accepts grepPattern tag)
               (listed_tags images)
           /\ ExportImagesToCloud_imageNames env images
              = ExportImages_imageNames env images)
    /\ (forall files,
           ImportImagesFromCloud_tarFiles files grepPattern
           = filter (fun f => has_tar_suffix (ToLower (Path f))
                              && cloud_accepts grepPattern (Path f))
               files)
    /\ (forall acc path info,
           walkFn grepPattern acc
             {| walk_path := path; walk_info := info; walk_err := None |}
           = inl (if negb (IsDir info)
                     && has_tar_suffix (ToLower (Name info))
                     && local_accepts grepPattern path
                  then acc ++ [path] else acc)).
Proof.
  intros pat c.
  split; [apply pattern_branch|].
  split; [apply pattern_branch|].
  split; [apply pattern_branch|].
  split; [reflexivity|].
  split.
  { intros images. rewrite DeleteImages_imageNames_filter.
    apply filter_ext. intros tag. apply image_candidate_accepts. }
  split.
  { intros env images <-.
    rewrite ExportImagesToCloud_imageNames_filter,
      ExportImages_imageNames_filter.
    split; [|reflexivity].
    apply filter_ext. intros tag. apply image_candidate_accepts. }
  split.
  { intros files. rewrite ImportImagesFromCloud_tarFiles_filter.
    apply filter_ext. intros f. unfold cloud_candidate, cloud_accepts.
    rewrite pattern_branch. reflexivity. }
  intros acc path info. rewrite walkFn_candidate by reflexivity.
  unfold local_candidate, local_accepts. rewrite pattern_branch.
  reflexivity.
Qed.

Lemma pattern_filter_per_source_witness :
  (fun _ => str "tar") (str "DKCI_GREP_PATTERN") = str "tar"
  /\ ExportImages_imageNames (fun _ => str "tar")
       [{| RepoTags := [str "app:v1.tar"; str "<none>:<none>";
                        str "nginx:latest"] |}]
     = [str "app:v1.tar"].
Proof.
  split; [reflexivity|].
  destruct (pattern_filter_per_source (str "tar") (str "app:v1.tar"))
    as (_ & _ & _ & _ & _ & H & _).
  rewrite (proj1 (H (fun _ => str "tar") _ eq_refl)).
  reflexivity.
Defined.

(** The reference "app:v1.tar" is accepted for the pattern "tar" when it
    comes from the daemon listing, and rejected when it is the name of a
    file of a directory walk or of a cloud listing, although that file is
    a candidate when there is no pattern. *)
Lemma accepted_as_image_rejected_as_file :
  image_accepts (str "tar") (str "app:v1.tar") = true
  /\ local_accepts (str "tar") (str "app:v1.tar") = false
  /\ cloud_accepts (str "tar") (str "app:v1.tar") = false
  /\ DeleteImages_imageNames (str "tar")
       [{| RepoTags := [str "app:v1.tar"] |}]
     = [str "app:v1.tar"]
  /\ findTarFilesInDirectory [Scenario.file "app:v1.tar"] (str "tar")
     = inl []
  /\ ImportImagesFromCloud_tarFiles [{| Path := str "app:v1.tar" |}]
       (str "tar")
     = []
  /\ findTarFilesInDirectory [Scenario.file "app:v1.tar"] []
     = inl [str "app:v1.tar"]
  /\ ImportImagesFromCloud_tarFiles [{| Path := str "app:v1.tar" |}] []
     = [{| Path := str "app:v1.tar" |}].
Proof.
  repeat split; reflexivity.
Qed.

End DiscoveryFacts.

(** ** Processes *)

Section ProcFacts.
Variables (W A : Type).

Lemma forEach_cons (x : A) (l : list A) (body : A -> Proc W unit) (w : W) :
  forEach (x :: l) body w = bind (body x) (fun _ => forEach l body) w.
Proof. reflexivity. Qed.

Lemma bind_returned X Y (m : Proc W X) (k : X -> Proc W Y) (w : W) (a : X) :
  outcome (m w) = Returned a ->
  bind m k w
  = mkRun (trace (m w) ++ trace (k a (final (m w))))
      (final (k a (final (m w)))) (outcome (k a (final (m w)))).
Proof.
  unfold bind. destruct (m w) as [t w' o]. simpl. intros ->.
  destruct (k a w'); reflexivity.
Qed.

Lemma bind_exited X Y (m : Proc W X) (k : X -> Proc W Y) (w : W) (code : Z) :
  outcome (m w) = Exited code ->
  bind m k w = mkRun (trace (m w)) (final (m w)) (Exited code).
Proof.
  unfold bind. destruct (m w) as [t w' o]. simpl. intros ->. reflexivity.
Qed.

(** A loop whose body always returns runs to its end. *)
Lemma forEach_returns (body : A -> Proc W unit) :
  (forall x w, outcome (body x w) = Returned tt) ->
  forall l w, outcome (forEach l body w) = Returned tt.
Proof.
  intros Hbody. induction l as [|x l IH]; intros w; [reflexivity|].
  rewrite forEach_cons, (bind_returned _ _ _ (Hbody x w)). simpl. apply IH.
Qed.

(** What is observed of such a loop is what is observed of each turn. *)
Lemma forEach_observed (B : Type) (obs : Event -> list B)
  (body : A -> Proc W unit) (seen : A -> list B) :
  (forall x w, outcome (body x w) = Returned tt) ->
  (forall x w, flat_map obs (trace (body x w)) = seen x) ->
  forall l w, flat_map obs (trace (forEach l body w)) = flat_map seen l.
Proof.
  intros Hret Hobs. induction l as [|x l IH]; intros w; [reflexivity|].
  rewrite forEach_cons, (bind_returned _ _ _ (Hret x w)). simpl.
  rewrite flat_map_app, Hobs, IH. reflexivity.
Qed.

Lemma forEach_reports (body : A -> Proc W unit) :
  (forall x w, outcome (body x w) = Returned tt) ->
  (forall x w, length (reports (trace (body x w))) = 1) ->
  forall l w, length (reports (trace (forEach l body w))) = length l.
Proof.
  intros Hret Hrep. induction l as [|x l IH]; intros w; [reflexivity|].
  rewrite forEach_cons, (bind_returned _ _ _ (Hret x w)). simpl.
  unfold reports in *. rewrite filter_app, length_app, Hrep, IH.
  reflexivity.
Qed.

(** A turn that exits ends the loop: the run is the turns before it and
    that turn, whatever follows in the list. *)
Lemma forEach_exit (body : A -> Proc W unit) (x : A) (code : Z) :
  forall before after w,
    outcome (forEach before body w) = Returned tt ->
    outcome (body x (final (forEach before body w))) = Exited code ->
    outcome (forEach (before ++ x :: after) body w) = Exited code
    /\ forEach (before ++ x :: after) body w
       = forEach (before ++ [x]) body w.
Proof.
  induction before as [|y before IH]; intros after w Hbefore Hx.
  - simpl in *. rewrite !(bind_exited _ _ _ Hx). split; reflexivity.
  - rewrite <- !app_comm_cons, !forEach_cons in *.
    destruct (outcome (body y w)) as [[]| |] eqn:Ey.
    + rewrite (bind_returned _ _ _ Ey) in Hbefore, Hx.
      rewrite !(bind_returned _ _ _ Ey). simpl in *.
      destruct (IH after (final (body y w)) Hbefore Hx) as [H1 H2].
      rewrite H2 in H1. rewrite H2. split; [exact H1 | reflexivity].
    + rewrite (bind_exited _ _ _ Ey) in Hbefore. discriminate.
    + unfold bind in Hbefore. destruct (body y w) as [t w' o].
      simpl in Ey. subst o. discriminate.
Qed.

(** What is observed of a loop that returned. *)
Lemma forEach_observed_returned (B : Type) (obs : Event -> list B)
  (body : A -> Proc W unit) (seen : A -> list B) :
  (forall x w, flat_map obs (trace (body x w)) = seen x) ->
  forall l w,
    outcome (forEach l body w) = Returned tt ->
    flat_map obs (trace (forEach l body w)) = flat_map seen l.
Proof.
  intros Hobs. induction l as [|x l IH]; intros w Hret; [reflexivity|].
  rewrite forEach_cons in *.
  destruct (outcome (body x w)) as [[]| |] eqn:Ex.
  - rewrite (bind_returned _ _ _ Ex) in *. simpl in *.
    rewrite flat_map_app, Hobs, IH by exact Hret. reflexivity.
  - rewrite (bind_exited _ _ _ Ex) in Hret. discriminate.
  - unfold bind in Hret. destruct (body x w) as [t w' o].
    simpl in Ex. subst o. discriminate.
Qed.

Lemma forEach_snoc_trace (body : A -> Proc W unit) (x : A) :
  forall before w,
    outcome (forEach before body w) = Returned tt ->
    trace (forEach (before ++ [x]) body w)
    = trace (forEach before body w)
      ++ trace (body x (final (forEach before body w))).
Proof.
  induction before as [|y before IH]; intros w Hret.
  - simpl. unfold bind. destruct (body x w) as [t w' [[]| |]]; simpl;
      try rewrite app_nil_r; reflexivity.
  - rewrite <- app_comm_cons, !forEach_cons in *.
    destruct (outcome (body y w)) as [[]| |] eqn:Ey.
    + rewrite (bind_returned _ _ _ Ey) in Hret.
      rewrite !(bind_returned _ _ _ Ey). simpl in *.
      rewrite IH by exact Hret. apply app_assoc.
    + rewrite (bind_exited _ _ _ Ey) in Hret. discriminate.
    + unfold bind in Hret. destruct (body y w) as [t w' o].
      simpl in Ey. subst o. discriminate.
Qed.

End ProcFacts.

#[local] Arguments str : simpl never.
#[local] Arguments ExportImage_tarFileName : simpl never.
#[local] Arguments ExportImageToCloud_tarFileName : simpl never.
#[local] Arguments is_gzip_name : simpl never.
#[local] Arguments Base : simpl never.

Section ExportDeleteFacts.
Variable W : Type.
Variable C : Collaborators W.

Lemma ExportImage_returns (imageName destination : gostring) (w : W) :
  outcome (ExportImage C imageName destination w) = Returned tt.
Proof.
  unfold ExportImage. run_calls; reflexivity.
Qed.







Lemma DeleteImage_returns (imageName : gostring) (w : W) :
  outcome (DeleteImage C imageName w) = Returned tt.
Proof.
  unfold DeleteImage. run_calls; reflexivity.
Qed.




Lemma flat_map_singleton (l : list gostring) :
  flat_map (fun x => [x]) l = l.
Proof. induction l; simpl; congruence. Qed.





End ExportDeleteFacts.



(** ** Import *)

Section ImportFacts.
Variable W : Type.
Variable C : Collaborators W.

Lemma importFromFile_started (filePath : gostring) (w : W) :
  imports_started (trace (importFromFile C filePath w)) = [filePath].
Proof.
  unfold importFromFile, getImageInfoFromTar. run_unfold.
  repeat first [run_call | run_if]; reflexivity.
Qed.

Lemma importFromFile_fails (filePath : gostring) (w : W) :
  import_failure C filePath w ->
  outcome (importFromFile C filePath w) = Exited 1.
Proof.
  intros [w1 w2 err H1 H2
         |w1 w2 w3 w4 err H1 H2 H3 Hgz H4
         |w1 w2 w3 w4 w5 err H1 H2 H3 H4 H5];
    unfold importFromFile; run_unfold.
  - rewrite H1. run_unfold. rewrite H2. reflexivity.
  - rewrite H1. run_unfold. rewrite H2. run_unfold. rewrite H3. run_unfold.
    rewrite Hgz. run_unfold. rewrite H4. reflexivity.
  - rewrite H1. run_unfold. rewrite H2. run_unfold. rewrite H3. run_unfold.
    destruct (is_gzip_name filePath); run_unfold.
    + rewrite H4. run_unfold. rewrite H5. reflexivity.
    + subst w4. rewrite H5. reflexivity.
Qed.

Lemma downloadAndImportFromCloud_fails (cloudFilePath : gostring) (w : W) :
  cloud_import_failure C cloudFilePath w ->
  outcome (downloadAndImportFromCloud C cloudFilePath w) = Exited 1.
Proof.
  intros [w1 w2 w3 w4 w5 info H1 H2 H3 H4 H5 Hdir Himport].
  apply importFromFile_fails in Himport.
  unfold downloadAndImportFromCloud, ImportImagesFromSource. run_unfold.
  rewrite H1. run_unfold. rewrite H2. run_unfold. rewrite H3. run_unfold.
  rewrite H4. run_unfold. rewrite H5. run_unfold. rewrite Hdir.
  destruct (importFromFile C (Join C [tempDir; Base cloudFilePath]) w5)
    as [t w' o].
  simpl in Himport. subst o. reflexivity.
Qed.

Lemma import_loop_stops (before after : list gostring)
  (filePath : gostring) (w : W) :
  outcome (forEach before (importFromFile C) w) = Returned tt ->
  import_failure C filePath (final (forEach before (importFromFile C) w)) ->
  outcome (forEach (before ++ filePath :: after) (importFromFile C) w)
  = Exited 1
  /\ forEach (before ++ filePath :: after) (importFromFile C) w
     = forEach (before ++ [filePath]) (importFromFile C) w
  /\ imports_started
       (trace (forEach (before ++ filePath :: after) (importFromFile C) w))
     = before ++ [filePath].
Proof.
  intros Hbefore Hfail. apply importFromFile_fails in Hfail.
  destruct (forEach_exit (importFromFile C) filePath before after w
              Hbefore Hfail) as [Hexit Hsame].
  split; [exact Hexit|]. split; [exact Hsame|].
  rewrite Hsame, (forEach_snoc_trace _ _ _ _ Hbefore).
  unfold imports_started. rewrite flat_map_app.
  rewrite (forEach_observed_returned _ _ (fun x => [x])
             importFromFile_started _ _ Hbefore).
  fold (imports_started
          (trace (importFromFile C filePath
                    (final (forEach before (importFromFile C) w))))).
  rewrite importFromFile_started, flat_map_singleton. reflexivity.
Qed.

Lemma cloud_import_loop_stops (before after : list gostring)
  (cloudFilePath : gostring) (w : W) :
  outcome (forEach before (downloadAndImportFromCloud C) w) = Returned tt ->
  cloud_import_failure C cloudFilePath
    (final (forEach before (downloadAndImportFromCloud C) w)) ->
  outcome (forEach (before ++ cloudFilePath :: after)
             (downloadAndImportFromCloud C) w)
  = Exited 1
  /\ forEach (before ++ cloudFilePath :: after)
       (downloadAndImportFromCloud C) w
     = forEach (before ++ [cloudFilePath])
         (downloadAndImportFromCloud C) w.
Proof.
  intros Hbefore Hfail. apply downloadAndImportFromCloud_fails in Hfail.
  apply (forEach_exit (downloadAndImportFromCloud C) cloudFilePath
           before after w Hbefore Hfail).
Qed.

End ImportFacts.

(** C9.  When the import of one of the selected tar files meets a failure
    to open the file, to unzip it or to load it, after the files before it
    were imported, the loop over the selection ends there with exit code 1:
    the run is the same, in output, calls and state, as if the selection
    ended with that file, so none of the files after it is touched.  This
    holds for the loop of the directory import, where the imports started
    are those of the files up to the failing one, and for the loop of the
    cloud import, where the failure is met in the import of the downloaded
    file. *)
Theorem import_failure_ends_the_invocation :
  forall (W : Type) (C : Collaborators W)
         (before after : list gostring) (filePath : gostring) (w : W),
    (outcome (forEach before (importFromFile C) w) = Returned tt ->
     import_failure C filePath (final (forEach before (importFromFile C) w)) ->
     outcome (forEach (before ++ filePath :: after) (importFromFile C) w)
     = Exited 1
     /\ forEach (before ++ filePath :: after) (importFromFile C) w
        = forEach (before ++ [filePath]) (importFromFile C) w
     /\ imports_started
          (trace (forEach (before ++ filePath :: after) (importFromFile C) w))
        = before ++ [filePath])
    /\ (outcome (forEach before (downloadAndImportFromCloud C) w)
        = Returned tt ->
        cloud_import_failure C filePath
          (final (forEach before (downloadAndImportFromCloud C) w)) ->
        outcome (forEach (before ++ filePath :: after)
                   (downloadAndImportFromCloud C) w)
        = Exited 1
        /\ forEach (before ++ filePath :: after)
             (downloadAndImportFromCloud C) w
           = forEach (before ++ [filePath])
               (downloadAndImportFromCloud C) w).
Proof.
  intros W C before after filePath w. split.
  - apply import_loop_stops.
  - apply cloud_import_loop_stops.
Qed.

Lemma import_failure_ends_the_invocation_witness :
  let world :=
    Scenario.world
      {| Scenario.sc_env := [];
         Scenario.sc_images := [];
         Scenario.sc_picks := [];
         Scenario.sc_broken := [str "/images/b.tar.gz"; str "/tmp/go-dkci/b.tar"];
         Scenario.sc_walk := [];
         Scenario.sc_config_file := Fail (Foreign []);
         Scenario.sc_config := Fail (Foreign []) |} in
  (outcome (forEach [str "/images/a.tar"] (importFromFile world) tt)
   = Returned tt
   /\ import_failure world (str "/images/b.tar.gz")
        (final (forEach [str "/images/a.tar"] (importFromFile world) tt))
   /\ outcome (forEach ([str "/images/a.tar"]
                        ++ str "/images/b.tar.gz" :: [str "/images/c.tar"])
                 (importFromFile world) tt)
      = Exited 1
   /\ imports_started
        (trace (forEach ([str "/images/a.tar"]
                         ++ str "/images/b.tar.gz" :: [str "/images/c.tar"])
                  (importFromFile world) tt))
      = [str "/images/a.tar"] ++ [str "/images/b.tar.gz"])
  /\ (outcome (forEach [str "/cloud/a.tar"]
                 (downloadAndImportFromCloud world) tt)
      = Returned tt
      /\ cloud_import_failure world (str "/cloud/b.tar")
           (final (forEach [str "/cloud/a.tar"]
                     (downloadAndImportFromCloud world) tt))
      /\ outcome (forEach ([str "/cloud/a.tar"]
                           ++ str "/cloud/b.tar" :: [str "/cloud/c.tar"])
                    (downloadAndImportFromCloud world) tt)
         = Exited 1).
Proof.
  intros world.
  assert (Hlocal : outcome (forEach [str "/images/a.tar"]
                              (importFromFile world) tt) = Returned tt)
    by reflexivity.
  assert (Hfail : import_failure world (str "/images/b.tar.gz")
                    (final (forEach [str "/images/a.tar"]
                              (importFromFile world) tt)))
    by (apply open_fails with (w1 := tt) (w2 := tt)
                              (err := Foreign (str "broken"));
        reflexivity).
  assert (Hcloud : outcome (forEach [str "/cloud/a.tar"]
                              (downloadAndImportFromCloud world) tt)
                   = Returned tt)
    by reflexivity.
  assert (Hcfail : cloud_import_failure world (str "/cloud/b.tar")
                     (final (forEach [str "/cloud/a.tar"]
                               (downloadAndImportFromCloud world) tt))).
  { apply downloaded_import_fails
      with (w1 := tt) (w2 := tt) (w3 := tt) (w4 := tt) (w5 := tt)
           (info := {| Name := str "b.tar"; IsDir := false |});
      try reflexivity.
    apply open_fails with (w1 := tt) (w2 := tt)
                          (err := Foreign (str "broken"));
      reflexivity. }
  destruct (import_failure_ends_the_invocation world
              [str "/images/a.tar"] [str "/images/c.tar"]
              (str "/images/b.tar.gz") tt) as [Himport _].
  destruct (import_failure_ends_the_invocation world
              [str "/cloud/a.tar"] [str "/cloud/c.tar"]
              (str "/cloud/b.tar") tt) as [_ Hdownload].
  destruct (Himport Hlocal Hfail) as (H1 & _ & H2).
  destruct (Hdownload Hcloud Hcfail) as (H3 & _).
  split; [split; [exact Hlocal | split; [exact Hfail | split; assumption]]|].
  split; [exact Hcloud | split; [exact Hcfail | exact H3]].
Defined.

(** ** Configuration *)

Section ConfigFacts.

Lemma negb_is_empty (s : gostring) : negb (is_empty s) = true <-> s <> [].
Proof. destruct s; simpl; split; congruence. Qed.

Lemma default_dir (s : gostring) :
  (if is_empty s then str "/" else s) = or_default s (str "/").
Proof. destruct s; reflexivity. Qed.

(** With the three variables set, the configuration is read off the
    environment and nothing is called. *)
Lemma GetBDFSConfig_environment (W : Type) (C : Collaborators W) (w : W) :
  environ C w (str "BDFS_CLIENT_ID") <> [] ->
  environ C w (str "BDFS_CLIENT_SECRET") <> [] ->
  environ C w (str "BDFS_TOKEN_PATH") <> [] ->
  GetBDFSConfig C w
  = mkRun [] w
      (Returned
         (Ok {| ClientID := environ C w (str "BDFS_CLIENT_ID");
                ClientSecret := environ C w (str "BDFS_CLIENT_SECRET");
                TokenPath := environ C w (str "BDFS_TOKEN_PATH");
                DefaultCloudDir :=
                  or_default (environ C w (str "BDFS_DEFAULT_CLOUD_DIR"))
                    (str "/") |})).
Proof.
  intros Hid Hsecret Htoken. unfold GetBDFSConfig. run_unfold.
  rewrite (proj2 (negb_is_empty _) Hid), (proj2 (negb_is_empty _) Hsecret),
    (proj2 (negb_is_empty _) Htoken).
  cbn [andb]. rewrite default_dir. reflexivity.
Qed.

End ConfigFacts.

(** C5.  When the client id, the client secret and the token path are all
    set in the environment, the configuration is built from the
    environment alone: no file is read and nothing else is called, the
    world is left as it was, and in any two worlds with the same
    environment, whatever their files hold, the resolved record is the
    same. *)
Theorem environment_takes_precedence :
  forall (W1 W2 : Type) (C1 : Collaborators W1) (C2 : Collaborators W2)
         (w1 : W1) (w2 : W2),
    environ C1 w1 (str "BDFS_CLIENT_ID") <> [] ->
    environ C1 w1 (str "BDFS_CLIENT_SECRET") <> [] ->
    environ C1 w1 (str "BDFS_TOKEN_PATH") <> [] ->
    (forall name, environ C1 w1 name = environ C2 w2 name) ->
    outcome (GetBDFSConfig C1 w1) = outcome (GetBDFSConfig C2 w2)
    /\ outcome (GetBDFSConfig C1 w1)
       = Returned
           (Ok {| ClientID := environ C1 w1 (str "BDFS_CLIENT_ID");
                  ClientSecret := environ C1 w1 (str "BDFS_CLIENT_SECRET");
                  TokenPath := environ C1 w1 (str "BDFS_TOKEN_PATH");
                  DefaultCloudDir :=
                    or_default (environ C1 w1 (str "BDFS_DEFAULT_CLOUD_DIR"))
                      (str "/") |})
    /\ trace (GetBDFSConfig C1 w1) = []
    /\ file_reads (trace (GetBDFSConfig C1 w1)) = []
    /\ final (GetBDFSConfig C1 w1) = w1.
Proof.
  intros W1 W2 C1 C2 w1 w2 Hid Hsecret Htoken Henv.
  rewrite (GetBDFSConfig_environment C1 w1 Hid Hsecret Htoken).
  rewrite (GetBDFSConfig_environment C2 w2).
  - simpl. rewrite !Henv. repeat split; reflexivity.
  - rewrite <- Henv. exact Hid.
  - rewrite <- Henv. exact Hsecret.
  - rewrite <- Henv. exact Htoken.
Qed.

Lemma environment_takes_precedence_witness :
  let env :=
    [(str "BDFS_CLIENT_ID", str "env-id");
     (str "BDFS_CLIENT_SECRET", str "env-secret");
     (str "BDFS_TOKEN_PATH", str "/env/token.json")] in
  let no_file :=
    Scenario.world
      {| Scenario.sc_env := env;
         Scenario.sc_images := [];
         Scenario.sc_picks := [];
         Scenario.sc_broken := [];
         Scenario.sc_walk := [];
         Scenario.sc_config_file := Fail (Foreign (str "no such file"));
         Scenario.sc_config := Fail (Foreign (str "no data")) |} in
  let other_file :=
    Scenario.world
      {| Scenario.sc_env := env;
         Scenario.sc_images := [];
         Scenario.sc_picks := [];
         Scenario.sc_broken := [];
         Scenario.sc_walk := [];
         Scenario.sc_config_file := Ok (str "client_id = 'file-id'");
         Scenario.sc_config :=
           Ok {| ClientID := str "file-id";
                 ClientSecret := str "file-secret";
                 TokenPath := str "/file/token.json";
                 DefaultCloudDir := str "/images" |} |} in
  environ no_file tt (str "BDFS_CLIENT_ID") <> []
  /\ environ no_file tt (str "BDFS_CLIENT_SECRET") <> []
  /\ environ no_file tt (str "BDFS_TOKEN_PATH") <> []
  /\ (forall name, environ no_file tt name = environ other_file tt name)
  /\ outcome (GetBDFSConfig no_file tt) = outcome (GetBDFSConfig other_file tt)
  /\ outcome (GetBDFSConfig other_file tt)
     = Returned (Ok {| ClientID := str "env-id";
                       ClientSecret := str "env-secret";
                       TokenPath := str "/env/token.json";
                       DefaultCloudDir := str "/" |}).
Proof.
  intros env no_file other_file.
  assert (Hid : environ no_file tt (str "BDFS_CLIENT_ID") <> [])
    by (vm_compute; discriminate).
  assert (Hsecret : environ no_file tt (str "BDFS_CLIENT_SECRET") <> [])
    by (vm_compute; discriminate).
  assert (Htoken : environ no_file tt (str "BDFS_TOKEN_PATH") <> [])
    by (vm_compute; discriminate).
  assert (Henv : forall name,
             environ no_file tt name = environ other_file tt name)
    by reflexivity.
  destruct (environment_takes_precedence no_file other_file tt tt
              Hid Hsecret Htoken Henv) as (Hsame & Hvalue & _).
  repeat (split; [assumption|]).
  rewrite <- Hsame, Hvalue. reflexivity.
Defined.

Section FileConfigFacts.
Variable W : Type.
Variable C : Collaborators W.

(** The run of the fallback, once the path is resolved and the file is
    read and parsed. *)
Lemma GetBDFSConfig_file (w w1 w2 w3 : W) (t : list Event)
  (path data : gostring) (config : BDFSConfig) :
  negb (is_empty (environ C w (str "BDFS_CLIENT_ID")))
  && negb (is_empty (environ C w (str "BDFS_CLIENT_SECRET")))
  && negb (is_empty (environ C w (str "BDFS_TOKEN_PATH"))) = false ->
  configFilePath C (environ C w) w = mkRun t w1 (Returned (Ok path)) ->
  answer C (ReadFile path) w1 = (w2, Ok data) ->
  answer C (Unmarshal data) w2 = (w3, Ok config) ->
  outcome (GetBDFSConfig C w)
  = if is_empty (ClientID config) || is_empty (ClientSecret config)
       || is_empty (TokenPath config)
    then Returned (Fail (Errorf missing_fields_format []))
    else Returned
           (Ok {| ClientID := ClientID config;
                  ClientSecret := ClientSecret config;
                  TokenPath := TokenPath config;
                  DefaultCloudDir :=
                    or_default (DefaultCloudDir config) (str "/") |}).
Proof.
  intros Henv Hpath Hread Hparse. unfold GetBDFSConfig. run_unfold.
  rewrite Henv, Hpath. run_unfold. rewrite Hread. run_unfold.
  rewrite Hparse. run_unfold.
  destruct (is_empty (ClientID config) || is_empty (ClientSecret config)
            || is_empty (TokenPath config));
    [reflexivity | rewrite default_dir; reflexivity].
Qed.

Lemma some_field_empty (config : BDFSConfig) :
  is_empty (ClientID config) || is_empty (ClientSecret config)
  || is_empty (TokenPath config) = true
  <-> ClientID config = [] \/ ClientSecret config = []
      \/ TokenPath config = [].
Proof. rewrite !orb_true_iff, !is_empty_nil. tauto. Qed.

Lemma configFilePath_error (env : Env) (w : W) :
  outcome (configFilePath C env w)
  <> Returned (Fail (Errorf missing_fields_format [])).
Proof.
  unfold configFilePath.
  destruct (is_empty (env (str "BDFS_CONFIG_FILE"))); run_unfold;
    [run_call|]; intros H; inversion H.
Qed.

(** The missing-fields error is returned in no other situation: not when
    the environment is complete, not when the home directory is unknown,
    not when the file cannot be read or parsed. *)
Lemma missing_fields_only_after_parsing (w : W) :
  outcome (GetBDFSConfig C w)
  = Returned (Fail (Errorf missing_fields_format [])) ->
  exists t w1 path w2 data w3 config,
    configFilePath C (environ C w) w = mkRun t w1 (Returned (Ok path))
    /\ answer C (ReadFile path) w1 = (w2, Ok data)
    /\ answer C (Unmarshal data) w2 = (w3, Ok config)
    /\ (ClientID config = [] \/ ClientSecret config = []
        \/ TokenPath config = []).
Proof.
  unfold GetBDFSConfig. run_unfold.
  destruct (negb (is_empty (environ C w (str "BDFS_CLIENT_ID")))
            && negb (is_empty (environ C w (str "BDFS_CLIENT_SECRET")))
            && negb (is_empty (environ C w (str "BDFS_TOKEN_PATH"))));
    [intros H; discriminate H|].
  pose proof (configFilePath_error (environ C w) w) as Hpath.
  destruct (configFilePath C (environ C w) w) as [t w1 [[path|e]| |]];
    run_unfold; try (intros H; discriminate H).
  - destruct (answer C (ReadFile path) w1) as [w2 [data|e]] eqn:Hread;
      run_unfold.
    + destruct (answer C (Unmarshal data) w2) as [w3 [config|e]] eqn:Hparse;
        run_unfold.
      * destruct (is_empty (ClientID config)
                  || is_empty (ClientSecret config)
                  || is_empty (TokenPath config)) eqn:Hempty;
          intros H; [|discriminate H].
        exists t, w1, path, w2, data, w3, config.
        repeat split; try reflexivity; try assumption.
        apply some_field_empty. exact Hempty.
      * intros H. inversion H.
    + intros H. inversion H.
  - intros H. simpl in Hpath. congruence.
Qed.

End FileConfigFacts.

(** C6.  When the configuration falls back to the file, and the file is
    read and parsed, the resolution fails with the missing-fields error if
    and only if the client id, the client secret or the token path is empty
    in what was parsed; otherwise it succeeds with the parsed fields, and
    the default cloud directory of the resolved record is "/" when the
    parsed one is empty. *)
Theorem file_fallback_requires_the_three_fields :
  forall (W : Type) (C : Collaborators W) (w w1 w2 w3 : W) (t : list Event)
         (path data : gostring) (config : BDFSConfig),
    negb (is_empty (environ C w (str "BDFS_CLIENT_ID")))
    && negb (is_empty (environ C w (str "BDFS_CLIENT_SECRET")))
    && negb (is_empty (environ C w (str "BDFS_TOKEN_PATH"))) = false ->
    configFilePath C (environ C w) w = mkRun t w1 (Returned (Ok path)) ->
    answer C (ReadFile path) w1 = (w2, Ok data) ->
    answer C (Unmarshal data) w2 = (w3, Ok config) ->
    (outcome (GetBDFSConfig C w)
     = Returned (Fail (Errorf missing_fields_format []))
     <-> ClientID config = [] \/ ClientSecret config = []
         \/ TokenPath config = [])
    /\ (~ (ClientID config = [] \/ ClientSecret config = []
           \/ TokenPath config = []) ->
        outcome (GetBDFSConfig C w)
        = Returned
            (Ok {| ClientID := ClientID config;
                   ClientSecret := ClientSecret config;
                   TokenPath := TokenPath config;
                   DefaultCloudDir :=
                     or_default (DefaultCloudDir config) (str "/") |}))
    /\ (forall resolved,
           outcome (GetBDFSConfig C w) = Returned (Ok resolved) ->
           DefaultCloudDir config = [] ->
           DefaultCloudDir resolved = str "/").
Proof.
  intros W C w w1 w2 w3 t path data config Henv Hpath Hread Hparse.
  rewrite (GetBDFSConfig_file C w Henv Hpath Hread Hparse).
  rewrite <- some_field_empty.
  destruct (is_empty (ClientID config) || is_empty (ClientSecret config)
            || is_empty (TokenPath config)).
  - split; [tauto|]. split; [intros H; exfalso; apply H; reflexivity|].
    intros resolved H. discriminate H.
  - split; [split; intros H; discriminate H|].
    split; [reflexivity|].
    intros resolved H Hdir. inversion H; subst. simpl.
    rewrite Hdir. reflexivity.
Qed.

Lemma file_fallback_requires_the_three_fields_witness :
  let parsed :=
    {| ClientID := str "file-id";
       ClientSecret := str "file-secret";
       TokenPath := str "/file/token.json";
       DefaultCloudDir := [] |} in
  let world :=
    Scenario.world
      {| Scenario.sc_env := [(str "BDFS_CLIENT_ID", str "env-id")];
         Scenario.sc_images := [];
         Scenario.sc_picks := [];
         Scenario.sc_broken := [];
         Scenario.sc_walk := [];
         Scenario.sc_config_file := Ok (str "client_id = 'file-id'");
         Scenario.sc_config := Ok parsed |} in
  let path := str "/root/.local/app/dkci/config.toml" in
  negb (is_empty (environ world tt (str "BDFS_CLIENT_ID")))
  && negb (is_empty (environ world tt (str "BDFS_CLIENT_SECRET")))
  && negb (is_empty (environ world tt (str "BDFS_TOKEN_PATH"))) = false
  /\ configFilePath world (environ world tt) tt
     = mkRun [Called UserHomeDir] tt (Returned (Ok path))
  /\ answer world (ReadFile path) tt = (tt, Ok (str "client_id = 'file-id'"))
  /\ answer world (Unmarshal (str "client_id = 'file-id'")) tt
     = (tt, Ok parsed)
  /\ outcome (GetBDFSConfig world tt)
     = Returned (Ok {| ClientID := str "file-id";
                       ClientSecret := str "file-secret";
                       TokenPath := str "/file/token.json";
                       DefaultCloudDir := str "/" |}).
Proof.
  intros parsed world path.
  assert (Henv :
            negb (is_empty (environ world tt (str "BDFS_CLIENT_ID")))
            && negb (is_empty (environ world tt (str "BDFS_CLIENT_SECRET")))
            && negb (is_empty (environ world tt (str "BDFS_TOKEN_PATH")))
            = false) by reflexivity.
  assert (Hpath : configFilePath world (environ world tt) tt
                  = mkRun [Called UserHomeDir] tt (Returned (Ok path)))
    by reflexivity.
  assert (Hread : answer world (ReadFile path) tt
                  = (tt, Ok (str "client_id = 'file-id'"))) by reflexivity.
  assert (Hparse : answer world (Unmarshal (str "client_id = 'file-id'")) tt
                   = (tt, Ok parsed)) by reflexivity.
  destruct (file_fallback_requires_the_three_fields world tt
              Henv Hpath Hread Hparse) as (_ & Hok & _).
  repeat (split; [assumption|]).
  rewrite Hok; [reflexivity|].
  intros [H|[H|H]]; discriminate H.
Defined.

(** ** The menus *)

Section MenuFacts.
Variable W : Type.
Variable C : Collaborators W.

Lemma flat_map_nothing (A B : Type) (l : list A) :
  flat_map (fun _ : A => @nil B) l = [].
Proof. induction l; simpl; auto. Qed.

Lemma ExportImage_menus (imageName destination : gostring) (w : W) :
  menus (trace (ExportImage C imageName destination w)) = [].
Proof. unfold ExportImage. run_calls; reflexivity. Qed.

Lemma DeleteImage_menus (imageName : gostring) (w : W) :
  menus (trace (DeleteImage C imageName w)) = [].
Proof. unfold DeleteImage. run_calls; reflexivity. Qed.

Lemma export_loop_menus (destination : gostring) (l : list gostring)
  (w : W) :
  menus (trace (forEach l (fun imageName =>
                             ExportImage C imageName destination) w))
  = [].
Proof.
  unfold menus.
  rewrite (forEach_observed _ _ (fun _ => [])).
  - apply flat_map_nothing.
  - intros. apply ExportImage_returns.
  - intros. apply ExportImage_menus.
Qed.

Lemma delete_loop_menus (l : list gostring) (w : W) :
  menus (trace (forEach l (DeleteImage C) w)) = [].
Proof.
  unfold menus.
  rewrite (forEach_observed _ _ (fun _ => [])).
  - apply flat_map_nothing.
  - intros. apply DeleteImage_returns.
  - intros. apply DeleteImage_menus.
Qed.

Lemma ExportImages_options_exclude_none (env : Env) images :
  ~ In none_tag (image_selections (ExportImages_imageNames env images)).
Proof.
  apply selections_exclude_none.
  rewrite ExportImages_imageNames_filter. apply candidates_exclude_none.
Qed.

Lemma DeleteImages_options_exclude_none (pat : gostring) images :
  ~ In none_tag (image_selections (DeleteImages_imageNames pat images)).
Proof.
  apply selections_exclude_none.
  rewrite DeleteImages_imageNames_filter. apply candidates_exclude_none.
Qed.

(** No menu the local export shows offers "<none>:<none>". *)
Lemma ExportImages_menus (destination : gostring) (w : W) :
  Forall (fun options => ~ In none_tag options)
    (menus (trace (ExportImages C destination w))).
Proof.
  unfold ExportImages. run_unfold.
  repeat first [run_call | run_if];
    try match goal with
        | |- context [forEach ?l ?body ?w] =>
            pose proof (export_loop_menus destination l w) as Hloop;
            destruct (forEach l body w) as [t' w' o]; simpl in Hloop
        end;
    simpl; try rewrite Hloop;
    repeat constructor; apply ExportImages_options_exclude_none.
Qed.

(** Nor does a menu of the delete. *)
Lemma DeleteImages_menus (grepPattern : gostring) (w : W) :
  Forall (fun options => ~ In none_tag options)
    (menus (trace (DeleteImages C grepPattern w))).
Proof.
  unfold DeleteImages. run_unfold.
  repeat first [run_call | run_if];
    try match goal with
        | |- context [forEach ?l ?body ?w] =>
            pose proof (delete_loop_menus l w) as Hloop;
            destruct (forEach l body w) as [t' w' o]; simpl in Hloop
        end;
    simpl; try rewrite Hloop;
    repeat constructor; apply DeleteImages_options_exclude_none.
Qed.

Lemma ExportImageToCloud_returns (imageName cloudPath : gostring) (w : W) :
  outcome (ExportImageToCloud C imageName cloudPath w) = Returned tt.
Proof. unfold ExportImageToCloud. run_calls; reflexivity. Qed.

Lemma ExportImageToCloud_menus (imageName cloudPath : gostring) (w : W) :
  menus (trace (ExportImageToCloud C imageName cloudPath w)) = [].
Proof. unfold ExportImageToCloud. run_calls; reflexivity. Qed.

Lemma cloud_export_loop_menus (cloudPath : gostring) (l : list gostring)
  (w : W) :
  menus (trace (forEach l (fun imageName =>
                             ExportImageToCloud C imageName cloudPath) w))
  = [].
Proof.
  unfold menus.
  rewrite (forEach_observed _ _ (fun _ => [])).
  - apply flat_map_nothing.
  - intros. apply ExportImageToCloud_returns.
  - intros. apply ExportImageToCloud_menus.
Qed.

Lemma login_menus (w : W) : menus (trace (login C w)) = [].
Proof.
  unfold login, GetBDFSConfig, configFilePath. run_unfold.
  repeat first [run_call | run_if]; reflexivity.
Qed.

Lemma ExportImagesToCloud_options_exclude_none (env : Env) images :
  ~ In none_tag
      (image_selections (ExportImagesToCloud_imageNames env images)).
Proof.
  apply selections_exclude_none.
  rewrite ExportImagesToCloud_imageNames_filter.
  apply candidates_exclude_none.
Qed.

(** Nor does a menu of the cloud export. *)
Lemma ExportImagesToCloud_menus (cloudPath : gostring) (w : W) :
  Forall (fun options => ~ In none_tag options)
    (menus (trace (ExportImagesToCloud C cloudPath w))).
Proof.
  unfold ExportImagesToCloud. run_unfold.
  pose proof (login_menus w) as Hlogin.
  destruct (login C w) as [t0 w0 [[]| |]]; simpl in Hlogin;
    run_unfold; try (rewrite Hlogin; constructor).
  repeat first [run_call | run_if];
    try match goal with
        | |- context [forEach ?l ?body ?w] =>
            pose proof (cloud_export_loop_menus cloudPath l w) as Hloop;
            destruct (forEach l body w) as [t' w' o]; simpl in Hloop
        end;
    unfold menus in *; rewrite flat_map_app, Hlogin;
    simpl; try rewrite Hloop;
    repeat constructor; apply ExportImagesToCloud_options_exclude_none.
Qed.

End MenuFacts.

(** C10.  In local export, delete and cloud export alike the candidate
    list is the daemon's listing, in order, without the references equal
    to "<none>:<none>" and without those the pattern rejects; so
    "<none>:<none>" is never a candidate, never an option of the menu
    built from the candidates, and no menu that one of the three commands
    shows, in any world, offers it. *)
Theorem none_tags_are_never_candidates :
  forall (env : Env) (grepPattern : gostring) (images : list ImageSummary),
    let pattern := env (str "DKCI_GREP_PATTERN") in
    (ExportImages_imageNames env images
       = filter (image_candidate pattern) (listed_tags images)
     /\ ExportImagesToCloud_imageNames env images
       = filter (image_candidate pattern) (listed_tags images)
     /\ DeleteImages_imageNames grepPattern images
       = filter (image_candidate grepPattern) (listed_tags images))
    /\ (~ In none_tag (ExportImages_imageNames env images)
        /\ ~ In none_tag (ExportImagesToCloud_imageNames env images)
        /\ ~ In none_tag (DeleteImages_imageNames grepPattern images))
    /\ (~ In none_tag (image_selections (ExportImages_imageNames env images))
        /\ ~ In none_tag
             (image_selections (ExportImagesToCloud_imageNames env images))
        /\ ~ In none_tag
             (image_selections (DeleteImages_imageNames grepPattern images)))
    /\ (forall (W : Type) (C : Collaborators W) (path : gostring) (w : W),
           Forall (fun options => ~ In none_tag options)
             (menus (trace (ExportImages C path w)))
           /\ Forall (fun options => ~ In none_tag options)
                (menus (trace (ExportImagesToCloud C path w)))
           /\ Forall (fun options => ~ In none_tag options)
                (menus (trace (DeleteImages C grepPattern w)))).
Proof.
  intros env grepPattern images pattern. subst pattern.
  split; [|split; [|split]].
  - split; [apply ExportImages_imageNames_filter|].
    split; [apply ExportImagesToCloud_imageNames_filter
           |apply DeleteImages_imageNames_filter].
  - rewrite ExportImages_imageNames_filter,
      ExportImagesToCloud_imageNames_filter, DeleteImages_imageNames_filter.
    repeat split; apply candidates_exclude_none.
  - split; [apply ExportImages_options_exclude_none|].
    split; [apply ExportImagesToCloud_options_exclude_none
           |apply DeleteImages_options_exclude_none].
  - intros W C path w.
    split; [apply ExportImages_menus|].
    split; [apply ExportImagesToCloud_menus | apply DeleteImages_menus].
Qed.


(** * Further properties *)

(** ** Configuration *)

Section ConfigExtras.
Variable W : Type.
Variable C : Collaborators W.

Lemma or_default_nonempty (part default : gostring) :
  default <> [] -> or_default part default <> [].
Proof. destruct part; simpl; [tauto | discriminate]. Qed.

Lemma default_dir_nonempty (s : gostring) :
  (if is_empty s then str "/" else s) <> [].
Proof. destruct s; simpl; discriminate. Qed.

Lemma andb3_negb_empty (a b c : gostring) :
  negb (is_empty a) && negb (is_empty b) && negb (is_empty c) = true ->
  a <> [] /\ b <> [] /\ c <> [].
Proof.
  rewrite !andb_true_iff, !negb_is_empty. tauto.
Qed.

Lemma orb3_empty_false (a b c : gostring) :
  is_empty a || is_empty b || is_empty c = false ->
  a <> [] /\ b <> [] /\ c <> [].
Proof.
  rewrite !orb_false_iff. intros [[Ha Hb] Hc].
  destruct a, b, c; try discriminate. repeat split; discriminate.
Qed.

Lemma GetBDFSConfig_usable (w : W) (config : BDFSConfig) :
  outcome (GetBDFSConfig C w) = Returned (Ok config) ->
  ClientID config <> [] /\ ClientSecret config <> []
  /\ TokenPath config <> [] /\ DefaultCloudDir config <> [].
Proof.
  unfold GetBDFSConfig, configFilePath. run_unfold.
  destruct (negb (is_empty (environ C w (str "BDFS_CLIENT_ID")))
            && negb (is_empty (environ C w (str "BDFS_CLIENT_SECRET")))
            && negb (is_empty (environ C w (str "BDFS_TOKEN_PATH"))))
    eqn:Henv.
  - intros H. inversion H; subst; simpl.
    destruct (andb3_negb_empty _ _ _ Henv) as (H1 & H2 & H3).
    repeat split; try assumption. apply default_dir_nonempty.
  - destruct (is_empty (environ C w (str "BDFS_CONFIG_FILE"))); run_unfold;
      repeat run_call; try (intros H; discriminate H);
      match goal with
      | |- context [is_empty (ClientID ?c) || _ || _] =>
          destruct (is_empty (ClientID c) || is_empty (ClientSecret c)
                    || is_empty (TokenPath c)) eqn:Hreq
      end;
      intros H; try discriminate H; inversion H; subst; simpl;
      destruct (orb3_empty_false _ _ _ Hreq) as (H1 & H2 & H3);
      repeat split; try assumption; apply default_dir_nonempty.
Qed.

(** X1.  Whatever the environment and the file hold, a configuration that
    GetBDFSConfig returns without error has a client id, a client secret
    and a token path that are not empty, and a default cloud directory
    that is not empty either. *)
Theorem resolved_config_is_usable :
  forall (w : W) (config : BDFSConfig),
    outcome (GetBDFSConfig C w) = Returned (Ok config) ->
    ClientID config <> [] /\ ClientSecret config <> []
    /\ TokenPath config <> [] /\ DefaultCloudDir config <> [].
Proof.
  intros w config. apply GetBDFSConfig_usable.
Qed.

(** X2.  When the environment is incomplete and BDFS_CONFIG_FILE is set,
    the file it names is the one file that is read and the home directory
    is not looked up; when it is not set, the home directory is looked up
    once and the file read, if any, is config.toml under .local/app/dkci
    of that directory. *)
Theorem config_file_location :
  forall (w : W),
    negb (is_empty (environ C w (str "BDFS_CLIENT_ID")))
    && negb (is_empty (environ C w (str "BDFS_CLIENT_SECRET")))
    && negb (is_empty (environ C w (str "BDFS_TOKEN_PATH"))) = false ->
    (environ C w (str "BDFS_CONFIG_FILE") <> [] ->
     file_reads (trace (GetBDFSConfig C w))
     = [environ C w (str "BDFS_CONFIG_FILE")]
     /\ home_lookups (trace (GetBDFSConfig C w)) = 0)
    /\ (environ C w (str "BDFS_CONFIG_FILE") = [] ->
        home_lookups (trace (GetBDFSConfig C w)) = 1
        /\ match snd (answer C UserHomeDir w) with
           | Ok homeDir =>
               file_reads (trace (GetBDFSConfig C w))
               = [Join C [homeDir; str ".local"; str "app"; str "dkci";
                          str "config.toml"]]
           | Fail err =>
               file_reads (trace (GetBDFSConfig C w)) = []
               /\ outcome (GetBDFSConfig C w)
                  = Returned
                      (Fail (Errorf (str "failed to get home directory: %v")
                               [VError err]))
           end).
Proof.
  intros w Henv. unfold GetBDFSConfig, configFilePath. run_unfold.
  rewrite Henv. split.
  - intros Hfile. apply negb_is_empty in Hfile.
    apply negb_true_iff in Hfile. rewrite Hfile. run_unfold.
    repeat run_call;
      repeat match goal with
             | |- context [if ?b then _ else _] => destruct b
             end; split; reflexivity.
  - intros Hfile. rewrite Hfile. cbn [is_empty]. run_unfold.
    destruct (answer C UserHomeDir w) as [w1 [homeDir|err]] eqn:Hhome;
      run_unfold; cbn [snd].
    + repeat run_call;
        repeat match goal with
               | |- context [if ?b then _ else _] => destruct b
               end; split; reflexivity.
    + repeat split; reflexivity.
Qed.

Lemma configFilePath_parses (env : Env) (w : W) :
  parses (trace (configFilePath C env w)) = [].
Proof.
  unfold configFilePath. repeat first [run_call | run_if]; reflexivity.
Qed.

(** X3.  In the fallback to the file, a file that cannot be read gives the
    error "failed to read config file" with the path and the cause, and
    nothing is parsed; a file that cannot be parsed gives the error
    "failed to parse config file" with the cause.  In neither case does
    GetBDFSConfig end the process: the error is returned. *)
Theorem config_file_errors :
  forall (w w1 w2 : W) (t : list Event) (path : gostring),
    negb (is_empty (environ C w (str "BDFS_CLIENT_ID")))
    && negb (is_empty (environ C w (str "BDFS_CLIENT_SECRET")))
    && negb (is_empty (environ C w (str "BDFS_TOKEN_PATH"))) = false ->
    configFilePath C (environ C w) w = mkRun t w1 (Returned (Ok path)) ->
    (forall err,
        answer C (ReadFile path) w1 = (w2, Fail err) ->
        outcome (GetBDFSConfig C w)
        = Returned (Fail (Errorf (str "failed to read config file %s: %v")
                            [VString path; VError err]))
        /\ parses (trace (GetBDFSConfig C w)) = [])
    /\ (forall data w3 err,
           answer C (ReadFile path) w1 = (w2, Ok data) ->
           answer C (Unmarshal data) w2 = (w3, Fail err) ->
           outcome (GetBDFSConfig C w)
           = Returned (Fail (Errorf (str "failed to parse config file: %v")
                               [VError err]))).
Proof.
  intros w w1 w2 t path Henv Hpath. split.
  - intros err Hread. unfold GetBDFSConfig. run_unfold.
    rewrite Henv, Hpath. run_unfold. rewrite Hread.
    split; [reflexivity|]. unfold parses. simpl.
    rewrite flat_map_app. simpl. rewrite app_nil_r.
    pose proof (configFilePath_parses (environ C w) w) as Hp.
    rewrite Hpath in Hp. exact Hp.
  - intros data w3 err Hread Hparse. unfold GetBDFSConfig. run_unfold.
    rewrite Henv, Hpath. run_unfold. rewrite Hread. run_unfold.
    rewrite Hparse. reflexivity.
Qed.

(** GetBDFSConfig never ends the process. *)
Lemma GetBDFSConfig_returns (w : W) :
  exists r, outcome (GetBDFSConfig C w) = Returned r.
Proof.
  unfold GetBDFSConfig, configFilePath. run_unfold.
  repeat first [run_call | run_if]; eexists; reflexivity.
Qed.

End ConfigExtras.

(** ** File names and the way back *)

Section NamingExtras.

Lemma split_colon_free (s : gostring) :
  colon_free s -> Split s (str ":") = [s].
Proof.
  unfold Split, colon_free. change (str ":") with [":"%char].
  induction s as [|x s IH]; intros H; [reflexivity|].
  cbn [split_from HasPrefix length Nat.sub].
  rewrite HasPrefix_nil, andb_true_r.
  destruct (byte_eqb x ":"%char) eqn:E.
  - apply byte_eqb_eq in E. subst x. exfalso. apply H. left. reflexivity.
  - rewrite IH; [reflexivity|].
    intros Hin. apply H. right. exact Hin.
Qed.

Lemma split_first_colon (a b : gostring) :
  colon_free a ->
  Split (a ++ ":"%char :: b) (str ":") = a :: Split b (str ":").
Proof.
  unfold Split, colon_free. change (str ":") with [":"%char].
  induction a as [|x a IH]; intros H.
  - cbn [app split_from HasPrefix length Nat.sub].
    rewrite HasPrefix_nil. reflexivity.
  - cbn [app split_from HasPrefix length Nat.sub].
    rewrite HasPrefix_nil, andb_true_r.
    destruct (byte_eqb x ":"%char) eqn:E.
    + apply byte_eqb_eq in E. subst x. exfalso. apply H. left. reflexivity.
    + rewrite IH; [reflexivity|].
      intros Hin. apply H. right. exact Hin.
Qed.

(** X4.  For a reference "name:tag" with no other colon the export file
    name is built from the name before the colon and the tag after it, and
    for a reference without colon from the whole reference and the tag
    "latest"; when the tag, the operating system and the architecture hold
    no '/', that file name holds none. *)
Theorem single_colon_reference_name :
  forall (name tag osInfo archInfo : gostring),
    colon_free name -> colon_free tag ->
    ExportImage_tarFileName (name ++ str ":" ++ tag) osInfo archInfo
    = tarFileName name tag osInfo archInfo
    /\ ExportImage_tarFileName name osInfo archInfo
       = tarFileName name [] osInfo archInfo
    /\ (~ In slash tag -> ~ In slash osInfo -> ~ In slash archInfo ->
        ~ In slash
            (ExportImage_tarFileName (name ++ str ":" ++ tag)
               osInfo archInfo)).
Proof.
  intros name tag osInfo archInfo Hname Htag.
  assert (H1 : ExportImage_tarFileName (name ++ str ":" ++ tag)
                 osInfo archInfo
               = tarFileName name tag osInfo archInfo).
  { unfold ExportImage_tarFileName, imageNameOnly, tagOf, nameParts.
    change (name ++ str ":" ++ tag) with (name ++ ":"%char :: tag).
    rewrite (split_first_colon tag Hname), (split_colon_free Htag).
    reflexivity. }
  split; [exact H1|]. split.
  - unfold ExportImage_tarFileName, imageNameOnly, tagOf, nameParts.
    rewrite (split_colon_free Hname). reflexivity.
  - intros Ht Ho Ha. rewrite H1. apply tarFileName_no_slash; assumption.
Qed.

Lemma tarFileName_stem (name tag osInfo archInfo : gostring) :
  tarFileName name tag osInfo archInfo
  = stem name tag osInfo archInfo ++ str ".tar".
Proof.
  rewrite tarFileName_eq. unfold stem. repeat rewrite <- app_assoc.
  reflexivity.
Qed.

Lemma stem_no_slash (name tag osInfo archInfo : gostring) :
  ~ In slash tag -> ~ In slash osInfo -> ~ In slash archInfo ->
  ~ In slash (stem name tag osInfo archInfo).
Proof.
  intros Ht Ho Ha H.
  apply (@tarFileName_no_slash name tag osInfo archInfo Ht Ho Ha).
  rewrite tarFileName_stem, in_app_iff. left. exact H.
Qed.

Lemma has_tar_suffix_tar (front : gostring) :
  has_tar_suffix (ToLower (front ++ str ".tar")) = true.
Proof.
  unfold has_tar_suffix. rewrite ToLower_app.
  rewrite (proj2 (HasSuffix_app (ToLower front ++ ToLower (str ".tar"))
                    (str ".tar")))
    by (exists (ToLower front); reflexivity).
  reflexivity.
Qed.

(** X5.  Every file name the export computes passes the suffix test of the
    import: a file of that name in a walked directory, and a cloud entry
    whose path ends in that name, are tar candidates when no pattern is
    given. *)
Theorem exported_files_are_import_candidates :
  forall (imageName osInfo archInfo : gostring) (c : WalkCall)
         (cloudDir : gostring),
    walk_err c = None ->
    IsDir (walk_info c) = false ->
    Name (walk_info c) = ExportImage_tarFileName imageName osInfo archInfo ->
    findTarFilesInDirectory [c] [] = inl [walk_path c]
    /\ ImportImagesFromCloud_tarFiles
         [{| Path := cloudDir ++ slash
                     :: ExportImageToCloud_tarFileName imageName
                          osInfo archInfo |}] []
       = [{| Path := cloudDir ++ slash
                     :: ExportImageToCloud_tarFileName imageName
                          osInfo archInfo |}].
Proof.
  intros imageName osInfo archInfo c cloudDir Herr Hdir Hname. split.
  - rewrite findTarFilesInDirectory_filter by (repeat constructor; exact Herr).
    simpl. unfold local_candidate. rewrite Hdir, Hname.
    unfold ExportImage_tarFileName. rewrite tarFileName_stem.
    rewrite has_tar_suffix_tar. reflexivity.
  - rewrite ImportImagesFromCloud_tarFiles_filter. simpl.
    unfold cloud_candidate. simpl Path.
    unfold ExportImageToCloud_tarFileName. rewrite tarFileName_stem.
    change (cloudDir ++ slash :: ?x ++ str ".tar")
      with (cloudDir ++ (slash :: x) ++ str ".tar").
    rewrite app_assoc, has_tar_suffix_tar. reflexivity.
Qed.

End NamingExtras.

Section RoundTripExtras.

Lemma Contains_stem (name tag osInfo archInfo pat : gostring) :
  Contains name pat = true -> ~ In slash pat ->
  Contains (stem name tag osInfo archInfo) pat = true.
Proof.
  intros H Hpat. destruct (Contains_elim _ _ H) as (a & b & ->).
  unfold stem. rewrite !sanitized_app, (sanitized_id pat Hpat).
  repeat rewrite <- app_assoc. apply Contains_intro.
Qed.

(** X6.  An image whose name portion contains the pattern is found again
    by the import under the same pattern, when the pattern holds no '/':
    the exported file, in any directory, passes the pattern test of the
    directory import and of the cloud import (tag and platform without
    '/'). *)
Theorem exported_image_is_found_by_the_same_pattern :
  forall (dir name tag osInfo archInfo grepPattern : gostring),
    Contains name grepPattern = true ->
    ~ In slash grepPattern ->
    ~ In slash tag -> ~ In slash osInfo -> ~ In slash archInfo ->
    let path := dir ++ slash :: tarFileName name tag osInfo archInfo in
    baseName path = stem name tag osInfo archInfo
    /\ findTarFilesInDirectory
         [{| walk_path := path;
             walk_info :=
               {| Name := tarFileName name tag osInfo archInfo;
                  IsDir := false |};
             walk_err := None |}] grepPattern
       = inl [path]
    /\ ImportImagesFromCloud_tarFiles [{| Path := path |}] grepPattern
       = [{| Path := path |}].
Proof.
  intros dir name tag osInfo archInfo pat Hc Hpat Ht Ho Ha path.
  assert (Hbase : baseName path = stem name tag osInfo archInfo).
  { subst path. rewrite tarFileName_stem.
    apply baseName_in_directory. apply stem_no_slash; assumption. }
  assert (Hmatch : matches_spec (baseName path) pat = true).
  { rewrite Hbase, matches_spec_Contains. apply Contains_stem; assumption. }
  split; [exact Hbase|]. split.
  - rewrite findTarFilesInDirectory_filter by (repeat constructor).
    simpl. unfold local_candidate. simpl. rewrite Hmatch.
    rewrite tarFileName_stem, has_tar_suffix_tar. reflexivity.
  - rewrite ImportImagesFromCloud_tarFiles_filter. simpl.
    unfold cloud_candidate. simpl Path. rewrite Hmatch.
    subst path. rewrite tarFileName_stem.
    change (dir ++ slash :: ?x ++ str ".tar")
      with (dir ++ (slash :: x) ++ str ".tar").
    rewrite app_assoc, has_tar_suffix_tar. reflexivity.
Qed.

Lemma TrimSuffix_In (s suffix : gostring) (c : ascii) :
  In c (TrimSuffix s suffix) -> In c s.
Proof.
  unfold TrimSuffix. destruct (HasSuffix s suffix); [|tauto].
  intros H. rewrite <- (firstn_skipn (length s - length suffix) s).
  rewrite in_app_iff. left. exact H.
Qed.

Lemma Base_slash_last (path : gostring) :
  Base path = [slash] -> exists front, path = front ++ [slash].
Proof.
  unfold Base. destruct path as [|c path]; [discriminate|].
  destruct (rev (c :: path)) as [|x r] eqn:Er.
  - apply (f_equal (@rev ascii)) in Er. rewrite rev_involutive in Er.
    discriminate Er.
  - intros H.
    assert (Hp : c :: path = rev r ++ [x]).
    { rewrite <- (rev_involutive (c :: path)), Er. reflexivity. }
    destruct (IsPathSeparator x) eqn:E.
    + apply separator_slash in E. subst x. exists (rev r). exact Hp.
    + exfalso. simpl in H. rewrite E in H. simpl in H. rewrite E in H.
      simpl in H.
      destruct (rev (take_element r)) as [|y l] eqn:El; simpl in H.
      * inversion H. subst x.
        rewrite (proj2 (separator_slash slash) eq_refl) in E. discriminate.
      * inversion H as [[Hy Hl]]. destruct l; discriminate Hl.
Qed.

Lemma tar_suffix_not_slash_last (front : gostring) :
  has_tar_suffix (ToLower (front ++ [slash])) = false.
Proof.
  unfold has_tar_suffix.
  assert (H : forall ext last, last <> slash ->
                HasSuffix (ToLower (front ++ [slash])) (ext ++ [last])
                = false).
  { intros ext last Hl.
    destruct (HasSuffix (ToLower (front ++ [slash])) (ext ++ [last])) eqn:E;
      [|reflexivity].
    apply HasSuffix_app in E. destruct E as [f E].
    rewrite ToLower_app, app_assoc in E. apply app_inj_tail in E.
    destruct E as [_ E]. exfalso. apply Hl. symmetry. exact E. }
  change (str ".tar") with (str ".ta" ++ ["r"%char]).
  change (str ".tar.gz") with (str ".tar.g" ++ ["z"%char]).
  change (str ".tgz") with (str ".tg" ++ ["z"%char]).
  rewrite (H (str ".ta") "r"%char), (H (str ".tar.g") "z"%char),
    (H (str ".tg") "z"%char) by discriminate.
  reflexivity.
Qed.

Lemma cloud_candidate_slash_pattern (pat : gostring) (f : PanFileInfo) :
  In slash pat -> cloud_candidate pat f = false.
Proof.
  intros Hpat. destruct (cloud_candidate pat f) eqn:E; [|reflexivity].
  exfalso. unfold cloud_candidate in E. apply andb_true_iff in E.
  destruct E as [Hsuffix Hmatch].
  rewrite matches_spec_Contains in Hmatch.
  pose proof (TrimSuffix_In _ _ _ (Contains_In _ _ _ Hmatch Hpat)) as Hin.
  destruct (Base_no_slash (Path f)) as [Hb|Hb]; [|tauto].
  destruct (Base_slash_last _ Hb) as [front Hf].
  rewrite Hf, tar_suffix_not_slash_last in Hsuffix. discriminate.
Qed.

Lemma local_candidate_slash_pattern (pat : gostring) (c : WalkCall) :
  In slash pat -> Name (walk_info c) = Base (walk_path c) ->
  local_candidate pat c = false.
Proof.
  intros Hpat Hname. destruct (local_candidate pat c) eqn:E; [|reflexivity].
  exfalso. unfold local_candidate in E. rewrite !andb_true_iff in E.
  destruct E as [[_ Hsuffix] Hmatch].
  rewrite matches_spec_Contains in Hmatch.
  pose proof (TrimSuffix_In _ _ _ (Contains_In _ _ _ Hmatch Hpat)) as Hin.
  destruct (Base_no_slash (walk_path c)) as [Hb|Hb]; [|tauto].
  rewrite Hname, Hb in Hsuffix. discriminate Hsuffix.
Qed.

Lemma filter_nothing (A : Type) (f : A -> bool) (l : list A) :
  (forall x, In x l -> f x = false) -> filter f l = [].
Proof.
  induction l as [|x l IH]; intros H; [reflexivity|]. simpl.
  rewrite (H x) by (left; reflexivity). apply IH.
  intros y Hy. apply H. right. exact Hy.
Qed.

(** X7.  A pattern that holds a '/' selects no file at all in an import:
    the pattern is matched against a base name, which holds none.  So a
    pattern such as "my/app", which selects the image at export, finds
    nothing in the directory or cloud listing, whatever it holds. *)
Theorem slash_pattern_selects_no_file :
  forall (calls : list WalkCall) (files : list PanFileInfo)
         (grepPattern : gostring),
    In slash grepPattern ->
    Forall (fun c => walk_err c = None
                     /\ Name (walk_info c) = Base (walk_path c)) calls ->
    findTarFilesInDirectory calls grepPattern = inl []
    /\ ImportImagesFromCloud_tarFiles files grepPattern = [].
Proof.
  intros calls files pat Hpat Hcalls. split.
  - rewrite findTarFilesInDirectory_filter.
    + rewrite filter_nothing; [reflexivity|].
      intros c Hc. rewrite Forall_forall in Hcalls.
      apply local_candidate_slash_pattern; [exact Hpat|].
      apply (Hcalls c Hc).
    + eapply Forall_impl; [|exact Hcalls]. intros c [H _]. exact H.
  - rewrite ImportImagesFromCloud_tarFiles_filter.
    apply filter_nothing. intros f _.
    apply cloud_candidate_slash_pattern. exact Hpat.
Qed.

End RoundTripExtras.

(** ** From the selected names back to the paths *)

Section MappingExtras.

Lemma selectedFilePaths_flat_map (tarFiles selected : list gostring) :
  selectedFilePaths tarFiles selected
  = flat_map (first_with_base tarFiles) selected.
Proof.
  unfold selectedFilePaths.
  assert (H : forall sel acc,
             fold_left (fun paths selectedFile =>
                          paths ++ first_with_base tarFiles selectedFile)
               sel acc
             = acc ++ flat_map (first_with_base tarFiles) sel).
  { induction sel as [|x sel IH]; intros acc; simpl.
    - rewrite app_nil_r. reflexivity.
    - rewrite IH, app_assoc. reflexivity. }
  apply (H selected []).
Qed.

Lemma first_with_base_found (tarFiles : list gostring) (name p : gostring) :
  In p (first_with_base tarFiles name) ->
  first_with_base tarFiles name = [p] /\ In p tarFiles /\ Base p = name.
Proof.
  induction tarFiles as [|f l IH]; simpl; [tauto|].
  destruct (eqb (Base f) name) eqn:E.
  - intros [H|[]]. subst p. apply eqb_eq in E. tauto.
  - intros H. destruct (IH H) as (H1 & H2 & H3). tauto.
Qed.

Lemma first_with_base_before (before after : list gostring)
  (x : gostring) (p : gostring) :
  first_with_base (before ++ x :: after) (Base x) = [p] ->
  In p before \/ p = x.
Proof.
  induction before as [|f l IH]; simpl.
  - rewrite eqb_refl. intros H. inversion H. tauto.
  - destruct (eqb (Base f) (Base x)).
    + intros H. inversion H. tauto.
    + intros H. destruct (IH H); tauto.
Qed.

(** X8.  Whatever is selected, a path handed to the import is one of the
    tar files found, its base name was selected, and it is the first of
    the tar files with that base name; there is at most one path for each
    selected name.  So of two files with the same base name, as a walk
    through subdirectories can find them, the later one is never
    imported. *)
Theorem selection_maps_to_first_file_of_that_name :
  forall (tarFiles selected : list gostring),
    (forall p, In p (selectedFilePaths tarFiles selected) ->
               In p tarFiles /\ In (Base p) selected
               /\ first_with_base tarFiles (Base p) = [p])
    /\ length (selectedFilePaths tarFiles selected) <= length selected
    /\ (forall before x after y,
           tarFiles = before ++ x :: after ->
           Base y = Base x -> y <> x -> ~ In y before ->
           ~ In y (selectedFilePaths tarFiles selected)).
Proof.
  intros tarFiles selected.
  assert (Hfirst : forall p, In p (selectedFilePaths tarFiles selected) ->
                     In p tarFiles /\ In (Base p) selected
                     /\ first_with_base tarFiles (Base p) = [p]).
  { intros p. rewrite selectedFilePaths_flat_map, in_flat_map.
    intros [name [Hsel Hp]].
    destruct (first_with_base_found _ _ _ Hp) as (H1 & H2 & H3).
    subst name. tauto. }
  split; [exact Hfirst|]. split.
  - rewrite selectedFilePaths_flat_map.
    induction selected as [|name sel IH]; simpl; [lia|].
    rewrite length_app.
    assert (length (first_with_base tarFiles name) <= 1).
    { clear. induction tarFiles as [|f l IHl]; simpl; [lia|].
      destruct (eqb (Base f) name); simpl; lia. }
    assert (length (flat_map (first_with_base tarFiles) sel) <= length sel).
    { apply IH. intros p Hp. rewrite selectedFilePaths_flat_map in Hp.
      pose proof (Hfirst p) as Hq.
      rewrite selectedFilePaths_flat_map in Hq. simpl in Hq.
      rewrite in_app_iff in Hq. destruct (Hq (or_intror Hp)) as (A1 & _ & A3).
      split; [exact A1|]. split; [|exact A3].
      apply in_flat_map in Hp. destruct Hp as [n [Hn Hp]].
      destruct (first_with_base_found _ _ _ Hp) as (_ & _ & <-). exact Hn. }
    lia.
  - intros before x after y Htar Hbase Hneq Hbefore Hin.
    destruct (Hfirst y Hin) as (_ & _ & Hy).
    rewrite Htar, Hbase in Hy.
    destruct (first_with_base_before _ _ _ Hy); tauto.
Qed.

End MappingExtras.

(** ** Loops that may stop *)

Section LoopExtras.
Variables (W A : Type).

Lemma observed_app (B : Type) (obs : Event -> list B) (t1 t2 : list Event) :
  flat_map obs (t1 ++ t2) = flat_map obs t1 ++ flat_map obs t2.
Proof.
  induction t1 as [|ev t1 IH]; simpl; [reflexivity|].
  rewrite IH. apply app_assoc.
Qed.

(** Nothing is observed of a loop when nothing is observed of a turn. *)
Lemma forEach_observed_nothing (B : Type) (obs : Event -> list B)
  (body : A -> Proc W unit) :
  (forall x w, flat_map obs (trace (body x w)) = []) ->
  forall l w, flat_map obs (trace (forEach l body w)) = [].
Proof.
  intros Hobs. induction l as [|x l IH]; intros w; [reflexivity|].
  rewrite forEach_cons. unfold bind.
  pose proof (Hobs x w) as Hx.
  destruct (body x w) as [t w' [[]| |]]; simpl in *; try exact Hx.
  pose proof (IH w') as Hl.
  destruct (forEach l body w') as [t' w'' o]. simpl in *.
  rewrite observed_app, Hx, Hl. reflexivity.
Qed.

(** What is observed of a loop was observed of a turn on one of its
    elements. *)
Lemma forEach_observed_In (B : Type) (obs : Event -> list B)
  (body : A -> Proc W unit) (P : A -> B -> Prop) :
  (forall x w y, In y (flat_map obs (trace (body x w))) -> P x y) ->
  forall l w y,
    In y (flat_map obs (trace (forEach l body w))) ->
    exists x, In x l /\ P x y.
Proof.
  intros Hobs. induction l as [|x l IH]; intros w y; [simpl; tauto|].
  rewrite forEach_cons. unfold bind.
  pose proof (Hobs x w y) as Hx.
  destruct (body x w) as [t w' [[]| |]]; simpl in *;
    try (intros H; exists x; split; [left; reflexivity | apply Hx; exact H]).
  pose proof (IH w' y) as Hl.
  destruct (forEach l body w') as [t' w'' o]. simpl in *.
  rewrite observed_app, in_app_iff. intros [H|H].
  - exists x. split; [left; reflexivity | apply Hx; exact H].
  - destruct (Hl H) as (x' & Hin & HP). exists x'. split; [right|]; assumption.
Qed.

End LoopExtras.

(** ** Import *)

Section ImportExtras.
Variable W : Type.
Variable C : Collaborators W.

Lemma importFromFile_loads (filePath : gostring) (w : W) :
  loads (trace (importFromFile C filePath w)) = [filePath]
  \/ loads (trace (importFromFile C filePath w)) = [].
Proof.
  unfold importFromFile, getImageInfoFromTar. run_unfold.
  repeat first [run_call | run_if];
    first [left; reflexivity | right; reflexivity].
Qed.

(** X11.  Every attempt to import a file ends with exactly one report:
    either the attempt returns, the report is a "[√]" line and the daemon
    was asked to load that file, or the process exits with code 1 and the
    report is a "[x]" line.  A failure to read the archive again for its
    description, after the load, does not turn the import into a
    failure: once the file was opened, loaded and the answer of the daemon
    read, the import returns without any "[x]" line, whatever reading the
    archive again gives; its "[√]" line names the file alone when that
    reading failed, the file and its description when it succeeded. *)
Theorem importFromFile_reports_once :
  forall (filePath : gostring) (w : W),
    let run := importFromFile C filePath w in
    ((outcome run = Returned tt
      /\ length (successes (trace run)) = 1 /\ failures (trace run) = []
      /\ loads (trace run) = [filePath])
     \/ (outcome run = Exited 1
         /\ length (failures (trace run)) = 1 /\ successes (trace run) = []))
    /\ (forall w1 w2 w3 w4 w5 w6 : W,
           answer C NewClientWithOpts w = (w1, Ok tt) ->
           answer C (Open filePath) w1 = (w2, Ok tt) ->
           answer C (FileStat filePath) w2 = (w3, Ok tt) ->
           (if is_gzip_name filePath
            then answer C (GzipNewReader filePath) w3 = (w4, Ok tt)
            else w4 = w3) ->
           answer C (ImageLoad filePath (is_gzip_name filePath) true) w4
           = (w5, Ok tt) ->
           answer C (ReadAll filePath) w5 = (w6, Ok tt) ->
           outcome run = Returned tt
           /\ failures (trace run) = []
           /\ (forall err,
                  outcome (getImageInfoFromTar C filePath w6)
                  = Returned (Fail err) ->
                  successes (trace run)
                  = [Printf (str "[√] Successfully imported image from %s\n")
                       [VString filePath]])
           /\ (forall imageInfo,
                  outcome (getImageInfoFromTar C filePath w6)
                  = Returned (Ok imageInfo) ->
                  successes (trace run)
                  = [Printf
                       (str "[√] Successfully imported image from %s: %s\n")
                       [VString filePath; VString imageInfo]])).
Proof.
  intros filePath w. cbv zeta. split.
  - unfold importFromFile, getImageInfoFromTar. run_unfold.
    repeat first [run_call | run_if];
      first [left; repeat split; reflexivity
            |right; repeat split; reflexivity].
  - intros w1 w2 w3 w4 w5 w6 H1 H2 H3 H4 H5 H6.
    unfold importFromFile, getImageInfoFromTar. run_unfold.
    rewrite H1. run_unfold. rewrite H2. run_unfold. rewrite H3. run_unfold.
    destruct (is_gzip_name filePath) eqn:Egz; run_unfold;
      [rewrite H4; run_unfold | subst w4];
      rewrite H5; run_unfold; rewrite H6; run_unfold;
      repeat run_call;
      repeat split; try reflexivity;
      intros ? Hr; inversion Hr; reflexivity.
Qed.

Lemma importFromFile_loads_In (filePath : gostring) (w : W) (y : gostring) :
  In y (loads (trace (importFromFile C filePath w))) -> y = filePath.
Proof.
  destruct (importFromFile_loads filePath w) as [H|H]; rewrite H; simpl;
    [intros [E|[]]; symmetry; exact E | tauto].
Qed.

Lemma import_loop_loads (l : list gostring) (w : W) (y : gostring) :
  In y (loads (trace (forEach l (importFromFile C) w))) -> In y l.
Proof.
  intros H.
  destruct (forEach_observed_In _ (importFromFile C) (fun x y => y = x)
              importFromFile_loads_In l w y H) as (x & Hx & ->).
  exact Hx.
Qed.

(** The result of the walk holds only paths of candidates. *)
Lemma walk_from_candidates (pat : gostring) (calls : list WalkCall) :
  forall acc res,
    walk_from pat acc calls = inl res ->
    forall p, In p res ->
              In p acc
              \/ exists c, In c calls /\ walk_path c = p
                           /\ walk_err c = None
                           /\ local_candidate pat c = true.
Proof.
  induction calls as [|c calls IH]; intros acc res H p Hp; simpl in H.
  - inversion H. subst. tauto.
  - destruct (walk_err c) eqn:Herr.
    + unfold walkFn in H. rewrite Herr in H. discriminate H.
    + rewrite (walkFn_candidate pat acc c Herr) in H.
      destruct (IH _ _ H p Hp) as [Hacc|(c' & Hin & Hc')].
      * destruct (local_candidate pat c) eqn:Hcand; [|tauto].
        apply in_app_iff in Hacc. destruct Hacc as [Hacc|[Hacc|[]]]; [tauto|].
        right. exists c. simpl. tauto.
      * right. exists c'. simpl. tauto.
Qed.

(** X9.  Whatever the menu answers, the directory import asks the daemon
    to load only files that the walk of the directory visited without
    error, that are not directories, whose name ends in a tar extension
    and whose base name passes the pattern. *)
Theorem importFromDirectory_loads_only_found_files :
  forall (dirPath grepPattern : gostring) (w : W) (p : gostring),
    In p (loads (trace (importFromDirectory C dirPath grepPattern w))) ->
    exists c,
      In c (snd (answer C (Walk dirPath) w))
      /\ walk_path c = p
      /\ walk_err c = None
      /\ IsDir (walk_info c) = false
      /\ tar_name (Name (walk_info c))
      /\ matches_spec (baseName p) grepPattern = true.
Proof.
  intros dirPath pat w p. unfold importFromDirectory. run_unfold.
  destruct (answer C (Walk dirPath) w) as [w1 calls] eqn:Hwalk. run_unfold.
  cbn [snd].
  destruct (findTarFilesInDirectory calls pat) as [tarFiles|err] eqn:Hfind;
    run_unfold; [|simpl; tauto].
  assert (Hfound : forall q, In q tarFiles ->
            exists c, In c calls /\ walk_path c = q
                      /\ walk_err c = None
                      /\ IsDir (walk_info c) = false
                      /\ tar_name (Name (walk_info c))
                      /\ matches_spec (baseName q) pat = true).
  { intros q Hq.
    destruct (walk_from_candidates pat calls [] Hfind q Hq)
      as [[]|(c & Hin & Hpath & Herr & Hcand)].
    apply local_candidate_iff in Hcand. exists c. subst q. tauto. }
  repeat first [run_call | run_if]; try (simpl; tauto).
  destruct (importFromDirectory_handleAll tarFiles a) as [selected|];
    run_unfold; [|simpl; tauto].
  run_if; [simpl; tauto|].
  pose proof (import_loop_loads (selectedFilePaths tarFiles selected) w0 p)
    as Hloop.
  destruct (forEach (selectedFilePaths tarFiles selected)
              (importFromFile C) w0) as [t' w' o].
  simpl in *. intros H. apply Hfound.
  destruct (selection_maps_to_first_file_of_that_name tarFiles selected)
    as [Hmap _].
  apply (Hmap p). apply Hloop. exact H.
Qed.

(** X10.  When the walk of the directory ends with an error, or finds no
    tar file, the directory import exits with code 1 without showing a
    menu; when the menu is answered with an empty selection it exits with
    code 1 as well.  In all three cases the daemon is not asked to load
    anything. *)
Theorem importFromDirectory_nothing_to_import :
  forall (dirPath grepPattern : gostring) (w : W),
    let run := importFromDirectory C dirPath grepPattern w in
    let found :=
      findTarFilesInDirectory (snd (answer C (Walk dirPath) w)) grepPattern in
    ((found = inl [] \/ exists err, found = inr err) ->
     outcome run = Exited 1 /\ menus (trace run) = []
     /\ loads (trace run) = [])
    /\ (forall tarFiles,
           found = inl tarFiles ->
           snd (answer C (AskOne
                            (str "Select .tar files to import as Docker images:")
                            (file_selectionOptions tarFiles))
                  (fst (answer C (Walk dirPath) w)))
           = Ok [] ->
           outcome run = Exited 1 /\ loads (trace run) = []).
Proof.
  intros dirPath pat w. cbv zeta. unfold importFromDirectory. run_unfold.
  destruct (answer C (Walk dirPath) w) as [w1 calls] eqn:Hwalk. run_unfold.
  cbn [snd fst]. split.
  - intros [H|[err H]]; rewrite H; repeat split; reflexivity.
  - intros tarFiles H Hask. rewrite H. run_unfold.
    run_if; [repeat split; reflexivity|].
    destruct (answer C (AskOne
                          (str "Select .tar files to import as Docker images:")
                          (file_selectionOptions tarFiles)) w1)
      as [w2 r] eqn:E.
    cbn [snd] in Hask. subst r. run_unfold.
    repeat split; reflexivity.
Qed.

End ImportExtras.

(** ** Cloud transfers *)

Section CloudExtras.
Variable W : Type.
Variable C : Collaborators W.

(** The upload is attempted exactly when the four steps before it
    succeeded. *)
Lemma ExportImageToCloud_uploads (imageName cloudPath : gostring) (w : W) :
  let inspected := answer C (ImageInspectWithRaw imageName) w in
  let platform := inspected_platform (snd inspected) in
  let tempFilePath :=
    Join C [tempDir;
            ExportImageToCloud_tarFileName imageName
              (fst platform) (snd platform)] in
  let made := answer C (MkdirAll tempDir) (fst inspected) in
  let saved := answer C (ImageSave imageName) (fst made) in
  let created := answer C (Create tempFilePath) (fst saved) in
  let copied := answer C (Copy tempFilePath imageName) (fst created) in
  uploads (trace (ExportImageToCloud C imageName cloudPath w))
  = match snd made, snd saved, snd created, snd copied with
    | Ok _, Ok _, Ok _, Ok _ => [tempFilePath]
    | _, _, _, _ => []
    end.
Proof.
  cbv zeta. unfold ExportImageToCloud. run_unfold.
  destruct (answer C (ImageInspectWithRaw imageName) w) as [w1 [i|e]];
    cbn [fst snd inspected_platform]; run_unfold.
  all: repeat (run_call; cbn [fst snd]); reflexivity.
Qed.

(** X14.  The export of one image to the cloud never ends the process.
    The temporary file is removed exactly when its upload was attempted,
    whether the upload succeeded or not.  The upload is attempted exactly
    when the temporary directory was made, the image saved, and the
    temporary file created and written: when one of these four steps
    fails, nothing is uploaded and nothing is removed. *)
Theorem ExportImageToCloud_removes_what_it_uploads :
  forall (imageName cloudPath : gostring) (w : W),
    let run := ExportImageToCloud C imageName cloudPath w in
    let inspected := answer C (ImageInspectWithRaw imageName) w in
    let platform := inspected_platform (snd inspected) in
    let tempFilePath :=
      Join C [tempDir;
              ExportImageToCloud_tarFileName imageName
                (fst platform) (snd platform)] in
    let made := answer C (MkdirAll tempDir) (fst inspected) in
    let saved := answer C (ImageSave imageName) (fst made) in
    let created := answer C (Create tempFilePath) (fst saved) in
    let copied := answer C (Copy tempFilePath imageName) (fst created) in
    outcome run = Returned tt
    /\ removes (trace run) = uploads (trace run)
    /\ (uploads (trace run) = []
        \/ (exists osInfo archInfo,
               uploads (trace run)
               = [Join C [tempDir;
                          ExportImageToCloud_tarFileName imageName
                            osInfo archInfo]]
               /\ saves (trace run) = [imageName]
               /\ creates (trace run) = uploads (trace run)))
    /\ uploads (trace run)
       = match snd made, snd saved, snd created, snd copied with
         | Ok _, Ok _, Ok _, Ok _ => [tempFilePath]
         | _, _, _, _ => []
         end
    /\ ((exists err,
            snd made = Fail err \/ snd saved = Fail err
            \/ snd created = Fail err \/ snd copied = Fail err) ->
        uploads (trace run) = [] /\ removes (trace run) = []).
Proof.
  intros imageName cloudPath w. cbv zeta.
  pose proof (ExportImageToCloud_uploads imageName cloudPath w) as Hup.
  cbv zeta in Hup.
  assert (Hrm : removes (trace (ExportImageToCloud C imageName cloudPath w))
                = uploads (trace (ExportImageToCloud C imageName cloudPath w))).
  { unfold ExportImageToCloud. run_unfold.
    repeat first [run_call | run_if]; reflexivity. }
  split; [|split; [exact Hrm|split; [|split; [exact Hup|]]]].
  - unfold ExportImageToCloud. run_unfold.
    repeat first [run_call | run_if]; reflexivity.
  - unfold ExportImageToCloud. run_unfold.
    repeat first [run_call | run_if];
      first [left; reflexivity
            |right; eexists; eexists; repeat split; reflexivity].
  - intros (err & H). rewrite Hrm.
    assert (E : uploads (trace (ExportImageToCloud C imageName cloudPath w))
                = []).
    { rewrite Hup.
      destruct H as [H|[H|[H|H]]]; rewrite H;
        repeat match goal with
               | |- context [match ?r with Ok _ => _ | Fail _ => _ end] =>
                   destruct r
               end; reflexivity. }
    split; exact E.
Qed.

Lemma importFromFile_removes (filePath : gostring) (w : W) :
  removes (trace (importFromFile C filePath w)) = [].
Proof.
  unfold importFromFile, getImageInfoFromTar. run_unfold.
  repeat first [run_call | run_if]; reflexivity.
Qed.

Lemma importFromDirectory_removes (dirPath pat : gostring) (w : W) :
  removes (trace (importFromDirectory C dirPath pat w)) = [].
Proof.
  unfold importFromDirectory. run_unfold.
  destruct (answer C (Walk dirPath) w) as [w1 calls]. run_unfold.
  destruct (findTarFilesInDirectory calls pat) as [tarFiles|err];
    run_unfold; [|reflexivity].
  repeat first [run_call | run_if]; try reflexivity.
  destruct (importFromDirectory_handleAll tarFiles a) as [selected|];
    run_unfold; [|reflexivity].
  run_if; [reflexivity|].
  pose proof (forEach_observed_nothing _ (importFromFile C)
                importFromFile_removes
                (selectedFilePaths tarFiles selected) w0) as Hloop.
  destruct (forEach (selectedFilePaths tarFiles selected)
              (importFromFile C) w0) as [t' w' o].
  simpl in *. exact Hloop.
Qed.

Lemma ImportImagesFromSource_removes (source pat : gostring) (w : W) :
  removes (trace (ImportImagesFromSource C source pat w)) = [].
Proof.
  unfold ImportImagesFromSource. run_unfold. run_call; [|reflexivity].
  destruct (IsDir a).
  - pose proof (importFromDirectory_removes source pat w0) as H.
    destruct (importFromDirectory C source pat w0). simpl in *. exact H.
  - pose proof (importFromFile_removes source w0) as H.
    destruct (importFromFile C source w0). simpl in *. exact H.
Qed.

(** X12.  The file downloaded from the cloud into the temporary directory
    is removed exactly when its import returned: when the download or the
    import ends the process, the temporary file is left behind, and no
    other file is ever removed. *)
Theorem downloaded_file_is_removed_after_import :
  forall (cloudFilePath : gostring) (w : W),
    let run := downloadAndImportFromCloud C cloudFilePath w in
    (outcome run = Returned tt
     /\ removes (trace run) = [Join C [tempDir; Base cloudFilePath]]
     /\ downloads (trace run) = [cloudFilePath])
    \/ (outcome run <> Returned tt /\ removes (trace run) = []).
Proof.
  intros cloudFilePath w. cbv zeta.
  unfold downloadAndImportFromCloud. run_unfold.
  run_call; [|right; split; [discriminate|reflexivity]].
  run_call; [|right; split; [discriminate|reflexivity]].
  run_call; [|right; split; [discriminate|reflexivity]].
  run_call; [|right; split; [discriminate|reflexivity]].
  pose proof (ImportImagesFromSource_removes
                (Join C [tempDir; Base cloudFilePath]) [] w3) as Hrm.
  assert (Hdl : downloads
                  (trace (ImportImagesFromSource C
                            (Join C [tempDir; Base cloudFilePath]) [] w3))
                = []).
  { unfold ImportImagesFromSource. run_unfold. run_call; [|reflexivity].
    destruct (IsDir a3).
    - unfold importFromDirectory. run_unfold.
      destruct (answer C (Walk (Join C [tempDir; Base cloudFilePath])) w4)
        as [w5 calls]. run_unfold.
      destruct (findTarFilesInDirectory calls []) as [tarFiles|err];
        run_unfold; [|reflexivity].
      repeat first [run_call | run_if]; try reflexivity.
      destruct (importFromDirectory_handleAll tarFiles a4) as [selected|];
        run_unfold; [|reflexivity].
      run_if; [reflexivity|].
      assert (Hfile : forall p w, downloads (trace (importFromFile C p w))
                                  = []).
      { intros p w'. unfold importFromFile, getImageInfoFromTar. run_unfold.
        repeat first [run_call | run_if]; reflexivity. }
      pose proof (forEach_observed_nothing _ (importFromFile C) Hfile
                    (selectedFilePaths tarFiles selected) w6) as Hloop.
      destruct (forEach (selectedFilePaths tarFiles selected)
                  (importFromFile C) w6) as [t' w' o].
      simpl in *. exact Hloop.
    - unfold importFromFile, getImageInfoFromTar. run_unfold.
      repeat first [run_call | run_if]; reflexivity. }
  destruct (ImportImagesFromSource C (Join C [tempDir; Base cloudFilePath])
              [] w3) as [t' w' [[]| |]]; simpl in Hrm, Hdl; run_unfold.
  - run_call; left; unfold removes, downloads in *; simpl;
      rewrite !observed_app, Hrm, ?Hdl; simpl; repeat split;
      try reflexivity; rewrite Hdl; reflexivity.
  - right. split; [discriminate|]. unfold removes in *. simpl. exact Hrm.
  - right. split; [discriminate|]. unfold removes in *. simpl. exact Hrm.
Qed.

End CloudExtras.

(** ** The commands as a whole *)

Section CommandExtras.
Variable W : Type.
Variable C : Collaborators W.

Lemma no_candidate_no_names (pat : gostring) (images : list ImageSummary) :
  (forall tag, In tag (listed_tags images) -> image_candidate pat tag = false)
  -> filter (image_candidate pat) (listed_tags images) = [].
Proof. apply filter_nothing. Qed.

(** X15.  When the daemon lists images but none of their references is a
    candidate (all are "<none>:<none>" or rejected by the pattern), the
    local export and the delete exit with code 1 without showing a menu
    and without saving or removing anything. *)
Theorem no_candidate_ends_the_command :
  forall (destination grepPattern : gostring) (w w1 w2 : W)
         (images : list ImageSummary),
    answer C NewClientWithOpts w = (w1, Ok tt) ->
    answer C ImageList w1 = (w2, Ok images) ->
    ((forall tag, In tag (listed_tags images) ->
                  image_candidate (environ C w2 (str "DKCI_GREP_PATTERN")) tag
                  = false) ->
     outcome (ExportImages C destination w) = Exited 1
     /\ menus (trace (ExportImages C destination w)) = []
     /\ saves (trace (ExportImages C destination w)) = [])
    /\ ((forall tag, In tag (listed_tags images) ->
                     image_candidate grepPattern tag = false) ->
        outcome (DeleteImages C grepPattern w) = Exited 1
        /\ menus (trace (DeleteImages C grepPattern w)) = []
        /\ removals (trace (DeleteImages C grepPattern w)) = []).
Proof.
  intros destination pat w w1 w2 images Hcli Hlist. split.
  - intros Hnone. unfold ExportImages. run_unfold.
    rewrite Hcli. run_unfold. rewrite Hlist. run_unfold.
    destruct (length images =? 0); run_unfold;
      [repeat split; reflexivity|].
    rewrite ExportImages_imageNames_filter,
      (no_candidate_no_names _ images Hnone).
    repeat split; reflexivity.
  - intros Hnone. unfold DeleteImages. run_unfold.
    rewrite Hcli. run_unfold. rewrite Hlist. run_unfold.
    destruct (length images =? 0); run_unfold;
      [repeat split; reflexivity|].
    rewrite DeleteImages_imageNames_filter,
      (no_candidate_no_names _ images Hnone).
    repeat split; reflexivity.
Qed.

Lemma DeleteImage_forced (imageName : gostring) (w : W) :
  forced_removals (trace (DeleteImage C imageName w)) = [].
Proof. unfold DeleteImage. run_calls; reflexivity. Qed.

(** X16.  The delete command never forces a removal and always asks for
    the untagged parents to be pruned: no call to the daemon made by it, in
    any world and for any selection, removes an image with force set or
    without pruning. *)
Theorem DeleteImages_never_forces :
  forall (grepPattern : gostring) (w : W),
    forced_removals (trace (DeleteImages C grepPattern w)) = [].
Proof.
  intros pat w. unfold DeleteImages. run_unfold.
  repeat first [run_call | run_if]; try reflexivity.
  pose proof (forEach_observed_nothing _ (DeleteImage C) DeleteImage_forced
                (DeleteImages_handleAll (DeleteImages_imageNames pat a0) a1)
                w2) as Hloop.
  destruct (forEach (DeleteImages_handleAll (DeleteImages_imageNames pat a0)
                       a1) (DeleteImage C) w2) as [t' w' o].
  simpl in *. exact Hloop.
Qed.

(** X17.  Without a usable configuration the cloud export and the cloud
    import print the configuration error and exit with code 1 before
    anything else happens: there is no login, the daemon is not asked for
    its images, no menu is shown and nothing is downloaded. *)
Theorem cloud_commands_need_a_configuration :
  forall (cloudPath grepPattern : gostring) (w : W) (err : error),
    outcome (GetBDFSConfig C w) = Returned (Fail err) ->
    let export := ExportImagesToCloud C cloudPath w in
    let import := ImportImagesFromCloud C cloudPath grepPattern w in
    (outcome export = Exited 1 /\ logins (trace export) = []
     /\ listings (trace export) = 0 /\ menus (trace export) = [])
    /\ (outcome import = Exited 1 /\ logins (trace import) = []
        /\ downloads (trace import) = [] /\ menus (trace import) = [])
    /\ In (Printf (str "[x] Error getting BDFS configuration: %v\n")
             [VError err]) (trace export)
    /\ In (Printf (str "[x] Error getting BDFS configuration: %v\n")
             [VError err]) (trace import).
Proof.
  intros cloudPath pat w err Hcfg. cbv zeta.
  assert (Hlogins : logins (trace (GetBDFSConfig C w)) = []
                    /\ listings (trace (GetBDFSConfig C w)) = 0
                    /\ menus (trace (GetBDFSConfig C w)) = []
                    /\ downloads (trace (GetBDFSConfig C w)) = []).
  { unfold GetBDFSConfig, configFilePath. run_unfold.
    repeat first [run_call | run_if]; repeat split; reflexivity. }
  destruct Hlogins as (H1 & H2 & H3 & H4).
  unfold ExportImagesToCloud, ImportImagesFromCloud, login. run_unfold.
  destruct (GetBDFSConfig C w) as [t w' o]. simpl in *. subst o.
  run_unfold. unfold logins, listings, menus, downloads in *.
  rewrite !observed_app, ?filter_app, ?length_app, H1, H2, H3, H4. simpl.
  repeat split; try reflexivity.
  - apply in_or_app. right. left. reflexivity.
  - apply in_or_app. right. left. reflexivity.
Qed.

Lemma login_downloads (w : W) : downloads (trace (login C w)) = [].
Proof.
  unfold login, GetBDFSConfig, configFilePath. run_unfold.
  repeat first [run_call | run_if]; reflexivity.
Qed.

(** X13.  For a cloud path that cannot be listed and names a single file
    whose path does not end in ".tar", ".tar.gz" or ".tgz", the cloud
    import exits with code 1 and downloads nothing. *)
Theorem cloud_single_file_must_be_tar :
  forall (cloudPath grepPattern : gostring) (w1 w2 w3 : W)
         (t : list Event) (w : W) (listErr : error) (fileInfo : PanFileInfo),
    login C w = mkRun t w1 (Returned tt) ->
    answer C (ListFiles cloudPath) w1 = (w2, Fail listErr) ->
    answer C (GetFileInfoByPath cloudPath) w2 = (w3, Ok fileInfo) ->
    has_tar_suffix (ToLower (Path fileInfo)) = false ->
    outcome (ImportImagesFromCloud C cloudPath grepPattern w) = Exited 1
    /\ downloads (trace (ImportImagesFromCloud C cloudPath grepPattern w))
       = downloads t
    /\ In (Printf (str "[x] The specified file %s is not a .tar file\n")
             [VString cloudPath])
         (trace (ImportImagesFromCloud C cloudPath grepPattern w))
    /\ downloads (trace (ImportImagesFromCloud C cloudPath grepPattern w))
       = [].
Proof.
  intros cloudPath pat w1 w2 w3 t w listErr fileInfo Hlogin Hlist Hinfo Hsuf.
  pose proof (login_downloads w) as Hld. rewrite Hlogin in Hld.
  cbn [trace] in Hld.
  unfold ImportImagesFromCloud. run_unfold. rewrite Hlogin. run_unfold.
  rewrite Hlist. run_unfold. rewrite Hinfo. run_unfold.
  unfold has_tar_suffix in Hsuf. rewrite Hsuf. run_unfold.
  split; [reflexivity|]. split; [|split].
  - unfold downloads. rewrite observed_app. simpl. apply app_nil_r.
  - apply in_or_app. right. in_trace.
  - unfold downloads in *. rewrite observed_app, Hld. reflexivity.
Qed.

End CommandExtras.

(** ** docker.CleanCache *)

Section CleanCacheFacts.
Variable F : Type.
Variable D : CacheFS F.

Lemma list_files_run (files acc : list gostring) (f : F) :
  final (list_files D files acc f) = f
  /\ outcome (list_files D files acc f)
     = Returned (acc ++ cache_paths D files)
  /\ failures (trace (list_files D files acc f)) = []
  /\ successes (trace (list_files D files acc f)) = [].
Proof.
  revert acc. induction files as [|file files IH]; intros acc.
  - simpl. rewrite app_nil_r. repeat split; reflexivity.
  - cbn [list_files]. run_step.
    destruct (IH (acc ++ [cache_Join D [cacheDir; file]]))
      as (H1 & H2 & H3 & H4).
    destruct (list_files D files (acc ++ [cache_Join D [cacheDir; file]]) f)
      as [t w o]. simpl in *. subst.
    repeat split; try assumption.
    unfold cache_paths. cbn [map]. rewrite <- app_assoc. reflexivity.
Qed.

Lemma delete_files_run (paths : list gostring) (count : nat) (f : F) :
  final (delete_files D paths count f) = fst (remove_each D paths f)
  /\ outcome (delete_files D paths count f)
     = Returned (count + snd (remove_each D paths f))
  /\ length (failures (trace (delete_files D paths count f)))
     + snd (remove_each D paths f) = length paths
  /\ successes (trace (delete_files D paths count f)) = [].
Proof.
  revert count f. induction paths as [|p paths IH]; intros count f.
  - simpl. rewrite Nat.add_0_r. repeat split; reflexivity.
  - cbn [delete_files remove_each]. run_unfold.
    destruct (RemoveAll D p f) as [f' [[]|err]]; run_unfold.
    + destruct (IH (count + 1) f') as (H1 & H2 & H3 & H4).
      destruct (delete_files D paths (count + 1) f') as [t w o].
      destruct (remove_each D paths f') as [f'' n]. simpl in *. subst.
      repeat split; try assumption; try (f_equal; lia); try lia.
    + destruct (IH count f') as (H1 & H2 & H3 & H4).
      destruct (delete_files D paths count f') as [t w o].
      destruct (remove_each D paths f') as [f'' n]. simpl in *. subst.
      repeat split; try assumption; try lia.
Qed.

(** X18.  CleanCache removes nothing unless the word read from the
    terminal is exactly "yes": for any other answer the state of the file
    system is what it was, and no success is reported. *)
Theorem CleanCache_needs_confirmation :
  forall (f : F),
    Scanln D f <> str "yes" ->
    final (CleanCache D f) = f
    /\ successes (trace (CleanCache D f)) = [].
Proof.
  intros f Hno. apply eqb_neq in Hno. unfold CleanCache. run_unfold.
  destruct (stat_not_exist D f cacheDir); run_unfold;
    [split; reflexivity|].
  destruct (ReadDir D f cacheDir) as [files|err]; run_unfold;
    [|split; reflexivity].
  destruct (length files =? 0); run_unfold; [split; reflexivity|].
  destruct (list_files_run files [] f) as (H1 & H2 & H3 & H4).
  destruct (list_files D files [] f) as [t w o]. simpl in *. subst.
  run_unfold. rewrite Hno. cbn [negb]. run_unfold.
  split; [reflexivity|]. unfold successes in *.
  rewrite filter_app, H4. reflexivity.
Qed.

(** X19.  Once confirmed, CleanCache calls os.RemoveAll on every entry of
    the cache directory, in listing order, a failed removal not stopping
    the following ones; it returns and reports success with the number of
    removals that succeeded, even when some or all of them failed, and
    prints one "[x]" line for each that failed. *)
Theorem CleanCache_removes_every_entry :
  forall (f : F) (files : list gostring),
    stat_not_exist D f cacheDir = false ->
    ReadDir D f cacheDir = Ok files ->
    files <> [] ->
    Scanln D f = str "yes" ->
    let paths := cache_paths D files in
    final (CleanCache D f) = fst (remove_each D paths f)
    /\ outcome (CleanCache D f) = Returned tt
    /\ successes (trace (CleanCache D f))
       = [Printf
            (str "[√] Successfully cleaned cache directory. Deleted %d file(s)\n")
            [VInt (snd (remove_each D paths f))]]
    /\ length (failures (trace (CleanCache D f)))
       + snd (remove_each D paths f) = length files.
Proof.
  intros f files Hstat Hread Hne Hyes paths. subst paths.
  assert (Hlen : length (cache_paths D files) = length files)
    by (unfold cache_paths; apply length_map).
  unfold CleanCache. run_step. rewrite Hstat, Hread. run_step.
  destruct (length files =? 0) eqn:Hzero.
  { apply Nat.eqb_eq in Hzero. destruct files; [tauto | discriminate]. }
  run_step.
  destruct (list_files_run files [] f) as (H1 & H2 & H3 & H4).
  destruct (list_files D files [] f) as [t w o].
  cbn [trace final outcome app] in H1, H2, H3, H4. subst w o.
  run_step. rewrite Hyes, eqb_refl. cbn [negb]. run_step.
  destruct (delete_files_run (cache_paths D files) 0 f)
    as (G1 & G2 & G3 & G4).
  destruct (delete_files D (cache_paths D files) 0 f) as [t' w' o'].
  cbn [trace final outcome] in G1, G2, G3, G4. subst w' o'.
  run_step. unfold successes, failures in *. rewrite Hlen in G3.
  repeat split.
  - rewrite !filter_app, H4, G4. reflexivity.
  - rewrite !filter_app, H3, !length_app. simpl. lia.
Qed.

(** X20.  When the cache directory does not exist, or cannot be read,
    CleanCache exits with code 1; when it is empty CleanCache returns
    without asking.  In all three cases nothing is removed. *)
Theorem CleanCache_without_entries :
  forall (f : F),
    (stat_not_exist D f cacheDir = true ->
     outcome (CleanCache D f) = Exited 1 /\ final (CleanCache D f) = f)
    /\ (forall err,
           stat_not_exist D f cacheDir = false ->
           ReadDir D f cacheDir = Fail err ->
           outcome (CleanCache D f) = Exited 1
           /\ final (CleanCache D f) = f)
    /\ (stat_not_exist D f cacheDir = false ->
        ReadDir D f cacheDir = Ok [] ->
        CleanCache D f
        = mkRun [Printf (str "No files found in cache directory: %s\n")
                   [VString cacheDir]] f (Returned tt)).
Proof.
  intros f. unfold CleanCache. run_unfold. split; [|split].
  - intros ->. split; reflexivity.
  - intros err -> ->. split; reflexivity.
  - intros -> ->. reflexivity.
Qed.

End CleanCacheFacts.

(** ** The dispatcher *)

Section DispatchFacts.
Variable W : Type.
Variable C : Collaborators W.
Variable Parse : list gostring -> Outcome (gostring * gostring * gostring).

Lemma has_flag_existsb (short long : string) (args : list gostring) :
  has_flag short long args
  = existsb (fun arg => HasPrefix arg (str short) || HasPrefix arg (str long))
      args.
Proof.
  unfold has_flag.
  assert (H : forall l acc,
             fold_left (fun has arg =>
                          if HasPrefix arg (str short)
                             || HasPrefix arg (str long)
                          then true else has) l acc
             = acc || existsb (fun arg => HasPrefix arg (str short)
                                          || HasPrefix arg (str long)) l).
  { induction l as [|x l IH]; intros acc; simpl.
    - rewrite orb_false_r. reflexivity.
    - rewrite IH.
      destruct (HasPrefix x (str short) || HasPrefix x (str long)), acc;
        reflexivity. }
  apply (H args false).
Qed.

Lemma has_flag_true (short long : string) (args : list gostring) :
  has_flag short long args = true <->
  exists arg, In arg args
              /\ (HasPrefix arg (str short) = true
                  \/ HasPrefix arg (str long) = true).
Proof.
  rewrite has_flag_existsb, existsb_exists.
  split; intros [arg [Hin H]]; exists arg; split; try exact Hin.
  - apply orb_true_iff. exact H.
  - apply orb_true_iff. exact H.
Qed.

Lemma environ_store_pattern (pat key : gostring) (w : W) :
  environ (store_pattern C pat) w key
  = if negb (is_empty pat) && eqb key (str "DKCI_GREP_PATTERN")
    then pat else environ C w key.
Proof.
  unfold store_pattern. destruct pat; [reflexivity|]. simpl.
  destruct (eqb key (str "DKCI_GREP_PATTERN")); reflexivity.
Qed.

Lemma showHelp_true (args : list gostring) :
  showHelp args = true <->
  exists arg, In arg args /\ (arg = str "-h" \/ arg = str "--help").
Proof.
  induction args as [|a args IH]; simpl.
  - split; [discriminate | intros (arg & [] & _)].
  - destruct (eqb a (str "-h") || eqb a (str "--help")) eqn:E.
    + split; [|reflexivity]. intros _. exists a. split; [left; reflexivity|].
      apply orb_true_iff in E. rewrite !eqb_eq in E. exact E.
    + rewrite IH. apply orb_false_iff in E. destruct E as [E1 E2].
      split.
      * intros (arg & Hin & H). exists arg. split; [right|]; assumption.
      * intros (arg & [->|Hin] & H).
        -- destruct H as [->| ->]; [rewrite eqb_refl in E1
                                   |rewrite eqb_refl in E2]; discriminate.
        -- exists arg. split; assumption.
Qed.

(** X21.  When no argument is "-h" or "--help" and pflag returns: if an
    argument of the export starts with "-d" or "--destination" and a cloud
    path was parsed, or an argument of the import starts with "-s" or
    "--source" and a cloud path was parsed, the command prints the
    mutual-exclusion error and exits with code 1; it calls nothing. *)
Theorem exclusive_flags_end_the_command :
  forall (args : list gostring) (arg local cloudPath grepPattern : gostring)
         (w : W),
    showHelp args = false ->
    Parse args = Returned (local, cloudPath, grepPattern) ->
    In arg args -> cloudPath <> [] ->
    ((HasPrefix arg (str "-d") = true
      \/ HasPrefix arg (str "--destination") = true) ->
     main_export C Parse args w
     = mkRun [Printf (str "[x] Error: -d and -c flags are mutually exclusive")
                []] w (Exited 1))
    /\ ((HasPrefix arg (str "-s") = true
         \/ HasPrefix arg (str "--source") = true) ->
        main_import C Parse args w
        = mkRun [Printf
                   (str "[x] Error: -s and -c flags are mutually exclusive")
                   []] w (Exited 1)).
Proof.
  intros args arg local cloudPath pat w Hhelp Hparse Hin Hcloud.
  apply negb_is_empty in Hcloud. split; intros Hflag.
  - unfold main_export, parse. rewrite Hhelp. run_unfold. rewrite Hparse.
    rewrite (proj2 (has_flag_true "-d" "--destination" args))
      by (exists arg; tauto).
    rewrite Hcloud. reflexivity.
  - unfold main_import, parse. rewrite Hhelp. run_unfold. rewrite Hparse.
    rewrite (proj2 (has_flag_true "-s" "--source" args))
      by (exists arg; tauto).
    rewrite Hcloud. reflexivity.
Qed.

(** X22.  When no argument is "-h" or "--help" and pflag returns without
    a cloud path, but "-c" was given or the environment holds
    BDFS_CONFIG_FILE or the three BDFS variables, the export goes to the
    cloud: the run is that of resolving the configuration and, unless
    that fails (which is reported and ends the process with code 1), of
    the cloud export to its default directory.  The destination
    directory, given with "-d" or not, has no part in it, and neither has
    the fallback to "/" that main applies after "-c": a resolved
    configuration never has an empty default directory. *)
Theorem destination_is_ignored_when_cloud_is_configured :
  forall (args : list gostring) (destination grepPattern : gostring) (w : W),
    showHelp args = false ->
    Parse args = Returned (destination, [], grepPattern) ->
    has_flag "-c" "--cloud" args = true
    \/ environ C w (str "BDFS_CONFIG_FILE") <> []
    \/ (environ C w (str "BDFS_CLIENT_ID") <> []
        /\ environ C w (str "BDFS_CLIENT_SECRET") <> []
        /\ environ C w (str "BDFS_TOKEN_PATH") <> []) ->
    main_export C Parse args w
    = (r <- GetBDFSConfig (store_pattern C grepPattern) ;;
       match r with
       | Fail err =>
           printf "[x] Error getting BDFS configuration: %v\n"
             [VError err] ;;
           exit 1
       | Ok configData =>
           ExportImagesToCloud (store_pattern C grepPattern)
             (DefaultCloudDir configData)
       end)%proc w.
Proof.
  intros args destination pat w Hhelp Hparse H.
  unfold main_export, parse. rewrite Hhelp.
  cbv beta iota zeta delta [bind getenv ret]. rewrite Hparse.
  cbn [is_empty negb app]. rewrite !andb_false_r.
  rewrite !environ_store_pattern.
  change (eqb (str "BDFS_CONFIG_FILE") (str "DKCI_GREP_PATTERN")) with false.
  change (eqb (str "BDFS_CLIENT_ID") (str "DKCI_GREP_PATTERN")) with false.
  change (eqb (str "BDFS_CLIENT_SECRET") (str "DKCI_GREP_PATTERN"))
    with false.
  change (eqb (str "BDFS_TOKEN_PATH") (str "DKCI_GREP_PATTERN")) with false.
  rewrite !andb_false_r. cbn [andb].
  assert (Hcfg : forall config,
             outcome (GetBDFSConfig (store_pattern C pat) w)
             = Returned (Ok config) ->
             is_empty (DefaultCloudDir config) = false).
  { intros config Hc.
    destruct (GetBDFSConfig_usable _ _ Hc) as (_ & _ & _ & Hd).
    destruct (DefaultCloudDir config); [tauto | reflexivity]. }
  destruct (has_flag "-c" "--cloud" args).
  - destruct (GetBDFSConfig (store_pattern C pat) w) as [t w' [[config|err]| |]];
      try reflexivity.
    rewrite (Hcfg config eq_refl).
    destruct (ExportImagesToCloud (store_pattern C pat)
                (DefaultCloudDir config) w'); reflexivity.
  - assert (Havail :
              negb (is_empty (environ C w (str "BDFS_CONFIG_FILE")))
              || negb (is_empty (environ C w (str "BDFS_CLIENT_ID")))
                 && negb (is_empty (environ C w (str "BDFS_CLIENT_SECRET")))
                 && negb (is_empty (environ C w (str "BDFS_TOKEN_PATH")))
              = true).
    { destruct H as [H|[H|(H1 & H2 & H3)]]; [discriminate H| |].
      - apply negb_is_empty in H. rewrite H. reflexivity.
      - apply negb_is_empty in H1, H2, H3. rewrite H1, H2, H3.
        apply orb_true_r. }
    rewrite Havail.
    destruct (GetBDFSConfig (store_pattern C pat) w) as [t w' [[config|err]| |]];
      try reflexivity.
    destruct (ExportImagesToCloud (store_pattern C pat)
                (DefaultCloudDir config) w'); reflexivity.
Qed.

(** X23.  When no argument is "-h" or "--help" and pflag returns, an
    import without source, without cloud path and without a "-c" or
    "--cloud" argument prints that one of the two flags is required and
    exits with code 1; it calls nothing. *)
Theorem import_requires_a_source :
  forall (args : list gostring) (grepPattern : gostring) (w : W),
    showHelp args = false ->
    Parse args = Returned ([], [], grepPattern) ->
    (forall arg, In arg args ->
                 HasPrefix arg (str "-c") = false
                 /\ HasPrefix arg (str "--cloud") = false) ->
    main_import C Parse args w
    = mkRun [Printf
               (str "[x] Error: either -s/--source or -c/--cloud flag is required for import command")
               []] w (Exited 1).
Proof.
  intros args pat w Hhelp Hparse Hnone. unfold main_import, parse.
  rewrite Hhelp. run_unfold. rewrite Hparse.
  assert (Hc : has_flag "-c" "--cloud" args = false).
  { destruct (has_flag "-c" "--cloud" args) eqn:E; [|reflexivity].
    apply has_flag_true in E. destruct E as (arg & Hin & H).
    destruct (Hnone arg Hin) as [H1 H2]. rewrite H1, H2 in H.
    destruct H; discriminate. }
  rewrite Hc. cbn [is_empty negb]. rewrite !andb_false_r. reflexivity.
Qed.

(** X24.  When no argument is "-h" or "--help", pflag returns without a
    cloud path, no argument starts with "-c" or "--cloud" and the
    environment holds no BDFS configuration, the export is the local
    export to the destination; the pattern it filters the images with is
    the one given with "-g" or, when none was given, the value of
    DKCI_GREP_PATTERN that the process inherited. *)
Theorem local_export_pattern :
  forall (args : list gostring) (destination grepPattern : gostring) (w : W),
    showHelp args = false ->
    Parse args = Returned (destination, [], grepPattern) ->
    has_flag "-c" "--cloud" args = false ->
    environ C w (str "BDFS_CONFIG_FILE") = [] ->
    environ C w (str "BDFS_CLIENT_ID") = [] ->
    main_export C Parse args w
    = ExportImages (store_pattern C grepPattern) destination w
    /\ forall w' images,
         ExportImages_imageNames
           (environ (store_pattern C grepPattern) w') images
         = filter (image_candidate
                     (or_default grepPattern
                        (environ C w' (str "DKCI_GREP_PATTERN"))))
             (listed_tags images).
Proof.
  intros args destination pat w Hhelp Hparse Hc Hfile Hid. split.
  - unfold main_export, parse. rewrite Hhelp, Hc. run_unfold.
    rewrite Hparse.
    cbn [is_empty negb]. rewrite !andb_false_r.
    rewrite !environ_store_pattern.
    change (eqb (str "BDFS_CONFIG_FILE") (str "DKCI_GREP_PATTERN"))
      with false.
    change (eqb (str "BDFS_CLIENT_ID") (str "DKCI_GREP_PATTERN")) with false.
    rewrite !andb_false_r. cbn [andb]. rewrite Hfile, Hid. cbn.
    destruct (ExportImages (store_pattern C pat) destination w). reflexivity.
  - intros w' images. rewrite ExportImages_imageNames_filter.
    rewrite environ_store_pattern, eqb_refl, andb_true_r.
    destruct pat; reflexivity.
Qed.

(** X27.  When an argument is "-h" or "--help", the export and the import
    do nothing but hand the arguments to pflag: the program prints
    nothing, calls nothing, leaves the world as it is, and ends the way
    pflag does; when pflag returns, it returns. *)
Theorem help_only_parses :
  forall (args : list gostring) (arg : gostring) (w : W),
    In arg args -> arg = str "-h" \/ arg = str "--help" ->
    let ended :=
      match Parse args with
      | Returned _ => Returned tt
      | Exited code => Exited code
      | Panicked => Panicked
      end in
    main_export C Parse args w = mkRun [] w ended
    /\ main_import C Parse args w = mkRun [] w ended.
Proof.
  intros args arg w Hin Harg. cbv zeta.
  assert (Hhelp : showHelp args = true)
    by (apply showHelp_true; exists arg; tauto).
  unfold main_export, main_import, parse. rewrite Hhelp. run_unfold.
  destruct (Parse args) as [[[a b] c]| |]; split; reflexivity.
Qed.

End DispatchFacts.

(** ** Cloud loops *)

Section CloudLoopExtras.
Variable W : Type.
Variable C : Collaborators W.

Lemma importFromFile_downloads (filePath : gostring) (w : W) :
  downloads (trace (importFromFile C filePath w)) = [].
Proof.
  unfold importFromFile, getImageInfoFromTar. run_unfold.
  repeat first [run_call | run_if]; reflexivity.
Qed.

Lemma importFromDirectory_downloads (dirPath pat : gostring) (w : W) :
  downloads (trace (importFromDirectory C dirPath pat w)) = [].
Proof.
  unfold importFromDirectory. run_unfold.
  destruct (answer C (Walk dirPath) w) as [w1 calls]. run_unfold.
  destruct (findTarFilesInDirectory calls pat) as [tarFiles|err];
    run_unfold; [|reflexivity].
  repeat first [run_call | run_if]; try reflexivity.
  destruct (importFromDirectory_handleAll tarFiles a) as [selected|];
    run_unfold; [|reflexivity].
  run_if; [reflexivity|].
  pose proof (forEach_observed_nothing _ (importFromFile C)
                importFromFile_downloads
                (selectedFilePaths tarFiles selected) w0) as Hloop.
  destruct (forEach (selectedFilePaths tarFiles selected)
              (importFromFile C) w0) as [t' w' o].
  simpl in *. exact Hloop.
Qed.

Lemma ImportImagesFromSource_downloads (source pat : gostring) (w : W) :
  downloads (trace (ImportImagesFromSource C source pat w)) = [].
Proof.
  unfold ImportImagesFromSource. run_unfold. run_call; [|reflexivity].
  destruct (IsDir a).
  - pose proof (importFromDirectory_downloads source pat w0) as H.
    destruct (importFromDirectory C source pat w0). simpl in *. exact H.
  - pose proof (importFromFile_downloads source w0) as H.
    destruct (importFromFile C source w0). simpl in *. exact H.
Qed.

Lemma downloadAndImportFromCloud_downloads (cloudFilePath : gostring)
  (w : W) (y : gostring) :
  In y (downloads (trace (downloadAndImportFromCloud C cloudFilePath w))) ->
  y = cloudFilePath.
Proof.
  unfold downloadAndImportFromCloud. run_unfold.
  run_call; [|simpl; tauto].
  run_call; [|simpl; intros [H|[]]; symmetry; exact H].
  run_call; [|simpl; intros [H|[]]; symmetry; exact H].
  run_call; [|simpl; intros [H|[]]; symmetry; exact H].
  pose proof (ImportImagesFromSource_downloads
                (Join C [tempDir; Base cloudFilePath]) [] w3) as Hdl.
  destruct (ImportImagesFromSource C (Join C [tempDir; Base cloudFilePath])
              [] w3) as [t' w' [[]| |]]; simpl in Hdl; run_unfold;
    try run_call; unfold downloads in *; simpl;
    rewrite ?observed_app, Hdl; simpl;
    intros [H|[]]; symmetry; exact H.
Qed.

(** X25.  From a cloud directory the import downloads only entries of its
    listing whose path ends in a tar extension and whose base name passes
    the pattern, whatever the menu answers. *)
Theorem cloud_import_downloads_only_listed_tar_files :
  forall (cloudPath grepPattern : gostring) (w w1 w2 : W) (t : list Event)
         (files : list PanFileInfo) (p : gostring),
    login C w = mkRun t w1 (Returned tt) ->
    answer C (ListFiles cloudPath) w1 = (w2, Ok files) ->
    In p (downloads (trace (ImportImagesFromCloud C cloudPath grepPattern w)))
    ->
    exists f, In f files /\ Path f = p
              /\ tar_name (Path f)
              /\ matches_spec (baseName (Path f)) grepPattern = true.
Proof.
  intros cloudPath pat w w1 w2 t files p Hlogin Hlist.
  pose proof (login_downloads C w) as Hld. rewrite Hlogin in Hld.
  simpl in Hld.
  unfold ImportImagesFromCloud. run_unfold. rewrite Hlogin. run_unfold.
  rewrite Hlist. run_unfold.
  rewrite ImportImagesFromCloud_tarFiles_filter.
  set (tarFiles := filter (cloud_candidate pat) files).
  assert (Hfound : forall q, In q (map Path tarFiles) ->
            exists f, In f files /\ Path f = q /\ tar_name (Path f)
                      /\ matches_spec (baseName (Path f)) pat = true).
  { intros q Hq. apply in_map_iff in Hq. destruct Hq as (f & Hf & Hin).
    apply filter_In in Hin. destruct Hin as [Hin Hcand].
    apply cloud_candidate_iff in Hcand. exists f. tauto. }
  run_if.
  { unfold downloads in *. simpl. rewrite observed_app, Hld. simpl. tauto. }
  repeat first [run_call | run_if];
    try (unfold downloads in *; simpl; rewrite observed_app, Hld; simpl;
         tauto).
  match goal with
  | |- context [forEach ?l ?body ?w0] =>
      pose proof (forEach_observed_In _ body (fun x y => y = x)
                    (fun x w y => @downloadAndImportFromCloud_downloads x w y)
                    l w0 p) as Hloop;
      destruct (forEach l body w0) as [t' w' o]
  end.
  unfold downloads in *. simpl in *. rewrite observed_app, Hld. simpl.
  intros H. destruct (Hloop H) as (x & Hx & ->).
  apply Hfound.
  destruct (selection_maps_to_first_file_of_that_name (map Path tarFiles)
              (ImportImagesFromCloud_handleAll (map Path tarFiles) a))
    as [Hmap _].
  apply (Hmap x Hx).
Qed.

Lemma ExportImageToCloud_inspections (imageName cloudPath : gostring)
  (w : W) :
  inspections (trace (ExportImageToCloud C imageName cloudPath w))
  = [imageName].
Proof. unfold ExportImageToCloud. run_calls; reflexivity. Qed.

Lemma ExportImageToCloud_reports (imageName cloudPath : gostring) (w : W) :
  length (reports (trace (ExportImageToCloud C imageName cloudPath w))) = 1.
Proof. unfold ExportImageToCloud. run_calls; reflexivity. Qed.

(** X26.  The loop of the cloud export runs to its end whatever fails: it
    returns, every selected image is inspected, in the order of the
    selection, and there is one report line, "[x] ..." or "[√] ...", for
    each of them. *)
Theorem cloud_export_loop_runs_to_its_end :
  forall (cloudPath : gostring) (selected : list gostring) (w : W),
    let run :=
      forEach selected
        (fun imageName => ExportImageToCloud C imageName cloudPath) w in
    outcome run = Returned tt
    /\ inspections (trace run) = selected
    /\ length (reports (trace run)) = length selected.
Proof.
  intros cloudPath selected w. cbv zeta. split; [|split].
  - apply forEach_returns. intros. apply ExportImageToCloud_returns.
  - unfold inspections.
    rewrite (forEach_observed _ _ (fun x => [x])).
    + apply flat_map_singleton.
    + intros. apply ExportImageToCloud_returns.
    + intros. apply ExportImageToCloud_inspections.
  - apply forEach_reports; intros;
      [apply ExportImageToCloud_returns | apply ExportImageToCloud_reports].
Qed.

End CloudLoopExtras.

(** ** Worked cases *)

Lemma resolved_config_is_usable_witness :
  let world :=
    Scenario.world
      (Cases.with_config [] (Ok (str "client_id = 'file-id'"))
         (Ok {| ClientID := str "file-id";
                ClientSecret := str "file-secret";
                TokenPath := str "/file/token.json";
                DefaultCloudDir := [] |})) in
  let config :=
    {| ClientID := str "file-id";
       ClientSecret := str "file-secret";
       TokenPath := str "/file/token.json";
       DefaultCloudDir := str "/" |} in
  outcome (GetBDFSConfig world tt) = Returned (Ok config)
  /\ (ClientID config <> [] /\ ClientSecret config <> []
      /\ TokenPath config <> [] /\ DefaultCloudDir config <> []).
Proof.
  intros world config.
  assert (H : outcome (GetBDFSConfig world tt) = Returned (Ok config))
    by reflexivity.
  split; [exact H|].
  exact (@resolved_config_is_usable unit world tt config H).
Defined.

Lemma config_file_location_witness :
  let world :=
    Scenario.world
      (Cases.with_config
         [(str "BDFS_CONFIG_FILE", str "/etc/dkci.toml");
          (str "BDFS_CLIENT_ID", str "env-id")]
         (Ok (str "client_id = 'file-id'"))
         (Fail (Foreign (str "bad toml")))) in
  negb (is_empty (environ world tt (str "BDFS_CLIENT_ID")))
  && negb (is_empty (environ world tt (str "BDFS_CLIENT_SECRET")))
  && negb (is_empty (environ world tt (str "BDFS_TOKEN_PATH"))) = false
  /\ environ world tt (str "BDFS_CONFIG_FILE") <> []
  /\ file_reads (trace (GetBDFSConfig world tt)) = [str "/etc/dkci.toml"]
  /\ home_lookups (trace (GetBDFSConfig world tt)) = 0.
Proof.
  intros world.
  assert (Henv :
            negb (is_empty (environ world tt (str "BDFS_CLIENT_ID")))
            && negb (is_empty (environ world tt (str "BDFS_CLIENT_SECRET")))
            && negb (is_empty (environ world tt (str "BDFS_TOKEN_PATH")))
            = false) by reflexivity.
  assert (Hfile : environ world tt (str "BDFS_CONFIG_FILE") <> [])
    by (vm_compute; discriminate).
  split; [exact Henv|]. split; [exact Hfile|].
  exact (proj1 (@config_file_location unit world tt Henv) Hfile).
Defined.

Lemma config_file_errors_witness :
  let unreadable :=
    Scenario.world
      (Cases.with_config [] (Fail (Foreign (str "permission denied")))
         (Fail (Foreign (str "no data")))) in
  let path := str "/root/.local/app/dkci/config.toml" in
  negb (is_empty (environ unreadable tt (str "BDFS_CLIENT_ID")))
  && negb (is_empty (environ unreadable tt (str "BDFS_CLIENT_SECRET")))
  && negb (is_empty (environ unreadable tt (str "BDFS_TOKEN_PATH"))) = false
  /\ configFilePath unreadable (environ unreadable tt) tt
     = mkRun [Called UserHomeDir] tt (Returned (Ok path))
  /\ answer unreadable (ReadFile path) tt
     = (tt, Fail (Foreign (str "permission denied")))
  /\ outcome (GetBDFSConfig unreadable tt)
     = Returned (Fail (Errorf (str "failed to read config file %s: %v")
                         [VString path;
                          VError (Foreign (str "permission denied"))])).
Proof.
  intros unreadable path.
  assert (Henv :
            negb (is_empty (environ unreadable tt (str "BDFS_CLIENT_ID")))
            && negb (is_empty
                       (environ unreadable tt (str "BDFS_CLIENT_SECRET")))
            && negb (is_empty (environ unreadable tt (str "BDFS_TOKEN_PATH")))
            = false) by reflexivity.
  assert (Hpath : configFilePath unreadable (environ unreadable tt) tt
                  = mkRun [Called UserHomeDir] tt (Returned (Ok path)))
    by reflexivity.
  assert (Hread : answer unreadable (ReadFile path) tt
                  = (tt, Fail (Foreign (str "permission denied"))))
    by reflexivity.
  split; [exact Henv|]. split; [exact Hpath|]. split; [exact Hread|].
  exact (proj1 (proj1 (@config_file_errors unit unreadable tt tt tt
                         [Called UserHomeDir] path Henv Hpath)
                  (Foreign (str "permission denied")) Hread)).
Defined.

Lemma single_colon_reference_name_witness :
  colon_free (str "library/nginx") /\ colon_free (str "1.25")
  /\ ExportImage_tarFileName (str "library/nginx" ++ str ":" ++ str "1.25")
       (str "linux") (str "amd64")
     = tarFileName (str "library/nginx") (str "1.25") (str "linux")
         (str "amd64").
Proof.
  assert (Hname : colon_free (str "library/nginx"))
    by (vm_compute; intuition discriminate).
  assert (Htag : colon_free (str "1.25"))
    by (vm_compute; intuition discriminate).
  split; [exact Hname|]. split; [exact Htag|].
  exact (proj1 (@single_colon_reference_name (str "library/nginx")
                  (str "1.25") (str "linux") (str "amd64") Hname Htag)).
Defined.

Lemma exported_files_are_import_candidates_witness :
  let c :=
    {| walk_path := str "/tmp/go-dkci/my·app_v1_linux_amd64.tar";
       walk_info :=
         {| Name := ExportImage_tarFileName (str "my/app:v1") (str "linux")
                      (str "amd64");
            IsDir := false |};
       walk_err := None |} in
  walk_err c = None /\ IsDir (walk_info c) = false
  /\ Name (walk_info c)
     = ExportImage_tarFileName (str "my/app:v1") (str "linux") (str "amd64")
  /\ findTarFilesInDirectory [c] [] = inl [walk_path c].
Proof.
  intros c. split; [reflexivity|]. split; [reflexivity|].
  split; [reflexivity|].
  exact (proj1 (@exported_files_are_import_candidates (str "my/app:v1")
                  (str "linux") (str "amd64") c (str "/docker-images")
                  eq_refl eq_refl eq_refl)).
Defined.

Lemma exported_image_is_found_by_the_same_pattern_witness :
  Contains (str "my/app") (str "app") = true
  /\ ~ In slash (str "app") /\ ~ In slash (str "v1")
  /\ ~ In slash (str "linux") /\ ~ In slash (str "amd64")
  /\ baseName (str "/tmp/go-dkci" ++ slash
               :: tarFileName (str "my/app") (str "v1") (str "linux")
                    (str "amd64"))
     = stem (str "my/app") (str "v1") (str "linux") (str "amd64").
Proof.
  assert (H1 : Contains (str "my/app") (str "app") = true) by reflexivity.
  assert (H2 : ~ In slash (str "app")) by (vm_compute; intuition discriminate).
  assert (H3 : ~ In slash (str "v1")) by (vm_compute; intuition discriminate).
  assert (H4 : ~ In slash (str "linux"))
    by (vm_compute; intuition discriminate).
  assert (H5 : ~ In slash (str "amd64"))
    by (vm_compute; intuition discriminate).
  repeat (split; [assumption|]).
  exact (proj1 (@exported_image_is_found_by_the_same_pattern
                  (str "/tmp/go-dkci") (str "my/app") (str "v1")
                  (str "linux") (str "amd64") (str "app")
                  H1 H2 H3 H4 H5)).
Defined.

Lemma slash_pattern_selects_no_file_witness :
  let calls := [Scenario.file "/tmp/go-dkci/my·app_v1_linux_amd64.tar"] in
  In slash (str "my/app")
  /\ Forall (fun c => walk_err c = None
                      /\ Name (walk_info c) = Base (walk_path c)) calls
  /\ findTarFilesInDirectory calls (str "my/app") = inl [].
Proof.
  intros calls.
  assert (H1 : In slash (str "my/app")) by (vm_compute; tauto).
  assert (H2 : Forall (fun c => walk_err c = None
                                /\ Name (walk_info c) = Base (walk_path c))
                 calls)
    by (repeat constructor).
  split; [exact H1|]. split; [exact H2|].
  exact (proj1 (@slash_pattern_selects_no_file calls [] (str "my/app")
                  H1 H2)).
Defined.

Lemma selection_maps_to_first_file_of_that_name_witness :
  let first := str "/images/a/x.tar" in
  let second := str "/images/b/x.tar" in
  [first; second] = [] ++ first :: [second]
  /\ Base second = Base first /\ second <> first /\ ~ In second []
  /\ ~ In second (selectedFilePaths [first; second] [str "x.tar"; str "x.tar"]).
Proof.
  intros first second.
  assert (H1 : [first; second] = [] ++ first :: [second]) by reflexivity.
  assert (H2 : Base second = Base first) by reflexivity.
  assert (H3 : second <> first) by (vm_compute; discriminate).
  assert (H4 : ~ In second []) by (simpl; tauto).
  repeat (split; [assumption|]).
  exact (proj2 (proj2 (@selection_maps_to_first_file_of_that_name
                         [first; second] [str "x.tar"; str "x.tar"]))
           [] first [second] second H1 H2 H3 H4).
Defined.

Lemma importFromDirectory_loads_only_found_files_witness :
  let world :=
    Scenario.world
      (Cases.with_walk
         [Scenario.directory "/images"; Scenario.file "/images/a.tar";
          Scenario.file "/images/b.tar"]
         [str "b.tar"] []) in
  In (str "/images/b.tar")
    (loads (trace (importFromDirectory world (str "/images") [] tt)))
  /\ exists c,
       In c (snd (answer world (Walk (str "/images")) tt))
       /\ walk_path c = str "/images/b.tar"
       /\ walk_err c = None
       /\ IsDir (walk_info c) = false
       /\ tar_name (Name (walk_info c))
       /\ matches_spec (baseName (str "/images/b.tar")) [] = true.
Proof.
  intros world.
  assert (H : In (str "/images/b.tar")
                (loads (trace (importFromDirectory world (str "/images") []
                                 tt))))
    by (vm_compute; tauto).
  split; [exact H|].
  exact (@importFromDirectory_loads_only_found_files unit world
           (str "/images") [] tt (str "/images/b.tar") H).
Defined.

Lemma importFromDirectory_nothing_to_import_witness :
  let empty :=
    Scenario.world
      (Cases.with_walk [Scenario.directory "/images";
                        Scenario.file "/images/notes.txt"] [All] []) in
  let unanswered :=
    Scenario.world
      (Cases.with_walk [Scenario.file "/images/a.tar";
                        Scenario.file "/images/b.tar"] [] []) in
  findTarFilesInDirectory (snd (answer empty (Walk (str "/images")) tt)) []
  = inl []
  /\ outcome (importFromDirectory empty (str "/images") [] tt) = Exited 1
  /\ findTarFilesInDirectory
       (snd (answer unanswered (Walk (str "/images")) tt)) []
     = inl [str "/images/a.tar"; str "/images/b.tar"]
  /\ snd (answer unanswered
            (AskOne (str "Select .tar files to import as Docker images:")
               (file_selectionOptions
                  [str "/images/a.tar"; str "/images/b.tar"]))
            (fst (answer unanswered (Walk (str "/images")) tt)))
     = Ok []
  /\ outcome (importFromDirectory unanswered (str "/images") [] tt)
     = Exited 1.
Proof.
  intros empty unanswered.
  assert (H1 : findTarFilesInDirectory
                 (snd (answer empty (Walk (str "/images")) tt)) [] = inl [])
    by reflexivity.
  assert (H2 : findTarFilesInDirectory
                 (snd (answer unanswered (Walk (str "/images")) tt)) []
               = inl [str "/images/a.tar"; str "/images/b.tar"])
    by reflexivity.
  assert (H3 : snd (answer unanswered
                      (AskOne
                         (str "Select .tar files to import as Docker images:")
                         (file_selectionOptions
                            [str "/images/a.tar"; str "/images/b.tar"]))
                      (fst (answer unanswered (Walk (str "/images")) tt)))
               = Ok []) by reflexivity.
  split; [exact H1|].
  split; [exact (proj1 (proj1 (@importFromDirectory_nothing_to_import unit
                                 empty (str "/images") [] tt)
                          (or_introl H1)))|].
  split; [exact H2|]. split; [exact H3|].
  exact (proj1 (proj2 (@importFromDirectory_nothing_to_import unit
                         unanswered (str "/images") [] tt)
                  [str "/images/a.tar"; str "/images/b.tar"] H2 H3)).
Defined.

Lemma cloud_single_file_must_be_tar_witness :
  let world := Cases.single_files (Cases.with_env Cases.bdfs_env) in
  login world tt = mkRun (trace (login world tt)) tt (Returned tt)
  /\ answer world (ListFiles (str "/cloud/notes.txt")) tt
     = (tt, Fail (Foreign (str "not a directory")))
  /\ answer world (GetFileInfoByPath (str "/cloud/notes.txt")) tt
     = (tt, Ok {| Path := str "/cloud/notes.txt" |})
  /\ has_tar_suffix (ToLower (str "/cloud/notes.txt")) = false
  /\ outcome (ImportImagesFromCloud world (str "/cloud/notes.txt") [] tt)
     = Exited 1
  /\ downloads
       (trace (ImportImagesFromCloud world (str "/cloud/notes.txt") [] tt))
     = [].
Proof.
  intros world.
  assert (H1 : login world tt
               = mkRun (trace (login world tt)) tt (Returned tt))
    by reflexivity.
  assert (H2 : answer world (ListFiles (str "/cloud/notes.txt")) tt
               = (tt, Fail (Foreign (str "not a directory"))))
    by reflexivity.
  assert (H3 : answer world (GetFileInfoByPath (str "/cloud/notes.txt")) tt
               = (tt, Ok {| Path := str "/cloud/notes.txt" |}))
    by reflexivity.
  assert (H4 : has_tar_suffix (ToLower (str "/cloud/notes.txt")) = false)
    by reflexivity.
  repeat (split; [assumption|]).
  destruct (@cloud_single_file_must_be_tar unit world
              (str "/cloud/notes.txt") [] tt tt tt
              (trace (login world tt)) tt
              (Foreign (str "not a directory"))
              {| Path := str "/cloud/notes.txt" |} H1 H2 H3 H4)
    as (A & _ & _ & B).
  split; [exact A | exact B].
Defined.

Lemma no_candidate_ends_the_command_witness :
  let images := [{| RepoTags := [str "<none>:<none>"] |}] in
  let world := Scenario.world (Cases.with_images images [] []) in
  answer world NewClientWithOpts tt = (tt, Ok tt)
  /\ answer world ImageList tt = (tt, Ok images)
  /\ (forall tag, In tag (listed_tags images) ->
                  image_candidate [] tag = false)
  /\ outcome (DeleteImages world [] tt) = Exited 1
  /\ menus (trace (DeleteImages world [] tt)) = [].
Proof.
  intros images world.
  assert (H1 : answer world NewClientWithOpts tt = (tt, Ok tt))
    by reflexivity.
  assert (H2 : answer world ImageList tt = (tt, Ok images)) by reflexivity.
  assert (H3 : forall tag, In tag (listed_tags images) ->
                           image_candidate [] tag = false)
    by (intros tag [<-|[]]; reflexivity).
  repeat (split; [assumption|]).
  destruct (proj2 (@no_candidate_ends_the_command unit world [] [] tt tt tt
                     images H1 H2) H3) as (A & B & _).
  split; [exact A | exact B].
Defined.

Lemma cloud_commands_need_a_configuration_witness :
  let world := Scenario.world Scenario.quiet in
  let err :=
    Errorf (str "failed to read config file %s: %v")
      [VString (str "/root/.local/app/dkci/config.toml");
       VError (Foreign (str "no such file"))] in
  outcome (GetBDFSConfig world tt) = Returned (Fail err)
  /\ outcome (ExportImagesToCloud world (str "/docker-images") tt) = Exited 1
  /\ logins (trace (ExportImagesToCloud world (str "/docker-images") tt))
     = []
  /\ In (Printf (str "[x] Error getting BDFS configuration: %v\n")
           [VError err])
       (trace (ImportImagesFromCloud world (str "/docker-images") [] tt)).
Proof.
  intros world err.
  assert (H : outcome (GetBDFSConfig world tt) = Returned (Fail err))
    by reflexivity.
  split; [exact H|].
  destruct (@cloud_commands_need_a_configuration unit world
              (str "/docker-images") [] tt err H)
    as ((A & B & _) & _ & _ & I).
  split; [exact A|]. split; [exact B | exact I].
Defined.

Lemma CleanCache_needs_confirmation_witness :
  let dir := Cases.cache (str "y") [] in
  Scanln dir [str "a.tar"; str "b.tar"] <> str "yes"
  /\ final (CleanCache dir [str "a.tar"; str "b.tar"])
     = [str "a.tar"; str "b.tar"].
Proof.
  intros dir.
  assert (H : Scanln dir [str "a.tar"; str "b.tar"] <> str "yes")
    by (vm_compute; discriminate).
  split; [exact H|].
  exact (proj1 (@CleanCache_needs_confirmation (list gostring) dir
                  [str "a.tar"; str "b.tar"] H)).
Defined.

Lemma CleanCache_removes_every_entry_witness :
  let dir := Cases.cache (str "yes") [str "/tmp/go-dkci/a.tar"] in
  let names := [str "a.tar"; str "b.tar"; str "c.tar"] in
  stat_not_exist dir names cacheDir = false
  /\ ReadDir dir names cacheDir = Ok names
  /\ names <> []
  /\ Scanln dir names = str "yes"
  /\ final (CleanCache dir names) = [str "a.tar"]
  /\ outcome (CleanCache dir names) = Returned tt
  /\ successes (trace (CleanCache dir names))
     = [Printf
          (str "[√] Successfully cleaned cache directory. Deleted %d file(s)\n")
          [VInt 2]].
Proof.
  intros dir names.
  assert (H1 : stat_not_exist dir names cacheDir = false) by reflexivity.
  assert (H2 : ReadDir dir names cacheDir = Ok names) by reflexivity.
  assert (H3 : names <> []) by discriminate.
  assert (H4 : Scanln dir names = str "yes") by reflexivity.
  repeat (split; [assumption|]).
  destruct (@CleanCache_removes_every_entry (list gostring) dir names names
              H1 H2 H3 H4) as (A & B & Csucc & _).
  split; [rewrite A; reflexivity|].
  split; [exact B|]. rewrite Csucc. reflexivity.
Defined.

Lemma CleanCache_without_entries_witness :
  let dir := Cases.cache (str "yes") [] in
  stat_not_exist Cases.no_cache tt cacheDir = true
  /\ outcome (CleanCache Cases.no_cache tt) = Exited 1
  /\ stat_not_exist dir [] cacheDir = false
  /\ ReadDir dir [] cacheDir = Ok []
  /\ outcome (CleanCache dir []) = Returned tt.
Proof.
  intros dir.
  assert (H1 : stat_not_exist Cases.no_cache tt cacheDir = true)
    by reflexivity.
  assert (H2 : stat_not_exist dir [] cacheDir = false) by reflexivity.
  assert (H3 : ReadDir dir [] cacheDir = Ok []) by reflexivity.
  split; [exact H1|].
  split; [exact (proj1 (proj1 (@CleanCache_without_entries unit
                                 Cases.no_cache tt) H1))|].
  split; [exact H2|]. split; [exact H3|].
  rewrite (proj2 (proj2 (@CleanCache_without_entries (list gostring) dir []))
             H2 H3).
  reflexivity.
Defined.

Lemma exclusive_flags_end_the_command_witness :
  let world := Scenario.world Scenario.quiet in
  let args := [str "-d"; str "/tmp/images"; str "-c"; str "/docker-images"] in
  let Parse := Cases.parsed (str "/tmp/images") (str "/docker-images") [] in
  showHelp args = false
  /\ Parse args = Returned (str "/tmp/images", str "/docker-images", [])
  /\ In (str "-d") args /\ str "/docker-images" <> []
  /\ HasPrefix (str "-d") (str "-d") = true
  /\ outcome (main_export world Parse args tt) = Exited 1.
Proof.
  intros world args Parse.
  assert (H0 : showHelp args = false) by reflexivity.
  assert (HP : Parse args
               = Returned (str "/tmp/images", str "/docker-images", []))
    by reflexivity.
  assert (H1 : In (str "-d") args) by (left; reflexivity).
  assert (H2 : str "/docker-images" <> []) by discriminate.
  assert (H3 : HasPrefix (str "-d") (str "-d") = true) by reflexivity.
  repeat (split; [assumption|]).
  rewrite (proj1 (@exclusive_flags_end_the_command unit world Parse args
                    (str "-d") (str "/tmp/images") (str "/docker-images") []
                    tt H0 HP H1 H2) (or_introl H3)).
  reflexivity.
Defined.

Lemma destination_is_ignored_when_cloud_is_configured_witness :
  let world := Scenario.world (Cases.with_env Cases.bdfs_env) in
  let args := [str "-d"; str "/tmp/images"] in
  let Parse := Cases.parsed (str "/tmp/images") [] [] in
  showHelp args = false
  /\ Parse args = Returned (str "/tmp/images", [], [])
  /\ (environ world tt (str "BDFS_CLIENT_ID") <> []
      /\ environ world tt (str "BDFS_CLIENT_SECRET") <> []
      /\ environ world tt (str "BDFS_TOKEN_PATH") <> [])
  /\ logins (trace (main_export world Parse args tt)) = [str "env-id"]
  /\ creates (trace (main_export world Parse args tt)) = [].
Proof.
  intros world args Parse.
  assert (H0 : showHelp args = false) by reflexivity.
  assert (HP : Parse args = Returned (str "/tmp/images", [], []))
    by reflexivity.
  assert (H : environ world tt (str "BDFS_CLIENT_ID") <> []
              /\ environ world tt (str "BDFS_CLIENT_SECRET") <> []
              /\ environ world tt (str "BDFS_TOKEN_PATH") <> [])
    by (repeat split; vm_compute; discriminate).
  split; [exact H0|]. split; [exact HP|]. split; [exact H|].
  rewrite (@destination_is_ignored_when_cloud_is_configured unit world Parse
             args (str "/tmp/images") [] tt H0 HP
             (or_intror (or_intror H))).
  split; reflexivity.
Defined.

Lemma import_requires_a_source_witness :
  let world := Scenario.world Scenario.quiet in
  let args := [str "-g"; str "alpine"] in
  let Parse := Cases.parsed [] [] (str "alpine") in
  showHelp args = false
  /\ Parse args = Returned ([], [], str "alpine")
  /\ (forall arg, In arg args ->
                  HasPrefix arg (str "-c") = false
                  /\ HasPrefix arg (str "--cloud") = false)
  /\ outcome (main_import world Parse args tt) = Exited 1.
Proof.
  intros world args Parse.
  assert (H0 : showHelp args = false) by reflexivity.
  assert (HP : Parse args = Returned ([], [], str "alpine")) by reflexivity.
  assert (H : forall arg, In arg args ->
                          HasPrefix arg (str "-c") = false
                          /\ HasPrefix arg (str "--cloud") = false)
    by (intros arg [<-|[<-|[]]]; split; reflexivity).
  split; [exact H0|]. split; [exact HP|]. split; [exact H|].
  rewrite (@import_requires_a_source unit world Parse args (str "alpine") tt
             H0 HP H).
  reflexivity.
Defined.

Lemma local_export_pattern_witness :
  let world :=
    Scenario.world
      (Cases.with_env [(str "DKCI_GREP_PATTERN", str "nginx")]) in
  let images :=
    [{| RepoTags := [str "nginx:latest"; str "redis:7"] |}] in
  let Parse := Cases.parsed (str "/tmp/go-dkci") [] [] in
  showHelp [] = false
  /\ Parse [] = Returned (str "/tmp/go-dkci", [], [])
  /\ has_flag "-c" "--cloud" [] = false
  /\ environ world tt (str "BDFS_CONFIG_FILE") = []
  /\ environ world tt (str "BDFS_CLIENT_ID") = []
  /\ ExportImages_imageNames (environ (store_pattern world []) tt) images
     = [str "nginx:latest"].
Proof.
  intros world images Parse.
  assert (H0 : showHelp [] = false) by reflexivity.
  assert (HP : Parse [] = Returned (str "/tmp/go-dkci", [], []))
    by reflexivity.
  assert (H1 : has_flag "-c" "--cloud" [] = false) by reflexivity.
  assert (H2 : environ world tt (str "BDFS_CONFIG_FILE") = [])
    by reflexivity.
  assert (H3 : environ world tt (str "BDFS_CLIENT_ID") = []) by reflexivity.
  repeat (split; [assumption|]).
  rewrite (proj2 (@local_export_pattern unit world Parse []
                    (str "/tmp/go-dkci") [] tt H0 HP H1 H2 H3) tt images).
  reflexivity.
Defined.

Lemma help_only_parses_witness :
  let world := Scenario.world Scenario.quiet in
  let args := [str "-d"; str "/tmp/images"; str "--help"] in
  In (str "--help") args
  /\ main_export world (fun _ => Exited 0) args tt = mkRun [] tt (Exited 0)
  /\ main_import world (fun _ => Exited 0) args tt = mkRun [] tt (Exited 0).
Proof.
  intros world args.
  assert (H : In (str "--help") args) by (right; right; left; reflexivity).
  split; [exact H|].
  exact (@help_only_parses unit world (fun _ => Exited 0) args
           (str "--help") tt H (or_intror eq_refl)).
Defined.

Lemma importFromFile_reports_once_witness :
  let world := Cases.unreadable_archive Scenario.quiet in
  let filePath := str "/images/web.tar" in
  answer world NewClientWithOpts tt = (tt, Ok tt)
  /\ answer world (Open filePath) tt = (tt, Ok tt)
  /\ answer world (ImageLoad filePath (is_gzip_name filePath) true) tt
     = (tt, Ok tt)
  /\ outcome (getImageInfoFromTar world filePath tt)
     = Returned (Fail (Foreign (str "unexpected EOF")))
  /\ outcome (importFromFile world filePath tt) = Returned tt
  /\ successes (trace (importFromFile world filePath tt))
     = [Printf (str "[√] Successfully imported image from %s\n")
          [VString filePath]].
Proof.
  intros world filePath.
  assert (H1 : answer world NewClientWithOpts tt = (tt, Ok tt))
    by reflexivity.
  assert (H2 : answer world (Open filePath) tt = (tt, Ok tt)) by reflexivity.
  assert (H3 : answer world (FileStat filePath) tt = (tt, Ok tt))
    by reflexivity.
  assert (H4 : if is_gzip_name filePath
               then answer world (GzipNewReader filePath) tt = (tt, Ok tt)
               else tt = tt) by reflexivity.
  assert (H5 : answer world (ImageLoad filePath (is_gzip_name filePath) true)
                 tt = (tt, Ok tt)) by reflexivity.
  assert (H6 : answer world (ReadAll filePath) tt = (tt, Ok tt))
    by reflexivity.
  assert (H7 : outcome (getImageInfoFromTar world filePath tt)
               = Returned (Fail (Foreign (str "unexpected EOF"))))
    by reflexivity.
  destruct (proj2 (@importFromFile_reports_once unit world filePath tt)
              tt tt tt tt tt tt H1 H2 H3 H4 H5 H6) as (A & _ & B & _).
  split; [exact H1|]. split; [exact H2|]. split; [exact H5|].
  split; [exact H7|]. split; [exact A|].
  exact (B _ H7).
Defined.

Lemma ExportImageToCloud_removes_what_it_uploads_witness :
  let world := Cases.read_only Scenario.quiet in
  let tempFilePath := str "/tmp/go-dkci/nginx_latest_linux_amd64.tar" in
  snd (answer world (Create tempFilePath) tt)
  = Fail (Foreign (str "read-only file system"))
  /\ uploads (trace (ExportImageToCloud world (str "nginx:latest")
                       (str "/docker-images") tt)) = []
  /\ removes (trace (ExportImageToCloud world (str "nginx:latest")
                       (str "/docker-images") tt)) = [].
Proof.
  intros world tempFilePath.
  assert (H : snd (answer world (Create tempFilePath) tt)
              = Fail (Foreign (str "read-only file system")))
    by reflexivity.
  split; [exact H|].
  apply (@ExportImageToCloud_removes_what_it_uploads unit world
           (str "nginx:latest") (str "/docker-images") tt).
  exists (Foreign (str "read-only file system")).
  right. right. left. reflexivity.
Defined.

Lemma cloud_import_downloads_only_listed_tar_files_witness :
  let files :=
    [{| Path := str "/docker-images/a.tar" |};
     {| Path := str "/docker-images/readme.md" |};
     {| Path := str "/docker-images/b.tar" |}] in
  let world :=
    Cases.listing files
      {| Scenario.sc_env := Cases.bdfs_env;
         Scenario.sc_images := [];
         Scenario.sc_picks := [str "b.tar"];
         Scenario.sc_broken := [];
         Scenario.sc_walk := [];
         Scenario.sc_config_file := Fail (Foreign (str "no such file"));
         Scenario.sc_config := Fail (Foreign (str "no data")) |} in
  login world tt = mkRun (trace (login world tt)) tt (Returned tt)
  /\ answer world (ListFiles (str "/docker-images")) tt = (tt, Ok files)
  /\ In (str "/docker-images/b.tar")
       (downloads
          (trace (ImportImagesFromCloud world (str "/docker-images") [] tt)))
  /\ exists f, In f files /\ Path f = str "/docker-images/b.tar"
               /\ tar_name (Path f)
               /\ matches_spec (baseName (Path f)) [] = true.
Proof.
  intros files world.
  assert (H1 : login world tt
               = mkRun (trace (login world tt)) tt (Returned tt))
    by reflexivity.
  assert (H2 : answer world (ListFiles (str "/docker-images")) tt
               = (tt, Ok files)) by reflexivity.
  assert (H3 : In (str "/docker-images/b.tar")
                 (downloads
                    (trace (ImportImagesFromCloud world
                              (str "/docker-images") [] tt))))
    by (vm_compute; tauto).
  repeat (split; [assumption|]).
  exact (@cloud_import_downloads_only_listed_tar_files unit world
           (str "/docker-images") [] tt tt tt (trace (login world tt))
           files (str "/docker-images/b.tar") H1 H2 H3).
Defined.
